(** * Order-book reconstruction (reconstruct.cpp): model and verified properties

    A shallow embedding of [OrderBook] from [reconstruct.cpp]: the order
    registry [orders_], the two price ladders [bids_] and [offers_], the
    transitions [clear], [add], [cancel], [modify], [apply] and the
    aggregation [snapshot], the loop of [main] that applies an event and takes
    a snapshot, and the price codec of [MboMessage::parse] and of the output
    of [main].

    The ladders hold raw pointers ([const MboMessage*]).  The model keeps
    them as pointers: a pointer names either a node of the registry or the
    event object of the caller, and it is resolved through the memory that
    is live when it is read.  Reading an object whose lifetime has ended has
    no defined behaviour in C++: a transition or a snapshot that does so is
    [None]. *)

From Stdlib Require Import ZArith String Ascii List Lia DecimalString Reals Lra.
From stdpp Require Import gmap list sorting.

Open Scope Z_scope.

(** ** Data model *)

(** [static constexpr int64_t PRICE_UNDEF = numeric_limits<int64_t>::max()] *)
Definition PRICE_UNDEF : Z := 2 ^ 63 - 1.

(** [enum class Action : char { A, M, C, R, T, F, N }].  [parse] casts any
    character to [Action]; a character that is none of the seven takes the
    default branch of [apply], as [T], [F] and [N] do. *)
Module Action.
Inductive t := A | M | C | R | T | F | N.
End Action.

(** [enum class Side : char { B, A, N }].  A character that is none of the
    three is compared with [Side::B] as [A] and [N] are. *)
Module Side.
Inductive t := B | A | N.
End Side.

(** [struct MboMessage]: unsigned and signed machine integers are kept as
    [Z]; the arithmetic on them is written with its wrap-around where the
    program computes with them. *)
Module MboMessage.
Record t := mk {
  ts_recv : string;
  ts_event : string;
  rtype : Z;
  publisher_id : Z;
  instrument_id : Z;
  action : Action.t;
  side : Side.t;
  depth : Z;
  price : Z;
  size : Z;
  flags : Z;
  ts_in_delta : Z;
  sequence : Z;
  symbol : string;
  order_id : Z
}.

(** [msg.size = v] *)
Definition set_size (m : t) (v : Z) : t :=
  mk (ts_recv m) (ts_event m) (rtype m) (publisher_id m) (instrument_id m)
     (action m) (side m) (depth m) (price m) v (flags m) (ts_in_delta m)
     (sequence m) (symbol m) (order_id m).
End MboMessage.

(** [struct PriceLevel { int64_t price; uint32_t size; uint32_t count; }] *)
Module PriceLevel.
Record t := mk { price : Z; size : Z; count : Z }.
End PriceLevel.

(** A [const MboMessage*] held by a ladder.

    - [NodePtr k g] is the address of the message stored in the node that
      the [g]-th allocation of the registry created for key [k]
      ([&orders_.at(k)]).  Nodes of an [unordered_map] never move, and a node
      erased and created again for the same key is another object, hence the
      allocation stamp.
    - [EventPtr e] is the address of the caller's event object number [e]
      ([&m] for the parameter [const MboMessage& m]). *)
Inductive ptr :=
  | NodePtr (key : Z) (stamp : nat)
  | EventPtr (ev : nat).

Global Instance ptr_eq_dec : EqDecision ptr.
Proof. solve_decision. Defined.

(** [class OrderBook]: [orders_] maps an order id to its node (allocation
    stamp and stored message); a ladder is a [std::map] from price to the
    vector of pointers of that level.  [allocs] counts the nodes allocated
    so far and supplies the stamp of the next one. *)
Record OrderBook := mkBook {
  orders_ : gmap Z (nat * MboMessage.t);
  bids_ : gmap Z (list ptr);
  offers_ : gmap Z (list ptr);
  allocs : nat
}.

Definition empty_book : OrderBook := mkBook ∅ ∅ ∅ 0.

(** [m.side == Side::B] *)
Definition is_bid (s : Side.t) : bool :=
  match s with Side.B => true | _ => false end.

(** [auto& lvl = (side == Side::B ? bids_ : offers_)], read and written. *)
Definition lvl (b : OrderBook) (bid : bool) : gmap Z (list ptr) :=
  if bid then bids_ b else offers_ b.

Definition set_lvl (b : OrderBook) (bid : bool) (l : gmap Z (list ptr)) : OrderBook :=
  if bid then mkBook (orders_ b) l (offers_ b) (allocs b)
  else mkBook (orders_ b) (bids_ b) l (allocs b).

Definition set_orders (b : OrderBook) (o : gmap Z (nat * MboMessage.t)) : OrderBook :=
  mkBook o (bids_ b) (offers_ b) (allocs b).

(** [flags & (1u << 6)] as a condition *)
Definition tob (flags : Z) : bool := negb (Z.land flags (Z.shiftl 1 6) =? 0).

(** [vec.erase(std::remove(vec.begin(), vec.end(), p), vec.end())] *)
Definition remove_ptr (p : ptr) (vec : list ptr) : list ptr :=
  filter (λ q, q ≠ p) vec.

(** ** Transitions *)

(** [OrderBook::clear] *)
Definition clear (b : OrderBook) : OrderBook := mkBook ∅ ∅ ∅ (allocs b).

(** [OrderBook::add].  [e] identifies the object [m] refers to.
    [emplace] inserts only when the key is absent; [at] then returns the
    node that is in the map, new or old. *)
Definition add (b : OrderBook) (e : nat) (m : MboMessage.t) : OrderBook :=
  let bid := is_bid (MboMessage.side m) in
  if tob (MboMessage.flags m) then
    set_lvl b bid {[ MboMessage.price m := [EventPtr e] ]}
  else
    let id := MboMessage.order_id m in
    let '(g, b1) :=
      match orders_ b !! id with
      | Some (g, _) => (g, b)
      | None =>
          (allocs b,
           mkBook (<[id := (allocs b, m)]> (orders_ b)) (bids_ b) (offers_ b)
                  (S (allocs b)))
      end in
    let l := lvl b1 bid in
    set_lvl b1 bid
      (<[MboMessage.price m := (l !!! MboMessage.price m) ++ [NodePtr id g]]> l).

(** The size a Cancel leaves: [msg.size > m.size ? msg.size - m.size : 0]. *)
Definition reduced (msg m : MboMessage.t) : Z :=
  if MboMessage.size m <? MboMessage.size msg
  then MboMessage.size msg - MboMessage.size m else 0.

(** [OrderBook::cancel].  In the branch that erases the order, the source
    goes on to evaluate [msg.price] in [lvl.erase(msg.price)] when the
    vector is empty, where [msg] refers to the node just erased: that read
    has no defined behaviour, and the result is [None]. *)
Definition cancel (b : OrderBook) (m : MboMessage.t) : option OrderBook :=
  let id := MboMessage.order_id m in
  match orders_ b !! id with
  | None => Some b
  | Some (g, msg) =>
      let sz := reduced msg m in
      let p := NodePtr id g in
      let bid := is_bid (MboMessage.side m) in
      let l := lvl b bid in
      let vec := remove_ptr p (l !!! MboMessage.price msg) in
      if sz =? 0 then
        match vec with
        | [] => None
        | _ :: _ =>
            Some (set_lvl (set_orders b (delete id (orders_ b))) bid
                    (<[MboMessage.price msg := vec]> l))
        end
      else
        Some (set_lvl
                (set_orders b (<[id := (g, MboMessage.set_size msg sz)]> (orders_ b)))
                bid (<[MboMessage.price msg := vec ++ [p]]> l))
  end.

(** [OrderBook::modify].  The ladder is chosen by the stored order's side
    before [msg = m] overwrites it. *)
Definition modify (b : OrderBook) (e : nat) (m : MboMessage.t) : OrderBook :=
  let id := MboMessage.order_id m in
  match orders_ b !! id with
  | None => add b e m
  | Some (g, msg) =>
      let p := NodePtr id g in
      let bid := is_bid (MboMessage.side msg) in
      let l := lvl b bid in
      let b1 := set_orders b (<[id := (g, m)]> (orders_ b)) in
      if negb (MboMessage.price msg =? MboMessage.price m) then
        let vec := remove_ptr p (l !!! MboMessage.price msg) in
        let l1 :=
          match vec with
          | [] => delete (MboMessage.price msg) l
          | _ :: _ => <[MboMessage.price msg := vec]> l
          end in
        set_lvl b1 bid
          (<[MboMessage.price m := (l1 !!! MboMessage.price m) ++ [p]]> l1)
      else if MboMessage.size msg <? MboMessage.size m then
        set_lvl b1 bid
          (<[MboMessage.price msg :=
               remove_ptr p (l !!! MboMessage.price msg) ++ [p]]> l)
      else b1
  end.

(** [OrderBook::apply] *)
Definition apply (b : OrderBook) (e : nat) (m : MboMessage.t) : option OrderBook :=
  match MboMessage.action m with
  | Action.R => Some (clear b)
  | Action.A => Some (add b e m)
  | Action.C => cancel b m
  | Action.M => Some (modify b e m)
  | _ => Some b
  end.

(** ** Snapshot *)

(** The caller's event objects that are alive, with their values. *)
Definition scope := nat → option MboMessage.t.

(** Inside one iteration of the loop of [main] only the event of that
    iteration is alive. *)
Definition in_iteration (e : nat) (m : MboMessage.t) : scope :=
  λ e', if decide (e' = e) then Some m else None.

(** [*p] *)
Definition deref (sc : scope) (b : OrderBook) (p : ptr) : option MboMessage.t :=
  match p with
  | NodePtr k g =>
      match orders_ b !! k with
      | Some (g', msg) => if decide (g' = g) then Some msg else None
      | None => None
      end
  | EventPtr e => sc e
  end.

(** The inner loop of [fill]: [sz] and [ct] are [uint32_t]. *)
Fixpoint aggregate (sc : scope) (b : OrderBook) (vec : list ptr) (sz ct : Z)
  : option (Z * Z) :=
  match vec with
  | [] => Some (sz, ct)
  | p :: vec' =>
      match deref sc b p with
      | None => None
      | Some o =>
          if tob (MboMessage.flags o) then aggregate sc b vec' sz ct
          else aggregate sc b vec'
                 ((sz + MboMessage.size o) mod 2 ^ 32) ((ct + 1) mod 2 ^ 32)
      end
  end.

Definition level_row (sc : scope) (b : OrderBook) (it : Z * list ptr)
  : option PriceLevel.t :=
  match aggregate sc b it.2 0 0 with
  | Some (sz, ct) => Some (PriceLevel.mk it.1 sz ct)
  | None => None
  end.

(** Iteration of a [std::map] from [begin()] to [end()]: ascending keys. *)
Definition key_le (x y : Z * list ptr) : Prop := x.1 ≤ y.1.

Global Instance key_le_dec : RelDecision key_le.
Proof. intros x y. unfold key_le. apply _. Defined.

Definition levels (l : gmap Z (list ptr)) : list (Z * list ptr) :=
  merge_sort key_le (map_to_list l).

Definition padding : PriceLevel.t := PriceLevel.mk PRICE_UNDEF 0 0.

(** The lambda [fill] of [snapshot]. *)
Definition fill (sc : scope) (b : OrderBook) (l : gmap Z (list ptr))
    (rev : bool) (depth : nat) : option (list PriceLevel.t) :=
  let its := take depth (if rev then reverse (levels l) else levels l) in
  match mapM (level_row sc b) its with
  | Some rows => Some (rows ++ replicate (depth - length its) padding)
  | None => None
  end.

(** [OrderBook::snapshot] *)
Definition snapshot (sc : scope) (b : OrderBook) (depth : nat)
  : option (list PriceLevel.t) :=
  match fill sc b (bids_ b) true depth with
  | Some bs =>
      match fill sc b (offers_ b) false depth with
      | Some os => Some (bs ++ os)
      | None => None
      end
  | None => None
  end.

(** The loop of [main] over the lines that [parse] accepts: the event of
    iteration [e] is applied and the snapshot of depth 10 is taken while that
    event is alive; the result lists the snapshot written for each line.
    Nothing is defined after a step that is not. *)
Fixpoint main (ob : option OrderBook) (e : nat) (events : list MboMessage.t)
  : list (option (list PriceLevel.t)) :=
  match events with
  | [] => []
  | m :: rest =>
      match ob ≫= λ b, apply b e m with
      | Some b' =>
          match snapshot (in_iteration e m) b' 10 with
          | Some rows => Some rows :: main (Some b') (S e) rest
          | None => None :: main None (S e) rest
          end
      | None => None :: main None (S e) rest
      end
  end.

(** Strictly ascending prices *)
Definition key_lt (x y : Z * list ptr) : Prop := x.1 < y.1.

Global Instance key_le_total : Total key_le.
Proof. intros x y. unfold key_le. lia. Qed.

Global Instance key_le_trans : Transitive key_le.
Proof. intros x y z. unfold key_le. lia. Qed.

(** ** The price codec of [MboMessage::parse] and [main] *)

(** Floating-point values are positive magnitudes [m * 2 ^ e], kept as the
    pair [(m, e)], with the sign carried beside them.  Every operation is the
    exact result rounded to the nearest value with a mantissa of [p] bits,
    ties to even, as IEEE 754 prescribes; [p] is 53 for [double], and for
    [long double] it is left to the platform (64 on x86-64 Linux, 53 with
    MSVC, 113 on AArch64 Linux).  The exponent range is not modelled: prices
    stay far from both of its ends. *)
Module Float.
(** The integer nearest to [a / b], ties to even ([0 ≤ a], [0 < b]). *)
Definition div_nearest_even (a b : Z) : Z :=
  let q := a / b in
  let r := a mod b in
  if 2 * r <? b then q
  else if b <? 2 * r then q + 1
  else if Z.even q then q else q + 1.

(** [a / (b * 2 ^ e)] as a fraction *)
Definition scale2 (a b e : Z) : Z * Z :=
  if 0 <=? e then (a, b * 2 ^ e) else (a * 2 ^ (- e), b).

(** [a / b] rounded to [p] bits of mantissa *)
Definition round (p : Z) (a b : Z) : Z * Z :=
  if a =? 0 then (0, 0)
  else
    let e0 := Z.log2 a - Z.log2 b - p in
    let '(a0, b0) := scale2 a b e0 in
    let e := if a0 <? b0 * 2 ^ p then e0 else e0 + 1 in
    let '(a1, b1) := scale2 a b e in
    (div_nearest_even a1 b1, e).

(** [m * 2 ^ e] as a fraction *)
Definition frac (x : Z * Z) : Z * Z :=
  let '(m, e) := x in if 0 <=? e then (m * 2 ^ e, 1) else (m, 2 ^ (- e)).

(** [x * c] and [x / c] for an integer [c] that the type represents *)
Definition mul (p : Z) (x : Z * Z) (c : Z) : Z * Z :=
  let '(a, b) := frac x in round p (a * c) b.

Definition div (p : Z) (x : Z * Z) (c : Z) : Z * Z :=
  let '(a, b) := frac x in round p a (b * c).

(** conversion to an integer type: the fraction is discarded *)
Definition trunc (x : Z * Z) : Z := let '(a, b) := frac x in a / b.
End Float.

(** [static constexpr double PRICE_SCALE = 1e9] *)
Definition PRICE_SCALE : Z := 10 ^ 9.

(** The decimal texts [std::stold] is modelled on: an optional sign, digits,
    and an optional point followed by digits, at least one digit in all.  A
    text [(neg, n, d)] denotes [n / 10 ^ d], negated when [neg].  Exponents,
    hexadecimal texts, infinities and trailing characters are outside the
    model ([None]). *)
Definition digit_of (c : ascii) : option Z :=
  let n := Z.of_N (N_of_ascii c) in
  if (48 <=? n) && (n <=? 57) then Some (n - 48) else None.

Fixpoint read_fraction (s : string) (acc d : Z) : option (Z * Z) :=
  match s with
  | EmptyString => Some (acc, d)
  | String c s' =>
      match digit_of c with
      | Some v => read_fraction s' (10 * acc + v) (d + 1)
      | None => None
      end
  end.

Fixpoint read_number (s : string) (acc : Z) (seen : bool) : option (Z * Z) :=
  match s with
  | EmptyString => if seen then Some (acc, 0) else None
  | String c s' =>
      if Ascii.eqb c "."%char then
        match read_fraction s' acc 0 with
        | Some (acc', d) => if seen || (0 <? d) then Some (acc', d) else None
        | None => None
        end
      else
        match digit_of c with
        | Some v => read_number s' (10 * acc + v) true
        | None => None
        end
  end.

Definition read_decimal (s : string) : option (bool * (Z * Z)) :=
  match s with
  | String c s' =>
      if Ascii.eqb c "-"%char then
        match read_number s' 0 false with Some x => Some (true, x) | None => None end
      else if Ascii.eqb c "+"%char then
        match read_number s' 0 false with Some x => Some (false, x) | None => None end
      else
        match read_number s 0 false with Some x => Some (false, x) | None => None end
  | EmptyString => None
  end.

(** The price of [MboMessage::parse]:
    [field.empty() ? PRICE_UNDEF
                   : static_cast<int64_t>(std::stold(field) * PRICE_SCALE)],
    with [prec] the mantissa width of [long double].  A product outside
    [int64_t] has no defined conversion ([None]). *)
Definition parse_price (prec : Z) (field : string) : option Z :=
  match field with
  | EmptyString => Some PRICE_UNDEF
  | _ =>
      match read_decimal field with
      | Some (neg, (n, d)) =>
          let x := Float.round prec n (10 ^ d) in
          let t := Float.trunc (Float.mul prec x PRICE_SCALE) in
          if t <? 2 ^ 63 + (if neg then 1 else 0)
          then Some (if neg then - t else t) else None
      | None => None
      end
  end.

(** [price / PRICE_SCALE]: the [int64_t] is converted to [double] and
    divided; the result is the sign and the magnitude. *)
Definition price_double (p : Z) : bool * (Z * Z) :=
  (p <? 0, Float.div 53 (Float.round 53 (Z.abs p) 1) PRICE_SCALE).

(** The number of millionths [std::to_string(double)] prints: ["%f"] rounds
    the exact value to six digits after the point (to nearest, ties to even,
    as glibc does). *)
Definition micros (x : Z * Z) : Z :=
  let '(a, b) := Float.frac x in Float.div_nearest_even (a * 10 ^ 6) b.

Definition digit (v : Z) : ascii := ascii_of_N (Z.to_N (48 + v)).

Definition six_digits (n : Z) : string :=
  String (digit (n / 100000 mod 10))
    (String (digit (n / 10000 mod 10))
       (String (digit (n / 1000 mod 10))
          (String (digit (n / 100 mod 10))
             (String (digit (n / 10 mod 10))
                (String (digit (n mod 10)) EmptyString))))).

(** [std::to_string(double)] *)
Definition to_string (x : bool * (Z * Z)) : string :=
  let n := micros x.2 in
  ((if x.1 then "-" else "")
   ++ NilZero.string_of_uint (N.to_uint (Z.to_N (n / 10 ^ 6)))
   ++ "." ++ six_digits (n mod 10 ^ 6))%string.

(** The price field that [main] writes, for the event and for every row:
    [price == PRICE_UNDEF ? "" : std::to_string(price / PRICE_SCALE)] *)
Definition price_field (p : Z) : string :=
  if p =? PRICE_UNDEF then EmptyString else to_string (price_double p).

(** ** Definitions for the statements *)

(** Number of occurrences of a pointer in the vector of a level. *)
Definition occ (p : ptr) (vec : list ptr) : nat :=
  length (filter (λ q, q = p) vec).

(** The references of the level at price [pr] of a ladder; a level that is
    not in the ladder has none. *)
Definition refs (b : OrderBook) (bid : bool) (pr : Z) : list ptr :=
  lvl b bid !!! pr.

(** The consistency the ladders and the registry are meant to keep:
    - every registered order is referenced by the level at its stored price
      in the ladder of its stored side, exactly once;
    - no other level references it;
    - every reference of a ladder points to a registered order. *)
Record consistent (b : OrderBook) : Prop := {
  cons_level : ∀ k g msg, orders_ b !! k = Some (g, msg) →
    ∃ vec, lvl b (is_bid (MboMessage.side msg)) !! MboMessage.price msg = Some vec
           ∧ occ (NodePtr k g) vec = 1%nat;
  cons_only : ∀ k g msg bid pr vec, orders_ b !! k = Some (g, msg) →
    lvl b bid !! pr = Some vec → NodePtr k g ∈ vec →
    bid = is_bid (MboMessage.side msg) ∧ pr = MboMessage.price msg;
  cons_registered : ∀ bid pr vec q, lvl b bid !! pr = Some vec → q ∈ vec →
    ∃ k g msg, q = NodePtr k g ∧ orders_ b !! k = Some (g, msg)
}.

(** The same, counted: the form the transitions are checked against. *)
Record book_inv (b : OrderBook) : Prop := {
  inv_occ : ∀ k g msg bid pr, orders_ b !! k = Some (g, msg) →
    occ (NodePtr k g) (refs b bid pr) =
      if decide (bid = is_bid (MboMessage.side msg) ∧ pr = MboMessage.price msg)
      then 1%nat else 0%nat;
  inv_registered : ∀ bid pr q, q ∈ refs b bid pr →
    ∃ k g msg, q = NodePtr k g ∧ orders_ b !! k = Some (g, msg)
}.

(** [cancel] on a registered order stays within defined behaviour when it
    leaves the order some size, or leaves its level another reference. *)
Definition cancel_defined (b : OrderBook) (m : MboMessage.t) : bool :=
  match orders_ b !! MboMessage.order_id m with
  | None => true
  | Some (g, msg) =>
      negb (reduced msg m =? 0)
      || match remove_ptr (NodePtr (MboMessage.order_id m) g)
                 (lvl b (is_bid (MboMessage.side m)) !!! MboMessage.price msg) with
         | [] => false
         | _ :: _ => true
         end
  end.

(** The events after which the consistency above is kept: an Add, or a
    Modify of an unknown id, brings a new id and not the top-of-book flag; a
    Cancel or Modify of a registered order names the ladder of the stored
    side; a Cancel has defined behaviour. *)
Definition regular (b : OrderBook) (m : MboMessage.t) : bool :=
  match MboMessage.action m, orders_ b !! MboMessage.order_id m with
  | Action.A, None => negb (tob (MboMessage.flags m))
  | Action.A, Some _ => false
  | Action.M, None => negb (tob (MboMessage.flags m))
  | Action.M, Some (_, msg) =>
      bool_decide (is_bid (MboMessage.side m) = is_bid (MboMessage.side msg))
  | Action.C, None => true
  | Action.C, Some (_, msg) =>
      bool_decide (is_bid (MboMessage.side m) = is_bid (MboMessage.side msg))
      && cancel_defined b m
  | _, _ => true
  end.

(** The states reached from the empty book through regular events. *)
Inductive regular_reachable : OrderBook → Prop :=
  | rr_empty : regular_reachable empty_book
  | rr_step b e m b' :
      regular_reachable b → regular b m = true → apply b e m = Some b' →
      regular_reachable b'.

(** The states reached from the empty book through any events. *)
Inductive reachable : OrderBook → Prop :=
  | reach_empty : reachable empty_book
  | reach_step b e m b' :
      reachable b → apply b e m = Some b' → reachable b'.

(** Every pointer held by a ladder can be read: it points to a node of the
    registry or to an event that is alive. *)
Definition ptrs_live (sc : scope) (b : OrderBook) : Prop :=
  ∀ bid pr vec p, lvl b bid !! pr = Some vec → p ∈ vec → is_Some (deref sc b p).

(** A level and the row a snapshot reports for it. *)
Definition row_of (sc : scope) (b : OrderBook) (it : Z * list ptr)
    (row : PriceLevel.t) : Prop :=
  ∃ sz ct, aggregate sc b it.2 0 0 = Some (sz, ct) ∧ row = PriceLevel.mk it.1 sz ct.

(** The rows a snapshot of depth [depth] is meant to return: [depth] rows
    for the bids then [depth] rows for the asks; on each side the rows of the
    first [depth] levels, bids by descending and asks by ascending price,
    then padding rows. *)
Definition snapshot_shape (sc : scope) (b : OrderBook) (depth : nat)
    (out : list PriceLevel.t) : Prop :=
  ∃ bs os,
    out = (bs ++ replicate (depth - length bs) padding)
          ++ (os ++ replicate (depth - length os) padding)
    ∧ length (bs ++ replicate (depth - length bs) padding) = depth
    ∧ length (os ++ replicate (depth - length os) padding) = depth
    ∧ Forall2 (row_of sc b) (take depth (reverse (levels (bids_ b)))) bs
    ∧ Forall2 (row_of sc b) (take depth (levels (offers_ b))) os
    ∧ StronglySorted (flip key_lt) (reverse (levels (bids_ b)))
    ∧ StronglySorted key_lt (levels (offers_ b))
    ∧ (∀ pr vec, (pr, vec) ∈ levels (bids_ b) ↔ bids_ b !! pr = Some vec)
    ∧ (∀ pr vec, (pr, vec) ∈ levels (offers_ b) ↔ offers_ b !! pr = Some vec)
    ∧ padding = PriceLevel.mk PRICE_UNDEF 0 0.

(** An event with the given action, side, price, size, order id and flags;
    the other fields do not influence the book. *)
Definition event (a : Action.t) (s : Side.t) (pr sz id fl : Z) : MboMessage.t :=
  MboMessage.mk "1" "1" 160 2 1108 a s 0 pr sz fl 0 0 "ARL" id.

(** [F_TOB]: bit 6 of the flags. *)
Definition F_TOB : Z := 64.

(** ** Definitions for the later states of a flagged order *)

(** The events of [events] applied in turn, the first as event [e]. *)
Fixpoint apply_all (b : OrderBook) (e : nat) (events : list MboMessage.t)
  : option OrderBook :=
  match events with
  | [] => Some b
  | m :: rest =>
      match apply b e m with
      | Some b' => apply_all b' (S e) rest
      | None => None
      end
  end.

(** The events that can store an event in the node of the order [id]: an Add
    ([emplace]) and a Modify ([msg = m], or [add]) that carry this id. *)
Definition writes_node (id : Z) (m : MboMessage.t) : bool :=
  match MboMessage.action m with
  | Action.A | Action.M => bool_decide (MboMessage.order_id m = id)
  | _ => false
  end.

(** The order [id], in the node stamped [g], is either gone or stored with
    the flag. *)
Definition gone_or_flagged (id : Z) (g : nat) (b : OrderBook) : Prop :=
  orders_ b !! id = None
  ∨ ∃ o, orders_ b !! id = Some (g, o) ∧ tob (MboMessage.flags o) = true.

(** ** Definitions for further properties of the engine *)

(** No ladder holds a level without references. *)
Definition no_empty_level (b : OrderBook) : Prop :=
  ∀ bid pr vec, lvl b bid !! pr = Some vec → vec ≠ [].

(** Every node of the registry is stored under the id of its order. *)
Definition keyed_by_id (b : OrderBook) : Prop :=
  ∀ k g msg, orders_ b !! k = Some (g, msg) → MboMessage.order_id msg = k.

(** What one reference adds to the size and to the count of its level. *)
Definition contribution (o : MboMessage.t) : Z * Z :=
  if tob (MboMessage.flags o) then (0, 0) else (MboMessage.size o, 1).

(** The sums of the contributions of the references of a vector, without
    wrap-around. *)
Fixpoint totals (sc : scope) (b : OrderBook) (vec : list ptr) : option (Z * Z) :=
  match vec with
  | [] => Some (0, 0)
  | p :: vec' =>
      match deref sc b p, totals sc b vec' with
      | Some o, Some (s, c) => Some ((contribution o).1 + s, (contribution o).2 + c)
      | _, _ => None
      end
  end.

(** [uint32_t] arithmetic on the pair of sums *)
Definition wrap32 (t : Z * Z) : Z * Z := (t.1 mod 2 ^ 32, t.2 mod 2 ^ 32).

(** The orders that do not carry the top-of-book flag *)
Definition unflagged (msgs : list MboMessage.t) : list MboMessage.t :=
  filter (λ o, tob (MboMessage.flags o) = false) msgs.

(** The sum of the sizes of a list of orders *)
Definition sum_sizes (msgs : list MboMessage.t) : Z :=
  foldr (λ o s, MboMessage.size o + s) 0 msgs.

(** The events a run of [main] stays regular on. *)
Fixpoint regular_run (b : OrderBook) (e : nat) (events : list MboMessage.t) : bool :=
  match events with
  | [] => true
  | m :: rest =>
      regular b m
      && match apply b e m with
         | Some b' => regular_run b' (S e) rest
         | None => false
         end
  end.

(** Two bids resting at one price, in order of arrival. *)
Definition two_bids : OrderBook :=
  add (add empty_book 0 (event Action.A Side.B 100 10 1 0)) 1
    (event Action.A Side.B 100 5 2 0).

(** ** The line decoder [MboMessage::parse] *)

(** The stream operations follow the C++ standard for the classic locale and
    the default format flags ([skipws], [dec]). *)

(** A [std::stringstream] while it is read: the characters not yet extracted
    and [eofbit].  [failbit] is not kept: every extraction whose result
    [parse] tests makes it return when it sets the bit, and [ignore] sets it
    only on a stream whose [eofbit] is set, where the extraction that follows
    fails too. *)
Module istream.
Record t := mk { rest : string; eofbit : bool }.
End istream.

(** What an extraction, or [parse], comes to: a value; a failure ([failbit],
    for [parse] the result [std::nullopt]); or a behaviour that is not
    modelled. *)
Inductive outcome (A : Type) : Type :=
  | Ok (a : A)
  | Failed
  | Outside.
Arguments Ok {A} a.
Arguments Failed {A}.
Arguments Outside {A}.

Global Instance outcome_bind : MBind outcome := λ A B f x,
  match x with
  | Ok a => f a
  | Failed => Failed
  | Outside => Outside
  end.

(** [std::isspace] in the classic locale: what [operator>>] skips first. *)
Definition isspace (c : ascii) : bool :=
  let n := Z.of_N (N_of_ascii c) in (n =? 32) || ((9 <=? n) && (n <=? 13)).

Fixpoint skipws (s : string) : string :=
  match s with
  | String c s' => if isspace c then skipws s' else s
  | EmptyString => EmptyString
  end.

(** The characters before the first comma, and those after it when there is
    one. *)
Fixpoint until_comma (s : string) : string * option string :=
  match s with
  | EmptyString => (EmptyString, None)
  | String c s' =>
      if Ascii.eqb c ","%char then (EmptyString, Some s')
      else let '(f, r) := until_comma s' in (String c f, r)
  end.

(** [std::getline(ss, str, ',')]: the delimiter is extracted and dropped;
    reaching the end sets [eofbit]; extracting nothing at all fails. *)
Definition getline (ss : istream.t) : outcome (string * istream.t) :=
  if istream.eofbit ss then Failed
  else
    match istream.rest ss with
    | EmptyString => Failed
    | s =>
        match until_comma s with
        | (f, Some r) => Ok (f, istream.mk r false)
        | (f, None) => Ok (f, istream.mk EmptyString true)
        end
    end.

(** [ss >> x] for [uint8_t x], an [unsigned char]: one character is
    extracted after the white space, and [x] is its code. *)
Definition get_char (ss : istream.t) : outcome (Z * istream.t) :=
  if istream.eofbit ss then Failed
  else
    match skipws (istream.rest ss) with
    | EmptyString => Failed
    | String c r => Ok (Z.of_N (N_of_ascii c), istream.mk r false)
    end.

(** The digits at the front of [s], read in base ten onto [acc], and what
    follows them. *)
Fixpoint get_digits (s : string) (acc : Z) : Z * string :=
  match s with
  | String c s' =>
      match digit_of c with
      | Some v => get_digits s' (10 * acc + v)
      | None => (acc, s)
      end
  | EmptyString => (acc, EmptyString)
  end.

(** [ss >> x] for an integer [x] of a type with the values [lo .. hi]: white
    space, an optional sign and decimal digits; no digit, or a value the type
    does not hold, fails; reading up to the end sets [eofbit].  A minus sign
    before the digits of an unsigned type is not modelled. *)
Definition get_number (signed : bool) (lo hi : Z) (ss : istream.t)
  : outcome (Z * istream.t) :=
  if istream.eofbit ss then Failed
  else
    match skipws (istream.rest ss) with
    | EmptyString => Failed
    | String c r as s =>
        let '(neg, body) :=
          if Ascii.eqb c "-"%char then (true, r)
          else if Ascii.eqb c "+"%char then (false, r)
          else (false, s) in
        match body with
        | EmptyString => Failed
        | String d _ =>
            match digit_of d with
            | None => Failed
            | Some _ =>
                if neg && negb signed then Outside
                else
                  let '(v, r') := get_digits body 0 in
                  let v := if neg then - v else v in
                  if (lo <=? v) && (v <=? hi)
                  then Ok (v, istream.mk r'
                                (match r' with EmptyString => true | _ => false end))
                  else Failed
            end
        end
    end.

(** [ss.ignore(1, ',')]: one character is extracted, whichever it is. *)
Definition ignore (ss : istream.t) : istream.t :=
  if istream.eofbit ss then ss
  else
    match istream.rest ss with
    | EmptyString => istream.mk EmptyString true
    | String _ r => istream.mk r false
    end.

(** [static_cast<Action>(field[0])] and [static_cast<Side>(field[0])].  The
    casts take any character; one that names no enumerator has no value in
    [Action.t] or [Side.t]. *)
Definition action_of (c : ascii) : option Action.t :=
  if Ascii.eqb c "A"%char then Some Action.A
  else if Ascii.eqb c "M"%char then Some Action.M
  else if Ascii.eqb c "C"%char then Some Action.C
  else if Ascii.eqb c "R"%char then Some Action.R
  else if Ascii.eqb c "T"%char then Some Action.T
  else if Ascii.eqb c "F"%char then Some Action.F
  else if Ascii.eqb c "N"%char then Some Action.N
  else None.

Definition side_of (c : ascii) : option Side.t :=
  if Ascii.eqb c "B"%char then Some Side.B
  else if Ascii.eqb c "A"%char then Some Side.A
  else if Ascii.eqb c "N"%char then Some Side.N
  else None.

(** A field that [parse] wants to be one character long *)
Definition one_char (field : string) : outcome ascii :=
  match field with
  | String c EmptyString => Ok c
  | _ => Failed
  end.

(** The price field.  [std::stold] throws on a text it cannot convert, and
    the conversion to [int64_t] is not defined out of range; both are outside
    the model, as are texts so long that the exponent range could matter. *)
Definition price_of (prec : Z) (field : string) : outcome Z :=
  if (300 <? String.length field)%nat then Outside
  else match parse_price prec field with
       | Some p => Ok p
       | None => Outside
       end.

(** [MboMessage::parse]; [prec] is the mantissa width of [long double].  The
    order id is extracted twice into [m.order_id]: the value of the second
    extraction is the one returned.  A message whose action or side names no
    enumerator is outside the model; the tests that follow the casts are
    made first, as a line they reject is rejected in any case. *)
Definition parse (prec : Z) (line : string) : outcome MboMessage.t :=
  let ss := istream.mk line false in
  '(ts_recv, ss) ← getline ss;
  '(ts_event, ss) ← getline ss;
  '(rtype, ss) ← get_char ss;
  let ss := ignore ss in
  '(publisher_id, ss) ← get_number false 0 (2 ^ 16 - 1) ss;
  let ss := ignore ss in
  '(instrument_id, ss) ← get_number false 0 (2 ^ 32 - 1) ss;
  let ss := ignore ss in
  '(field, ss) ← getline ss;
  action ← one_char field;
  '(field, ss) ← getline ss;
  side ← one_char field;
  '(depth, ss) ← get_number true (- 2 ^ 31) (2 ^ 31 - 1) ss;
  let ss := ignore ss in
  '(field, ss) ← getline ss;
  price ← price_of prec field;
  '(size, ss) ← get_number false 0 (2 ^ 32 - 1) ss;
  let ss := ignore ss in
  '(_, ss) ← get_number false 0 (2 ^ 64 - 1) ss;
  let ss := ignore ss in
  '(flags, ss) ← get_char ss;
  let ss := ignore ss in
  '(ts_in_delta, ss) ← get_number true (- 2 ^ 31) (2 ^ 31 - 1) ss;
  let ss := ignore ss in
  '(sequence, ss) ← get_number false 0 (2 ^ 32 - 1) ss;
  let ss := ignore ss in
  '(symbol, ss) ← getline ss;
  '(order_id, ss) ← get_number false 0 (2 ^ 64 - 1) ss;
  match action_of action, side_of side with
  | Some a, Some s =>
      Ok (MboMessage.mk ts_recv ts_event rtype publisher_id instrument_id a s
            depth price size flags ts_in_delta sequence symbol order_id)
  | _, _ => Outside
  end.


(** ** The record that [main] writes *)

(** [operator<<] for the unsigned and the signed integer fields *)
Definition dec (n : Z) : string := NilZero.string_of_uint (N.to_uint (Z.to_N n)).

Definition sdec (n : Z) : string :=
  ((if (n <? 0)%Z then "-" else "") ++ dec (Z.abs n))%string.

(** [static_cast<char>(m.action)] and [static_cast<char>(m.side)] *)
Definition char_of_action (a : Action.t) : ascii :=
  match a with
  | Action.A => "A" | Action.M => "M" | Action.C => "C" | Action.R => "R"
  | Action.T => "T" | Action.F => "F" | Action.N => "N"
  end%char.

Definition char_of_side (s : Side.t) : ascii :=
  match s with Side.B => "B" | Side.A => "A" | Side.N => "N" end%char.

(** What the loop over [snap] writes for one row *)
Definition row_text (p : PriceLevel.t) : string :=
  ("," ++ price_field (PriceLevel.price p) ++ "," ++ dec (PriceLevel.size p)
   ++ "," ++ dec (PriceLevel.count p))%string.

Definition rows_text (snap : list PriceLevel.t) : string :=
  foldr (λ p s, (row_text p ++ s)%string) EmptyString snap.

(** The line written for the event [m] and the snapshot [snap] *)
Definition record (m : MboMessage.t) (snap : list PriceLevel.t) : string :=
  (MboMessage.ts_recv m ++ "," ++ MboMessage.ts_event m ++ ",10,"
   ++ dec (MboMessage.publisher_id m) ++ ","
   ++ dec (MboMessage.instrument_id m) ++ ","
   ++ String (char_of_action (MboMessage.action m)) ","
   ++ String (char_of_side (MboMessage.side m)) ","
   ++ sdec (MboMessage.depth m) ++ ","
   ++ price_field (MboMessage.price m) ++ ","
   ++ dec (MboMessage.size m) ++ ","
   ++ dec (MboMessage.flags m) ++ ","
   ++ sdec (MboMessage.ts_in_delta m) ++ ","
   ++ dec (MboMessage.sequence m)
   ++ rows_text snap
   ++ "," ++ MboMessage.symbol m ++ "," ++ dec (MboMessage.order_id m)
   ++ String "010" EmptyString)%string.

(** ** Definitions for the statements on lines and records *)

(** The number of commas of a text; a text of [n] commas has [n + 1] fields. *)
Fixpoint commas (s : string) : nat :=
  match s with
  | EmptyString => 0
  | String c s' => (if Ascii.eqb c ","%char then 1 else 0) + commas s'
  end.

(** Decimal digits only *)
Fixpoint all_digits (s : string) : bool :=
  match s with
  | EmptyString => true
  | String c s' =>
      match digit_of c with Some _ => all_digits s' | None => false end
  end.

(** A decimal numeral: one digit or more. *)
Definition numeral (s : string) : bool :=
  match s with EmptyString => false | _ => all_digits s end.

(** The number a numeral denotes *)
Definition value (s : string) : Z := (get_digits s 0).1.

(** The code of a character, the value of the [unsigned char] *)
Definition code (c : ascii) : Z := Z.of_N (N_of_ascii c).

(** A number written with or without a minus sign *)
Definition signed (neg : bool) (v : Z) : Z := if neg then - v else v.

Definition sign (neg : bool) : string := if neg then "-"%string else EmptyString.

(** A text that does not go on with a digit: what may follow the last
    number of a line. *)
Definition ends_number (tail : string) : bool :=
  match tail with
  | EmptyString => true
  | String c _ => match digit_of c with Some _ => false | None => true end
  end.

(** ** The program *)

(** The loop of [main] over the lines of the input file: a line that [parse]
    rejects is skipped; for any other line the event is applied, the snapshot
    of depth 10 is taken while the event is alive, and one record is written.
    The result lists the records; nothing is defined after a step that is
    not. *)
Fixpoint run (prec : Z) (ob : option OrderBook) (e : nat) (lines : list string)
  : list (option string) :=
  match lines with
  | [] => []
  | line :: rest =>
      match parse prec line with
      | Failed => run prec ob e rest
      | Outside => None :: run prec None e rest
      | Ok m =>
          match ob ≫= λ b, apply b e m with
          | Some b' =>
              match snapshot (in_iteration e m) b' 10 with
              | Some snap => Some (record m snap) :: run prec (Some b') (S e) rest
              | None => None :: run prec None (S e) rest
              end
          | None => None :: run prec None (S e) rest
          end
      end
  end.

(** Closes a goal made of [decide] on pointers, sides and prices. *)
Ltac decide_cases :=
  repeat case_decide; try done; try lia; exfalso; intuition congruence.

(** ** Basic facts about the state accessors *)

Section accessors.
Implicit Types (b : OrderBook) (l : gmap Z (list ptr)) (bid : bool).

Lemma lvl_set_lvl b bid bid' l :
  lvl (set_lvl b bid l) bid' = if decide (bid' = bid) then l else lvl b bid'.
Proof. by destruct bid, bid'. Qed.

Lemma lvl_set_lvl_eq b bid l : lvl (set_lvl b bid l) bid = l.
Proof. by destruct bid. Qed.

Lemma lvl_set_lvl_ne b bid l : lvl (set_lvl b bid l) (negb bid) = lvl b (negb bid).
Proof. by destruct bid. Qed.

Lemma orders_set_lvl b bid l : orders_ (set_lvl b bid l) = orders_ b.
Proof. by destruct bid. Qed.

Lemma lvl_set_orders b o bid : lvl (set_orders b o) bid = lvl b bid.
Proof. by destruct bid. Qed.

Lemma orders_set_orders b o : orders_ (set_orders b o) = o.
Proof. done. Qed.
End accessors.

Section occurrences.
Implicit Types (p q : ptr) (vec : list ptr).

Lemma occ_app p vec1 vec2 : occ p (vec1 ++ vec2) = (occ p vec1 + occ p vec2)%nat.
Proof. unfold occ. by rewrite filter_app, length_app. Qed.

Lemma occ_singleton p q : occ p [q] = if decide (q = p) then 1%nat else 0%nat.
Proof. unfold occ. rewrite filter_cons, filter_nil. by case_decide. Qed.

Lemma occ_push p q vec :
  occ p (vec ++ [q]) = (occ p vec + if decide (q = p) then 1 else 0)%nat.
Proof. by rewrite occ_app, occ_singleton. Qed.

Lemma occ_remove p q vec :
  occ p (remove_ptr q vec) = if decide (p = q) then 0%nat else occ p vec.
Proof.
  unfold occ, remove_ptr. induction vec as [|x vec IH].
  { by destruct (decide (p = q)). }
  rewrite !filter_cons.
  destruct (decide (x ≠ q)) as [Hxq|Hxq], (decide (x = p)) as [Hxp|Hxp];
    rewrite ?filter_cons; simpl.
  - rewrite decide_True by done. simpl. rewrite IH.
    destruct (decide (p = q)); [congruence | done].
  - rewrite decide_False by done. done.
  - rewrite IH. apply dec_stable in Hxq.
    destruct (decide (p = q)); [done | congruence].
  - done.
Qed.

Lemma occ_zero p vec : occ p vec = 0%nat ↔ p ∉ vec.
Proof.
  unfold occ. induction vec as [|x vec IH]; [rewrite elem_of_nil; tauto|].
  rewrite filter_cons, not_elem_of_cons.
  destruct (decide (x = p)) as [->|Hne]; simpl.
  - split; [lia | tauto].
  - rewrite IH. split; [by split | tauto].
Qed.

Lemma occ_pos p vec : occ p vec ≠ 0%nat ↔ p ∈ vec.
Proof.
  rewrite occ_zero. split; [|tauto].
  intros H. by destruct (decide (p ∈ vec)).
Qed.
End occurrences.

(** ** The registry and the ladders refer to each other *)

Section invariant.
Implicit Types (b : OrderBook) (l : gmap Z (list ptr)) (bid : bool).

Lemma refs_lookup b bid pr vec : lvl b bid !! pr = Some vec → refs b bid pr = vec.
Proof. intros H. unfold refs. by rewrite lookup_total_alt, H. Qed.

Lemma refs_elem b bid pr q :
  q ∈ refs b bid pr → ∃ vec, lvl b bid !! pr = Some vec ∧ q ∈ vec.
Proof.
  unfold refs. rewrite lookup_total_alt.
  destruct (lvl b bid !! pr) as [vec|]; simpl; [eauto|].
  by intros ?%elem_of_nil.
Qed.

Lemma book_inv_consistent b : book_inv b → consistent b.
Proof.
  intros [Hocc Hreg]. split.
  - intros k g msg Hk.
    pose proof (Hocc k g msg (is_bid (MboMessage.side msg))
                  (MboMessage.price msg) Hk) as H.
    rewrite decide_True in H by done.
    assert (NodePtr k g ∈ refs b (is_bid (MboMessage.side msg))
              (MboMessage.price msg)) as Hin.
    { apply occ_pos. lia. }
    destruct (refs_elem _ _ _ _ Hin) as (vec & Hvec & _).
    exists vec. split; [done|]. by rewrite <-(refs_lookup _ _ _ _ Hvec).
  - intros k g msg bid pr vec Hk Hvec Hin.
    pose proof (Hocc k g msg bid pr Hk) as H.
    rewrite (refs_lookup _ _ _ _ Hvec) in H.
    apply occ_pos in Hin. case_decide; [done | lia].
  - intros bid pr vec q Hvec Hin. apply (Hreg bid pr).
    by rewrite (refs_lookup _ _ _ _ Hvec).
Qed.

Lemma book_inv_empty : book_inv empty_book.
Proof.
  split.
  - intros k g msg bid pr H. simpl in H. by rewrite lookup_empty in H.
  - intros bid pr q. unfold refs. destruct bid; simpl;
      rewrite lookup_total_empty; by intros ?%elem_of_nil.
Qed.

(** A transition that only touches the order [id] whose node is stamped
    [g]: the other orders and the occurrences of the other pointers stay,
    and the pointer to [id] ends where the stored order says. *)
Lemma book_inv_step b b' id g :
  book_inv b →
  (∀ g0 msg0, orders_ b !! id = Some (g0, msg0) → g0 = g) →
  (∀ k, k ≠ id → orders_ b' !! k = orders_ b !! k) →
  (∀ bid pr q, q ≠ NodePtr id g →
     occ q (refs b' bid pr) = occ q (refs b bid pr)) →
  match orders_ b' !! id with
  | None => ∀ bid pr, occ (NodePtr id g) (refs b' bid pr) = 0%nat
  | Some (g', msg') =>
      g' = g ∧
      ∀ bid pr, occ (NodePtr id g) (refs b' bid pr) =
        if decide (bid = is_bid (MboMessage.side msg')
                   ∧ pr = MboMessage.price msg')
        then 1%nat else 0%nat
  end →
  book_inv b'.
Proof.
  intros [Hocc Hreg] Hg Hoth Hq Hid. split.
  - intros k g1 msg1 bid pr Hk. destruct (decide (k = id)) as [->|Hne].
    + rewrite Hk in Hid. destruct Hid as [-> Hid]. apply Hid.
    + rewrite Hoth in Hk by done. rewrite Hq; [by apply Hocc|].
      intros [= -> _]. done.
  - intros bid pr q Hin. destruct (decide (q = NodePtr id g)) as [->|Hne].
    + apply occ_pos in Hin.
      destruct (orders_ b' !! id) as [[g' msg']|] eqn:E.
      * destruct Hid as [-> _]. by exists id, g, msg'.
      * by rewrite Hid in Hin.
    + apply occ_pos in Hin. rewrite Hq in Hin by done. apply occ_pos in Hin.
      destruct (Hreg _ _ _ Hin) as (k & g1 & msg1 & -> & Hk).
      destruct (decide (k = id)) as [->|Hkid].
      * apply Hg in Hk as Heq. by subst.
      * exists k, g1, msg1. by rewrite Hoth.
Qed.
End invariant.

(** ** Events that keep the registry and the ladders consistent *)

Section preservation.
Implicit Types (b : OrderBook) (l : gmap Z (list ptr)) (bid : bool)
  (m msg : MboMessage.t).

Lemma refs_set_lvl b bid bid' l pr :
  refs (set_lvl b bid l) bid' pr =
    if decide (bid' = bid) then l !!! pr else refs b bid' pr.
Proof. unfold refs. rewrite lvl_set_lvl. by case_decide. Qed.

Lemma refs_set_orders b o bid pr : refs (set_orders b o) bid pr = refs b bid pr.
Proof. unfold refs. by rewrite lvl_set_orders. Qed.

Lemma lvl_mkBook b o a bid : lvl (mkBook o (bids_ b) (offers_ b) a) bid = lvl b bid.
Proof. by destruct bid. Qed.

Lemma book_inv_clear b : book_inv (clear b).
Proof.
  split.
  - intros k g msg bid pr H. simpl in H. by rewrite lookup_empty in H.
  - intros bid pr q. unfold refs. destruct bid; simpl;
      rewrite lookup_total_empty; by intros ?%elem_of_nil.
Qed.

(** A pointer to an unregistered id occurs nowhere. *)
Lemma unregistered_occ b id g bid pr :
  book_inv b → orders_ b !! id = None → occ (NodePtr id g) (refs b bid pr) = 0%nat.
Proof.
  intros [_ Hreg] Hnone. apply occ_zero. intros Hin.
  destruct (Hreg _ _ _ Hin) as (k & g1 & msg1 & [= <- <-] & Hk). congruence.
Qed.

Lemma book_inv_add b e m :
  book_inv b → tob (MboMessage.flags m) = false →
  orders_ b !! MboMessage.order_id m = None →
  book_inv (add b e m).
Proof.
  intros Hinv Htob Hnone. unfold add. rewrite Htob, Hnone.
  apply (book_inv_step b _ (MboMessage.order_id m) (allocs b)); [done|..].
  - intros g0 msg0 H. congruence.
  - intros k Hne. rewrite orders_set_lvl. simpl. by rewrite lookup_insert_ne.
  - intros bid pr q Hq. rewrite refs_set_lvl, lvl_mkBook.
    case_decide; [subst|done]. rewrite lookup_total_insert.
    case_decide; [subst|done]. rewrite occ_push, decide_False by done.
    unfold refs. lia.
  - rewrite orders_set_lvl. simpl. rewrite lookup_insert_eq.
    split; [done|]. intros bid pr. rewrite refs_set_lvl, lvl_mkBook.
    pose proof (λ bid pr, unregistered_occ b (MboMessage.order_id m)
                            (allocs b) bid pr Hinv Hnone) as Hz.
    unfold refs in Hz.
    destruct (decide (bid = is_bid (MboMessage.side m))) as [->|Hb].
    + rewrite lookup_total_insert.
      destruct (decide (MboMessage.price m = pr)) as [<-|Hp].
      * by rewrite occ_push, decide_True, decide_True, Hz.
      * rewrite Hz, decide_False; [done|]. by intros [_ ?].
    + rewrite decide_False; [by apply Hz|]. by intros [? _].
Qed.

Lemma book_inv_cancel b m g msg :
  book_inv b →
  orders_ b !! MboMessage.order_id m = Some (g, msg) →
  is_bid (MboMessage.side m) = is_bid (MboMessage.side msg) →
  cancel_defined b m = true →
  ∃ b', cancel b m = Some b' ∧ book_inv b'.
Proof.
  intros Hinv Hk Hside Hdef. unfold cancel_defined in Hdef. unfold cancel.
  rewrite Hk in *. rewrite Hside in *.
  set (id := MboMessage.order_id m) in *.
  set (bid := is_bid (MboMessage.side msg)) in *.
  set (pr0 := MboMessage.price msg) in *.
  pose proof (λ bid' pr, inv_occ b Hinv id g msg bid' pr Hk) as Hp.
  fold bid pr0 in Hp. unfold refs in Hp.
  destruct (reduced msg m =? 0) eqn:Hsz; simpl in Hdef; [rename Hsz into Hz|].
  2:{
    eexists. split; [done|].
    apply (book_inv_step b _ id g); [done|..].
    + intros g0 msg0 H. congruence.
    + intros k Hne. rewrite orders_set_lvl, orders_set_orders.
      by rewrite lookup_insert_ne.
    + intros bid' pr q Hq. rewrite refs_set_lvl, refs_set_orders.
      case_decide; [subst|done]. rewrite lookup_total_insert.
      case_decide; [subst|done].
      by rewrite occ_push, occ_remove, !decide_False by done.
    + rewrite orders_set_lvl, orders_set_orders, lookup_insert_eq.
      split; [done|]. intros bid' pr. simpl.
      rewrite refs_set_lvl, refs_set_orders. fold bid pr0.
      destruct (decide (bid' = bid)) as [->|Hb]; [|by apply Hp].
      rewrite lookup_total_insert.
      destruct (decide (pr0 = pr)) as [<-|Hpr]; [|by apply Hp].
      by rewrite occ_push, occ_remove, !decide_True by done. }
  - destruct (remove_ptr (NodePtr id g) (lvl b bid !!! pr0)) as [|x vec] eqn:Hvec;
      [done|].
    eexists. split; [done|]. rewrite <-Hvec.
    apply (book_inv_step b _ id g); [done|..].
    + intros g0 msg0 H. congruence.
    + intros k Hne. rewrite orders_set_lvl, orders_set_orders.
      by rewrite lookup_delete_ne.
    + intros bid' pr q Hq. rewrite refs_set_lvl, refs_set_orders.
      case_decide; [subst|done]. rewrite lookup_total_insert.
      case_decide; [subst|done].
      by rewrite occ_remove, decide_False by done.
    + rewrite orders_set_lvl, orders_set_orders, lookup_delete_eq.
      intros bid' pr.
      rewrite refs_set_lvl, refs_set_orders.
      destruct (decide (bid' = bid)) as [->|Hb].
      * rewrite lookup_total_insert.
        destruct (decide (pr0 = pr)) as [<-|Hpr].
        -- by rewrite occ_remove, decide_True.
        -- unfold refs. rewrite Hp, decide_False; [done|]. by intros [_ ?].
      * unfold refs. rewrite Hp, decide_False; [done|]. by intros [? _].
Qed.
(** Removing a pointer from a level and dropping the level when it is empty:
    [vec.erase(remove(..)); if (vec.empty()) lvl.erase(pr0)]. *)
Lemma erase_if_empty_total l pr0 pr (vec : list ptr) :
  match vec with
  | [] => delete pr0 l
  | _ :: _ => <[pr0 := vec]> l
  end !!! pr = if decide (pr0 = pr) then vec else l !!! pr.
Proof.
  destruct vec as [|x vec].
  - case_decide; [subst; by rewrite lookup_total_delete_eq
                 | by rewrite lookup_total_delete_ne].
  - by rewrite lookup_total_insert.
Qed.

Lemma book_inv_modify b e m g msg :
  book_inv b →
  orders_ b !! MboMessage.order_id m = Some (g, msg) →
  is_bid (MboMessage.side m) = is_bid (MboMessage.side msg) →
  book_inv (modify b e m).
Proof.
  intros Hinv Hk Hside. unfold modify. rewrite Hk.
  set (id := MboMessage.order_id m) in *.
  set (bid := is_bid (MboMessage.side msg)) in *.
  set (pr0 := MboMessage.price msg) in *.
  pose proof (λ bid' pr, inv_occ b Hinv id g msg bid' pr Hk) as Hp.
  fold bid pr0 in Hp. unfold refs in Hp.
  apply (book_inv_step b _ id g); [done|..].
  - intros g0 msg0 H. congruence.
  - intros k Hne.
    repeat case_match; rewrite ?orders_set_lvl, orders_set_orders;
      by rewrite lookup_insert_ne.
  - intros bid' pr q Hq.
    destruct (negb (pr0 =? MboMessage.price m)) eqn:Hprice;
      [|destruct (MboMessage.size msg <? MboMessage.size m)].
    + rewrite refs_set_lvl, refs_set_orders.
      case_decide; [subst|done]. rewrite !lookup_total_insert.
      rewrite !erase_if_empty_total.
      apply negb_true_iff, Z.eqb_neq in Hprice.
      rewrite (decide_False (P := pr0 = MboMessage.price m)) by done.
      destruct (decide (MboMessage.price m = pr)) as [<-|Hne1].
      * by rewrite occ_push, decide_False by done.
      * destruct (decide (pr0 = pr)) as [<-|Hne2]; [|done].
        by rewrite occ_remove, decide_False.
    + rewrite refs_set_lvl, refs_set_orders.
      case_decide; [subst|done]. rewrite lookup_total_insert.
      case_decide; [subst|done].
      by rewrite occ_push, occ_remove, !decide_False by done.
    + by rewrite refs_set_orders.
  - assert (orders_ (modify b e m) !! id = Some (g, m)) as Hm.
    { unfold modify. fold id. rewrite Hk.
      repeat case_match; rewrite ?orders_set_lvl, orders_set_orders;
        by rewrite lookup_insert_eq. }
    unfold modify in Hm. fold id in Hm. rewrite Hk in Hm. fold bid pr0 in Hm.
    rewrite Hm. split; [done|]. intros bid' pr. rewrite Hside. fold bid.
    destruct (negb (pr0 =? MboMessage.price m)) eqn:Hprice;
      [|destruct (MboMessage.size msg <? MboMessage.size m)].
    + rewrite refs_set_lvl, refs_set_orders.
      apply negb_true_iff, Z.eqb_neq in Hprice.
      destruct (decide (bid' = bid)) as [->|Hb].
      2:{ unfold refs. rewrite Hp, !decide_False; [done|..]; by intros [? _]. }
      rewrite !lookup_total_insert, !erase_if_empty_total.
      rewrite (decide_False (P := pr0 = MboMessage.price m)) by done.
      destruct (decide (MboMessage.price m = pr)) as [<-|Hne1].
      * rewrite occ_push, Hp. decide_cases.
      * destruct (decide (pr0 = pr)) as [<-|Hne2].
        -- rewrite occ_remove. decide_cases.
        -- rewrite Hp. decide_cases.
    + rewrite refs_set_lvl, refs_set_orders.
      apply negb_false_iff, Z.eqb_eq in Hprice. rewrite <-Hprice.
      destruct (decide (bid' = bid)) as [->|Hb].
      2:{ unfold refs. rewrite Hp, !decide_False; [done|..]; by intros [? _]. }
      rewrite lookup_total_insert.
      destruct (decide (pr0 = pr)) as [<-|Hne1].
      * by rewrite occ_push, occ_remove, !decide_True.
      * rewrite Hp. decide_cases.
    + rewrite refs_set_orders.
      apply negb_false_iff, Z.eqb_eq in Hprice. rewrite <-Hprice.
      apply Hp.
Qed.
End preservation.

Section regular_events.
Implicit Types (b : OrderBook) (m : MboMessage.t).

(** A regular event has a next state, and the next state is consistent. *)
Lemma regular_step b e m :
  book_inv b → regular b m = true → ∃ b', apply b e m = Some b' ∧ book_inv b'.
Proof.
  intros Hinv Hreg. unfold regular in Hreg. unfold apply.
  destruct (MboMessage.action m) eqn:Hact; try (by eexists).
  - destruct (orders_ b !! MboMessage.order_id m) as [[g msg]|] eqn:Hk; [done|].
    apply negb_true_iff in Hreg. eexists. split; [done|].
    by apply book_inv_add.
  - eexists. split; [done|].
    destruct (orders_ b !! MboMessage.order_id m) as [[g msg]|] eqn:Hk.
    + apply bool_decide_eq_true in Hreg. by eapply book_inv_modify.
    + apply negb_true_iff in Hreg. unfold modify. rewrite Hk.
      by apply book_inv_add.
  - destruct (orders_ b !! MboMessage.order_id m) as [[g msg]|] eqn:Hk.
    + apply andb_true_iff in Hreg as [Hside Hdef].
      apply bool_decide_eq_true in Hside. by eapply book_inv_cancel.
    + exists b. split; [|done]. unfold cancel. by rewrite Hk.
  - eexists. split; [done|]. apply book_inv_clear.
Qed.

Lemma regular_reachable_inv b : regular_reachable b → book_inv b.
Proof.
  induction 1 as [|b e m b' _ IH Hreg Happ]; [apply book_inv_empty|].
  destruct (regular_step b e m IH Hreg) as (b'' & Happ' & Hinv).
  congruence.
Qed.
End regular_events.

(** ** C3: consistency of the registry and the ladders *)

(** C3, as amended.  From the empty book, as long as every event applied is
    regular (an Add or a Modify of an unknown id brings a new id and no
    top-of-book flag, a Cancel or Modify of a registered order names the
    ladder of the stored side, and no Cancel reads an erased order), the
    next event has a next state, and in it every registered order is
    referenced exactly once, by the level at its stored price in the ladder of
    its stored side and by no other level, and every reference of a ladder
    points to a registered order. *)
Theorem consistent_after_regular_apply (b : OrderBook) (e : nat) (m : MboMessage.t) :
  regular_reachable b → regular b m = true →
  ∃ b', apply b e m = Some b' ∧ consistent b'.
Proof.
  intros Hb Hreg.
  destruct (regular_step b e m (regular_reachable_inv b Hb) Hreg)
    as (b' & Happ & Hinv).
  exists b'. split; [done|]. by apply book_inv_consistent.
Qed.

Lemma consistent_after_regular_apply_witness :
  ∃ b', apply (add empty_book 0 (event Action.A Side.B 100 10 1 0)) 1
          (event Action.C Side.B PRICE_UNDEF 3 1 0) = Some b'
        ∧ consistent b'.
Proof.
  apply consistent_after_regular_apply.
  - apply (rr_step empty_book 0 (event Action.A Side.B 100 10 1 0));
      [apply rr_empty | reflexivity | reflexivity].
  - vm_compute. reflexivity.
Defined.

(** C3, as stated, fails: a top-of-book Add clears the ladder of its side and
    keeps the registry, so the order registered before it is referenced by no
    level, and the level installed references no registered order. *)
Lemma consistent_fails_after_tob_add :
  ¬ (∀ b e m b', reachable b → apply b e m = Some b' → consistent b').
Proof.
  intros H.
  pose (b1 := add empty_book 0 (event Action.A Side.B 100 10 1 0)).
  pose (b2 := add b1 1 (event Action.A Side.B 101 5 2 F_TOB)).
  assert (reachable b1) as H1.
  { by apply (reach_step empty_book 0 (event Action.A Side.B 100 10 1 0));
      [apply reach_empty|]. }
  specialize (H b1 1%nat (event Action.A Side.B 101 5 2 F_TOB) b2 H1 eq_refl).
  destruct (cons_level b2 H 1 0%nat (event Action.A Side.B 100 10 1 0))
    as (vec & Hvec & _); [by vm_compute|].
  vm_compute in Hvec. discriminate.
Qed.

(** ** The level installed by a top-of-book Add *)

Section tob_level.
Implicit Types (b : OrderBook) (m : MboMessage.t) (sc : scope).

Lemma levels_singleton pr (vec : list ptr) : levels {[ pr := vec ]} = [(pr, vec)].
Proof. unfold levels. by rewrite map_to_list_singleton. Qed.

Lemma add_tob b e m :
  tob (MboMessage.flags m) = true →
  add b e m =
    set_lvl b (is_bid (MboMessage.side m)) {[ MboMessage.price m := [EventPtr e] ]}.
Proof. intros H. unfold add. by rewrite H. Qed.

(** The row of a level whose only reference is an event pointer. *)
Lemma fill_event_level sc b pr e rev depth :
  (0 < depth)%nat →
  fill sc b {[ pr := [EventPtr e] ]} rev depth =
    match sc e with
    | Some o =>
        Some ((if tob (MboMessage.flags o) then PriceLevel.mk pr 0 0
               else PriceLevel.mk pr (MboMessage.size o mod 2 ^ 32) 1)
              :: replicate (depth - 1) padding)
    | None => None
    end.
Proof.
  intros Hd. destruct depth as [|d]; [lia|].
  unfold fill. rewrite levels_singleton.
  replace (if rev then reverse [(pr, [EventPtr e])] else [(pr, [EventPtr e])])
    with [(pr, [EventPtr e])] by by destruct rev.
  simpl. rewrite take_nil. unfold level_row. simpl.
  destruct (sc e) as [o|]; [|done].
  rewrite Nat.sub_0_r. by destruct (tob (MboMessage.flags o)).
Qed.
End tob_level.

(** ** C6: top-of-book Add *)

(** C6.  An Add with the top-of-book flag keeps the registry as it is,
    replaces the ladder of its side by the single level at the event's
    price, and leaves the other ladder alone.  In the snapshot taken in the
    same iteration (the event still alive) the rows of its side are the row
    (event price, 0, 0) followed by padding, whatever the event's size; the
    rows of the other side are what that ladder gives. *)
Theorem add_tob_replaces_side (b : OrderBook) (e : nat) (m : MboMessage.t)
    (depth : nat) :
  MboMessage.action m = Action.A →
  tob (MboMessage.flags m) = true →
  (0 < depth)%nat →
  let bid := is_bid (MboMessage.side m) in
  let sc := in_iteration e m in
  let mine := PriceLevel.mk (MboMessage.price m) 0 0 :: replicate (depth - 1) padding in
  ∃ b', apply b e m = Some b'
    ∧ orders_ b' = orders_ b
    ∧ lvl b' bid = {[ MboMessage.price m := [EventPtr e] ]}
    ∧ lvl b' (negb bid) = lvl b (negb bid)
    ∧ (∀ rev, fill sc b' (lvl b' bid) rev depth = Some mine)
    ∧ snapshot sc b' depth =
        match fill sc b' (lvl b' (negb bid)) (negb bid) depth with
        | Some other => Some (if bid then mine ++ other else other ++ mine)
        | None => None
        end.
Proof.
  intros Hact Htob Hd bid sc mine. unfold apply. rewrite Hact.
  eexists. split; [done|].
  assert (∀ rev, fill sc (add b e m) (lvl (add b e m) bid) rev depth = Some mine)
    as Hfill.
  { intros rev. rewrite add_tob by done.
    rewrite lvl_set_lvl_eq, fill_event_level by done.
    unfold sc, in_iteration. rewrite decide_True by done. by rewrite Htob. }
  split; [by rewrite add_tob, orders_set_lvl|].
  split; [by rewrite add_tob, lvl_set_lvl_eq|].
  split; [by rewrite add_tob, lvl_set_lvl_ne|].
  split; [done|].
  unfold snapshot. change (bids_ (add b e m)) with (lvl (add b e m) true).
  change (offers_ (add b e m)) with (lvl (add b e m) false).
  clearbody bid. destruct bid.
  - by rewrite (Hfill true).
  - rewrite (Hfill false). change (negb false) with true.
    by destruct (fill sc (add b e m) (lvl (add b e m) true) true depth).
Qed.

Lemma add_tob_replaces_side_witness :
  ∃ b', apply (add empty_book 0 (event Action.A Side.B 100 10 1 0)) 1
          (event Action.A Side.A 101 5 2 F_TOB) = Some b'
    ∧ orders_ b' = orders_ (add empty_book 0 (event Action.A Side.B 100 10 1 0))
    ∧ offers_ b' = {[ 101 := [EventPtr 1] ]}
    ∧ bids_ b' = bids_ (add empty_book 0 (event Action.A Side.B 100 10 1 0))
    ∧ snapshot (in_iteration 1 (event Action.A Side.A 101 5 2 F_TOB)) b' 2 =
        Some [PriceLevel.mk 100 10 1; padding; PriceLevel.mk 101 0 0; padding].
Proof.
  destruct (add_tob_replaces_side
              (add empty_book 0 (event Action.A Side.B 100 10 1 0)) 1
              (event Action.A Side.A 101 5 2 F_TOB) 2 eq_refl eq_refl)
    as (b' & Happ & Ho & Hl & Hl' & _ & Hsnap); [lia|].
  exists b'. split; [done|]. split; [done|]. split; [done|]. split; [done|].
  rewrite Hsnap. injection Happ as <-. reflexivity.
Defined.

(** ** C1: what the installed level points to *)

(** C1 fails on the code.  The level installed by a top-of-book Add holds
    the address of the caller's event ([EventPtr 0]), not a copy: the
    registry stays empty, the snapshot of the same iteration reads the event
    while it is alive, and after the next event (a Trade, which changes
    nothing) the snapshot reads the first event after its lifetime has
    ended; so the loop of [main] on these two lines is defined for the first
    and not for the second. *)
Theorem tob_level_borrows_event :
  let m0 := event Action.A Side.B 101 5 2 F_TOB in
  let m1 := event Action.T Side.N 101 1 0 0 in
  let b1 := add empty_book 0 m0 in
  apply empty_book 0 m0 = Some b1
  ∧ bids_ b1 = {[ 101 := [EventPtr 0] ]}
  ∧ orders_ b1 = ∅
  ∧ snapshot (in_iteration 0 m0) b1 2 =
      Some [PriceLevel.mk 101 0 0; padding; padding; padding]
  ∧ apply b1 1 m1 = Some b1
  ∧ snapshot (in_iteration 1 m1) b1 2 = None
  ∧ main (Some empty_book) 0 [m0; m1] =
      [Some (PriceLevel.mk 101 0 0 :: replicate 19 padding); None].
Proof. repeat split. Qed.

(** The same for every book and every top-of-book Add: once the event is
    gone from the scope, filling rows from the ladder of its side is
    undefined. *)
Lemma tob_level_dangles (b : OrderBook) (e : nat) (m : MboMessage.t) (sc : scope)
    (rev : bool) (depth : nat) :
  tob (MboMessage.flags m) = true → sc e = None → (0 < depth)%nat →
  fill sc (add b e m) (lvl (add b e m) (is_bid (MboMessage.side m))) rev depth = None.
Proof.
  intros Htob Hsc Hd. rewrite add_tob by done.
  rewrite lvl_set_lvl_eq, fill_event_level by done. by rewrite Hsc.
Qed.

(** ** C2: Add of an order id that is already registered *)

(** What [add] does then, for every book: [emplace] leaves the registry as it
    is, and the node already there gets one more reference, in the level at
    the new event's price on the new event's side. *)
Lemma add_existing (b : OrderBook) (e : nat) (m : MboMessage.t) g msg :
  tob (MboMessage.flags m) = false →
  orders_ b !! MboMessage.order_id m = Some (g, msg) →
  add b e m =
    set_lvl b (is_bid (MboMessage.side m))
      (<[MboMessage.price m :=
           (lvl b (is_bid (MboMessage.side m)) !!! MboMessage.price m)
           ++ [NodePtr (MboMessage.order_id m) g]]>
         (lvl b (is_bid (MboMessage.side m)))).
Proof. intros Htob Hk. unfold add. by rewrite Htob, Hk. Qed.

(** C2 fails on the code.  After Add(id 1, bid, 100, size 10), the event
    Add(id 1, bid, 101, size 5) leaves the stored order as the first event
    wrote it, and the order is then referenced by two levels, 100 and 101;
    the snapshot counts its old size at both prices. *)
Theorem add_existing_id_keeps_first :
  let m1 := event Action.A Side.B 100 10 1 0 in
  let m2 := event Action.A Side.B 101 5 1 0 in
  let b1 := add empty_book 0 m1 in
  let b2 := add b1 1 m2 in
  apply b1 1 m2 = Some b2
  ∧ orders_ b2 !! 1 = Some (0%nat, m1)
  ∧ bids_ b2 !! 100 = Some [NodePtr 1 0]
  ∧ bids_ b2 !! 101 = Some [NodePtr 1 0]
  ∧ snapshot (in_iteration 1 m2) b2 2 =
      Some [PriceLevel.mk 101 10 1; PriceLevel.mk 100 10 1; padding; padding].
Proof. repeat split. Qed.

(** ** C4: Modify of an unknown order id *)

(** What [add] does with an unflagged event and a new id. *)
Lemma add_new (b : OrderBook) (e : nat) (m : MboMessage.t) :
  tob (MboMessage.flags m) = false →
  orders_ b !! MboMessage.order_id m = None →
  orders_ (add b e m) = <[MboMessage.order_id m := (allocs b, m)]> (orders_ b)
  ∧ lvl (add b e m) (is_bid (MboMessage.side m)) =
      <[MboMessage.price m :=
          (lvl b (is_bid (MboMessage.side m)) !!! MboMessage.price m)
          ++ [NodePtr (MboMessage.order_id m) (allocs b)]]>
        (lvl b (is_bid (MboMessage.side m)))
  ∧ lvl (add b e m) (negb (is_bid (MboMessage.side m))) =
      lvl b (negb (is_bid (MboMessage.side m))).
Proof.
  intros Htob Hk. unfold add. rewrite Htob, Hk.
  by rewrite orders_set_lvl, lvl_set_lvl_eq, lvl_set_lvl_ne, !lvl_mkBook.
Qed.

(** C4, as amended.  A Modify of an unknown order id runs the Add
    transition on that same event, flags included: without the top-of-book
    flag it registers the event under a new node and appends the reference to
    the level at its price; with the flag it replaces the ladder of its side
    by the level that points to the event and registers nothing. *)
Theorem modify_unknown_is_add (b : OrderBook) (e : nat) (m : MboMessage.t) :
  MboMessage.action m = Action.M →
  orders_ b !! MboMessage.order_id m = None →
  apply b e m = Some (add b e m)
  ∧ (tob (MboMessage.flags m) = false →
       orders_ (add b e m) = <[MboMessage.order_id m := (allocs b, m)]> (orders_ b)
       ∧ lvl (add b e m) (is_bid (MboMessage.side m)) =
           <[MboMessage.price m :=
               (lvl b (is_bid (MboMessage.side m)) !!! MboMessage.price m)
               ++ [NodePtr (MboMessage.order_id m) (allocs b)]]>
             (lvl b (is_bid (MboMessage.side m))))
  ∧ (tob (MboMessage.flags m) = true →
       orders_ (add b e m) = orders_ b
       ∧ lvl (add b e m) (is_bid (MboMessage.side m)) =
           {[ MboMessage.price m := [EventPtr e] ]}).
Proof.
  intros Hact Hk. split; [|split].
  - unfold apply, modify. by rewrite Hact, Hk.
  - intros Htob. destruct (add_new b e m Htob Hk) as (? & ? & _). done.
  - intros Htob. rewrite add_tob by done.
    by rewrite orders_set_lvl, lvl_set_lvl_eq.
Qed.

Lemma modify_unknown_is_add_witness :
  apply empty_book 0 (event Action.M Side.B 101 5 7 F_TOB) =
    Some (add empty_book 0 (event Action.M Side.B 101 5 7 F_TOB))
  ∧ orders_ (add empty_book 0 (event Action.M Side.B 101 5 7 F_TOB)) = ∅
  ∧ bids_ (add empty_book 0 (event Action.M Side.B 101 5 7 F_TOB)) =
      {[ 101 := [EventPtr 0] ]}.
Proof.
  destruct (modify_unknown_is_add empty_book 0
              (event Action.M Side.B 101 5 7 F_TOB) eq_refl eq_refl)
    as (Happ & _ & Htob).
  destruct (Htob eq_refl) as [Ho Hl]. done.
Defined.

(** C4, as stated, fails: the flag of the Modify event is honoured.  On the
    empty book a flagged Modify of id 7 registers nothing and installs the
    level that points to the event, where the unflagged Add with the same
    fields registers order 7; the snapshots differ. *)
Lemma modify_unknown_tob_differs_from_plain_add :
  let mM := event Action.M Side.B 101 5 7 F_TOB in
  let mA := event Action.A Side.B 101 5 7 0 in
  orders_ empty_book !! 7 = None
  ∧ apply empty_book 0 mM ≠ apply empty_book 0 mA
  ∧ (∃ bM, apply empty_book 0 mM = Some bM
        ∧ orders_ bM !! 7 = None
        ∧ bids_ bM !! 101 = Some [EventPtr 0]
        ∧ snapshot (in_iteration 0 mM) bM 1 = Some [PriceLevel.mk 101 0 0; padding])
  ∧ (∃ bA, apply empty_book 0 mA = Some bA
        ∧ orders_ bA !! 7 = Some (0%nat, mA)
        ∧ bids_ bA !! 101 = Some [NodePtr 7 0]
        ∧ snapshot (in_iteration 0 mA) bA 1 = Some [PriceLevel.mk 101 5 1; padding]).
Proof.
  intros mM mA. split; [done|]. split; [|split].
  - intros H.
    assert (Some (add empty_book 0 mM) = Some (add empty_book 0 mA)) as Ho
      by exact H.
    apply (f_equal (λ ob, ob ≫= λ b, orders_ b !! 7)) in Ho.
    vm_compute in Ho. discriminate.
  - eexists. repeat split.
  - eexists. repeat split.
Qed.

(** ** C5: Cancel *)

Lemma reduced_min msg m :
  reduced msg m =
    MboMessage.size msg - Z.min (MboMessage.size m) (MboMessage.size msg)
  ∧ 0 ≤ reduced msg m.
Proof.
  unfold reduced.
  destruct (Z.ltb_spec (MboMessage.size m) (MboMessage.size msg)); lia.
Qed.

Lemma cancel_unknown (b : OrderBook) (e : nat) (m : MboMessage.t) :
  MboMessage.action m = Action.C →
  orders_ b !! MboMessage.order_id m = None →
  apply b e m = Some b.
Proof. intros Hact Hk. unfold apply, cancel. by rewrite Hact, Hk. Qed.

(** Where the claim holds: in a consistent book, a Cancel that names the
    ladder of the stored side and has defined behaviour reduces the order by
    [min (requested, remaining)]; an order left with some size keeps its
    node and is moved to the end of its level, an order left with none is
    erased from the registry and from its level; the book stays consistent. *)
Lemma cancel_same_ladder (b : OrderBook) (e : nat) (m : MboMessage.t)
    (g : nat) (msg : MboMessage.t) :
  MboMessage.action m = Action.C →
  book_inv b →
  orders_ b !! MboMessage.order_id m = Some (g, msg) →
  is_bid (MboMessage.side m) = is_bid (MboMessage.side msg) →
  cancel_defined b m = true →
  let id := MboMessage.order_id m in
  let p := NodePtr id g in
  let bid := is_bid (MboMessage.side msg) in
  ∃ b', apply b e m = Some b' ∧ consistent b'
    ∧ orders_ b' !! id =
        (if reduced msg m =? 0 then None
         else Some (g, MboMessage.set_size msg (reduced msg m)))
    ∧ refs b' bid (MboMessage.price msg) =
        remove_ptr p (refs b bid (MboMessage.price msg))
        ++ (if reduced msg m =? 0 then [] else [p])
    ∧ reduced msg m =
        MboMessage.size msg - Z.min (MboMessage.size m) (MboMessage.size msg).
Proof.
  intros Hact Hinv Hk Hside Hdef id p bid.
  destruct (book_inv_cancel b m g msg Hinv Hk Hside Hdef) as (b' & Hc & Hinv').
  exists b'. unfold apply. rewrite Hact. split; [done|].
  split; [by apply book_inv_consistent|].
  split; [|split; [|apply reduced_min]].
  - unfold cancel in Hc. rewrite Hk in Hc. fold id in Hc.
    destruct (reduced msg m =? 0); [case_match; [done|]|]; injection Hc as <-;
      rewrite orders_set_lvl, orders_set_orders;
      [apply lookup_delete_eq | apply lookup_insert_eq].
  - unfold cancel in Hc. rewrite Hk, Hside in Hc. fold id p bid in Hc.
    unfold refs at 1.
    destruct (reduced msg m =? 0); [case_match eqn:Hvec; [done|]|];
      injection Hc as <-; rewrite lvl_set_lvl_eq, lookup_total_insert_eq.
    + unfold refs. by rewrite app_nil_r.
    + done.
Qed.

(** C5 fails on the code.  [cancel] takes the ladder from the side of the
    Cancel event, where [modify] takes it from the stored order.  After
    Add(id 1, bid, 100, size 10), the event Cancel(id 1, ask, size 3) reduces
    the order to 7, leaves its reference in the bid level 100 and appends a
    second one to a new ask level 100: the order is not re-appended to the
    same level, and it is counted on both sides. *)
Theorem cancel_other_side_duplicates_reference :
  let m1 := event Action.A Side.B 100 10 1 0 in
  let m2 := event Action.C Side.A PRICE_UNDEF 3 1 0 in
  let b1 := add empty_book 0 m1 in
  ∃ b2, apply b1 1 m2 = Some b2
    ∧ orders_ b2 !! 1 = Some (0%nat, MboMessage.set_size m1 7)
    ∧ bids_ b2 !! 100 = Some [NodePtr 1 0]
    ∧ offers_ b2 !! 100 = Some [NodePtr 1 0]
    ∧ snapshot (in_iteration 1 m2) b2 1 =
        Some [PriceLevel.mk 100 7 1; PriceLevel.mk 100 7 1].
Proof. eexists. repeat split. Qed.

(** In the branch that erases the order the price of the erased order is
    read again when its level has become empty: cancelling the only order
    of a level down to zero has no defined behaviour. *)
Lemma cancel_last_order_reads_erased_node :
  let m1 := event Action.A Side.B 100 10 1 0 in
  let m2 := event Action.C Side.B PRICE_UNDEF 10 1 0 in
  apply (add empty_book 0 m1) 1 m2 = None.
Proof. reflexivity. Qed.

(** ** C9: Cancel whose side names the other ladder *)

(** C9, as amended.  [cancel] takes the ladder from the Cancel event:
    [m.side == Side::B ? bids_ : offers_].  When that is not the ladder of
    the stored side (exactly one of the two sides is Bid), the ladder of the
    stored side is left as it is, reference included, and:
    - if the reduced size is not zero, the order keeps its node with the
      reduced size and a reference to it is appended to the level at its
      stored price in the ladder of the event;
    - if the reduced size is zero and the ladder of the event has another
      reference at that price, the order is erased from the registry;
    - if the reduced size is zero and it has none, the order is erased and
      its price is read afterwards, which has no defined behaviour. *)
Theorem cancel_other_ladder (b : OrderBook) (e : nat) (m : MboMessage.t)
    (g : nat) (msg : MboMessage.t) :
  MboMessage.action m = Action.C →
  orders_ b !! MboMessage.order_id m = Some (g, msg) →
  is_bid (MboMessage.side m) ≠ is_bid (MboMessage.side msg) →
  let id := MboMessage.order_id m in
  let p := NodePtr id g in
  let l := lvl b (is_bid (MboMessage.side m)) in
  let vec := remove_ptr p (l !!! MboMessage.price msg) in
  (reduced msg m ≠ 0 →
     ∃ b', apply b e m = Some b'
       ∧ orders_ b' = <[id := (g, MboMessage.set_size msg (reduced msg m))]> (orders_ b)
       ∧ lvl b' (is_bid (MboMessage.side m)) = <[MboMessage.price msg := vec ++ [p]]> l
       ∧ lvl b' (is_bid (MboMessage.side msg)) = lvl b (is_bid (MboMessage.side msg)))
  ∧ (reduced msg m = 0 → vec ≠ [] →
     ∃ b', apply b e m = Some b'
       ∧ orders_ b' = delete id (orders_ b)
       ∧ lvl b' (is_bid (MboMessage.side m)) = <[MboMessage.price msg := vec]> l
       ∧ lvl b' (is_bid (MboMessage.side msg)) = lvl b (is_bid (MboMessage.side msg)))
  ∧ (reduced msg m = 0 → vec = [] → apply b e m = None).
Proof.
  intros Hact Hk Hside id p l vec.
  assert (is_bid (MboMessage.side msg) = negb (is_bid (MboMessage.side m))) as Hneg.
  { by destruct (is_bid (MboMessage.side msg)), (is_bid (MboMessage.side m)). }
  unfold apply, cancel. rewrite Hact, Hk.
  fold (reduced msg m) id p l vec. rewrite Hneg.
  split; [|split].
  - intros Hnz. apply Z.eqb_neq in Hnz. rewrite Hnz. eexists. split; [done|].
    by rewrite orders_set_lvl, lvl_set_lvl_eq, lvl_set_lvl_ne, lvl_set_orders.
  - intros Hz Hvec. rewrite Hz. simpl. destruct vec as [|x vec'] eqn:Evec; [done|].
    eexists. split; [done|].
    by rewrite orders_set_lvl, lvl_set_lvl_eq, lvl_set_lvl_ne, lvl_set_orders.
  - intros Hz Hvec. by rewrite Hz, Hvec.
Qed.

Lemma cancel_other_ladder_witness :
  ∃ b', apply (add empty_book 0 (event Action.A Side.B 100 10 1 0)) 1
          (event Action.C Side.A PRICE_UNDEF 3 1 0) = Some b'
    ∧ orders_ b' =
        <[1 := (0%nat, MboMessage.set_size (event Action.A Side.B 100 10 1 0) 7)]>
          (orders_ (add empty_book 0 (event Action.A Side.B 100 10 1 0)))
    ∧ lvl b' false = <[100 := [NodePtr 1 0]]> ∅
    ∧ lvl b' true = lvl (add empty_book 0 (event Action.A Side.B 100 10 1 0)) true.
Proof.
  destruct (cancel_other_ladder
              (add empty_book 0 (event Action.A Side.B 100 10 1 0)) 1
              (event Action.C Side.A PRICE_UNDEF 3 1 0) 0
              (event Action.A Side.B 100 10 1 0) eq_refl eq_refl)
    as (Hnz & _ & _); [by vm_compute|].
  apply Hnz. by vm_compute.
Defined.

(** C9, as stated, fails when the two sides differ and still name the same
    ladder: Ask and None both select [offers_].  With two ask orders at
    price 100, a Cancel of order 1 with side None removes its reference from
    its level: cancelled to zero the level keeps only order 2, cancelled in
    part the reference moves to the end of the level; the bid ladder gets
    nothing in either case. *)
Lemma cancel_side_none_of_ask_order :
  let m1 := event Action.A Side.A 100 10 1 0 in
  let m2 := event Action.A Side.A 100 5 2 0 in
  let b2 := add (add empty_book 0 m1) 1 m2 in
  MboMessage.side (event Action.C Side.N PRICE_UNDEF 10 1 0) ≠ MboMessage.side m1
  ∧ orders_ b2 !! 1 = Some (0%nat, m1)
  ∧ offers_ b2 !! 100 = Some [NodePtr 1 0; NodePtr 2 1]
  ∧ (∃ b3, apply b2 2 (event Action.C Side.N PRICE_UNDEF 10 1 0) = Some b3
        ∧ orders_ b3 !! 1 = None
        ∧ offers_ b3 !! 100 = Some [NodePtr 2 1]
        ∧ bids_ b3 = ∅)
  ∧ (∃ b3, apply b2 2 (event Action.C Side.N PRICE_UNDEF 3 1 0) = Some b3
        ∧ orders_ b3 !! 1 = Some (0%nat, MboMessage.set_size m1 7)
        ∧ offers_ b3 !! 100 = Some [NodePtr 2 1; NodePtr 1 0]
        ∧ bids_ b3 = ∅).
Proof.
  intros m1 m2 b2. split; [done|]. split; [done|]. split; [done|]. split.
  - eexists. repeat split.
  - eexists. repeat split.
Qed.

(** ** C10: Modify of a registered order with the top-of-book flag *)

Section flagged_order.
Implicit Types (b : OrderBook) (sc : scope) (p : ptr) (vec : list ptr).

(** A reference whose target carries the flag contributes nothing to the
    aggregate of a level. *)
Lemma aggregate_skip sc b p o vec sz ct :
  deref sc b p = Some o → tob (MboMessage.flags o) = true →
  aggregate sc b vec sz ct = aggregate sc b (remove_ptr p vec) sz ct.
Proof.
  intros Hp Ho. revert sz ct. unfold remove_ptr.
  induction vec as [|q vec IH]; intros sz ct; [done|].
  rewrite filter_cons. destruct (decide (q ≠ p)) as [Hne|Heq]; simpl.
  - destruct (deref sc b q) as [oq|]; [|done].
    destruct (tob (MboMessage.flags oq)); apply IH.
  - apply dec_stable in Heq. subst q. rewrite Hp, Ho. apply IH.
Qed.

Lemma level_row_skip sc b k g o pr vec :
  orders_ b !! k = Some (g, o) → tob (MboMessage.flags o) = true →
  level_row sc b (pr, vec) = level_row sc b (pr, remove_ptr (NodePtr k g) vec).
Proof.
  intros Hk Ho. unfold level_row. simpl.
  rewrite (aggregate_skip sc b (NodePtr k g) o); [done| |done].
  simpl. rewrite Hk. by rewrite decide_True.
Qed.
End flagged_order.

(** The stored flag of an order outlives every event that does not store
    an event in its node: an Add or a Modify of another id writes another
    node, a Cancel changes the size only or erases the order, a Clear erases
    it. *)
Lemma gone_or_flagged_add id g b e m :
  MboMessage.order_id m ≠ id →
  gone_or_flagged id g b → gone_or_flagged id g (add b e m).
Proof.
  intros Hne H. unfold gone_or_flagged, add in *.
  destruct (tob (MboMessage.flags m)); [by rewrite orders_set_lvl|].
  destruct (orders_ b !! MboMessage.order_id m) as [[g' msg']|];
    rewrite orders_set_lvl; [done|].
  simpl. by rewrite lookup_insert_ne.
Qed.

Lemma gone_or_flagged_step id g b e m b' :
  writes_node id m = false → apply b e m = Some b' →
  gone_or_flagged id g b → gone_or_flagged id g b'.
Proof.
  intros Hw Happ H. unfold writes_node, apply in *.
  destruct (MboMessage.action m);
    try (injection Happ as <-; done).
  - apply bool_decide_eq_false in Hw. injection Happ as <-.
    by apply gone_or_flagged_add.
  - apply bool_decide_eq_false in Hw. injection Happ as <-.
    unfold modify.
    destruct (orders_ b !! MboMessage.order_id m) as [[g' msg']|] eqn:Hk;
      [|by apply gone_or_flagged_add].
    assert (gone_or_flagged id g
              (set_orders b (<[MboMessage.order_id m := (g', m)]> (orders_ b))))
      as H1.
    { unfold gone_or_flagged. rewrite orders_set_orders.
      by rewrite lookup_insert_ne. }
    unfold gone_or_flagged in *.
    destruct (negb _); [|destruct (_ <? _)]; by rewrite ?orders_set_lvl.
  - unfold cancel in Happ.
    destruct (orders_ b !! MboMessage.order_id m) as [[g' msg']|] eqn:Hk;
      [|by injection Happ as <-].
    unfold gone_or_flagged in *.
    destruct (decide (MboMessage.order_id m = id)) as [Hid|Hid].
    + rewrite Hid in *. destruct (_ =? 0).
      * destruct (remove_ptr _ _); [done|]. injection Happ as <-. left.
        by rewrite orders_set_lvl, orders_set_orders, lookup_delete_eq.
      * injection Happ as <-. right.
        destruct H as [H|(o & Ho & Hf)]; [congruence|].
        rewrite Hk in Ho. injection Ho as -> ->.
        rewrite orders_set_lvl, orders_set_orders, lookup_insert_eq.
        eexists. split; [done|]. by destruct o.
    + destruct (_ =? 0).
      * destruct (remove_ptr _ _); [done|]. injection Happ as <-.
        by rewrite orders_set_lvl, orders_set_orders, lookup_delete_ne.
      * injection Happ as <-.
        by rewrite orders_set_lvl, orders_set_orders, lookup_insert_ne.
  - injection Happ as <-. left. simpl. apply lookup_empty.
Qed.

Lemma gone_or_flagged_run id g events :
  ∀ b e b', Forall (λ m, writes_node id m = false) events →
    apply_all b e events = Some b' →
    gone_or_flagged id g b → gone_or_flagged id g b'.
Proof.
  induction events as [|m rest IH]; intros b e b' Hall Hrun H; simpl in Hrun.
  - by injection Hrun as <-.
  - apply Forall_cons in Hall as [Hm Hall].
    destruct (apply b e m) as [b1|] eqn:Happ; [|done].
    eapply IH; [done..|]. by eapply gone_or_flagged_step.
Qed.

(** C10.  A Modify with the top-of-book flag of a registered order keeps
    the order in the registry, in the same node, now storing the event and
    so its flag; in the state the Modify leaves, the row of any level is
    computed as if the reference to the order were not there.  The same
    holds from then on: after any later events of which none is an Add or a
    Modify carrying the id of the order, the order is either gone from the
    registry or still stored with the flag, and then again left out of every
    row.  The level at the event's price, in the ladder of the side stored
    before, holds the reference, so that its price row is there, whenever
    the order was referenced by its level before, or the Modify changes the
    price or raises the size, which appends the reference anew. *)
Theorem modify_known_tob (b : OrderBook) (e : nat) (m : MboMessage.t)
    (g : nat) (msg : MboMessage.t) :
  MboMessage.action m = Action.M →
  tob (MboMessage.flags m) = true →
  orders_ b !! MboMessage.order_id m = Some (g, msg) →
  let id := MboMessage.order_id m in
  let p := NodePtr id g in
  let bid := is_bid (MboMessage.side msg) in
  ∃ b', apply b e m = Some b'
    ∧ orders_ b' !! id = Some (g, m)
    ∧ (∀ sc pr vec,
         level_row sc b' (pr, vec) = level_row sc b' (pr, remove_ptr p vec))
    ∧ (∀ events e2 b2,
         Forall (λ m2, writes_node id m2 = false) events →
         apply_all b' e2 events = Some b2 →
         orders_ b2 !! id = None
         ∨ ∃ o, orders_ b2 !! id = Some (g, o)
                ∧ tob (MboMessage.flags o) = true
                ∧ ∀ sc pr vec,
                    level_row sc b2 (pr, vec)
                    = level_row sc b2 (pr, remove_ptr p vec))
    ∧ (p ∈ lvl b bid !!! MboMessage.price msg
       ∨ MboMessage.price msg ≠ MboMessage.price m
       ∨ MboMessage.size msg < MboMessage.size m →
       ∃ vec, lvl b' bid !! MboMessage.price m = Some vec ∧ p ∈ vec).
Proof.
  intros Hact Htob Hk id p bid. unfold apply. rewrite Hact. eexists.
  split; [done|].
  assert (orders_ (modify b e m) !! id = Some (g, m)) as Hm.
  { unfold id, modify. rewrite Hk.
    destruct (negb _); [|destruct (_ <? _)];
      rewrite ?orders_set_lvl, orders_set_orders; by rewrite lookup_insert_eq. }
  split; [done|]. split; [|split].
  - intros sc pr vec. by apply level_row_skip with m.
  - intros events e2 b2 Hall Hrun.
    destruct (gone_or_flagged_run id g events (modify b e m) e2 b2 Hall Hrun)
      as [Hgone|(o & Ho & Hf)]; [right; by exists m|by left|].
    right. exists o. do 2 (split; [done|]).
    intros sc pr vec. by apply level_row_skip with o.
  - intros Hin. apply refs_elem. unfold refs, modify. rewrite Hk.
    fold id p bid.
    destruct (Z.eqb_spec (MboMessage.price msg) (MboMessage.price m)) as [Heq|Hne];
      simpl; [destruct (Z.ltb_spec (MboMessage.size msg) (MboMessage.size m))|].
    + rewrite lvl_set_lvl_eq, Heq, lookup_total_insert_eq.
      apply elem_of_app. right. by apply list_elem_of_singleton.
    + rewrite lvl_set_orders, <-Heq. destruct Hin as [?|[?|?]]; [done|done|lia].
    + rewrite lvl_set_lvl_eq, lookup_total_insert_eq.
      apply elem_of_app. right. by apply list_elem_of_singleton.
Qed.

Lemma modify_known_tob_witness :
  ∃ b', apply (add (add empty_book 0 (event Action.A Side.B 100 10 1 0)) 1
                 (event Action.A Side.B 100 5 2 0)) 2
          (event Action.M Side.B 100 10 1 F_TOB) = Some b'
    ∧ orders_ b' !! 1 = Some (0%nat, event Action.M Side.B 100 10 1 F_TOB)
    ∧ (∃ vec, lvl b' true !! 100 = Some vec ∧ NodePtr 1 0 ∈ vec)
    ∧ snapshot (in_iteration 2 (event Action.M Side.B 100 10 1 F_TOB)) b' 1 =
        Some [PriceLevel.mk 100 5 1; padding]
    ∧ ∃ b2, apply_all b' 3 [event Action.T Side.N 100 1 0 0;
                            event Action.C Side.B PRICE_UNDEF 1 2 0] = Some b2
        ∧ (∃ o, orders_ b2 !! 1 = Some (0%nat, o)
                ∧ tob (MboMessage.flags o) = true
                ∧ ∀ sc pr vec,
                    level_row sc b2 (pr, vec)
                    = level_row sc b2 (pr, remove_ptr (NodePtr 1 0) vec))
        ∧ snapshot (in_iteration 4 (event Action.C Side.B PRICE_UNDEF 1 2 0)) b2 1 =
            Some [PriceLevel.mk 100 4 1; padding].
Proof.
  destruct (modify_known_tob
              (add (add empty_book 0 (event Action.A Side.B 100 10 1 0)) 1
                 (event Action.A Side.B 100 5 2 0)) 2
              (event Action.M Side.B 100 10 1 F_TOB) 0
              (event Action.A Side.B 100 10 1 0) eq_refl eq_refl eq_refl)
    as (b' & Happ & Ho & _ & Hlater & Hrow).
  exists b'. split; [done|]. split; [done|]. split; [|split].
  - apply Hrow. left. vm_compute. left.
  - injection Happ as <-. reflexivity.
  - injection Happ as <-. eexists. split; [reflexivity|]. split; [|reflexivity].
    destruct (Hlater [event Action.T Side.N 100 1 0 0;
                      event Action.C Side.B PRICE_UNDEF 1 2 0] 3%nat _
                (ltac:(by repeat constructor)) eq_refl) as [Hgone|Hflag];
      [by vm_compute in Hgone|exact Hflag].
Defined.

(** C10, as stated, fails in two ways.  The exclusion does not last for
    every later snapshot: [modify] stores the whole event, so a later Modify
    of the order without the flag clears the bit and the order is counted
    again (the best bid rows written for five lines).  And the price row
    need not be there: after a top-of-book Add has emptied the ladder of the
    side, a flagged Modify of the order that keeps price and size stores the
    event and touches no ladder, so no level exists at the order's price. *)
Lemma modify_known_tob_counted_again :
  (λ o, o ≫= head) <$>
    main (Some empty_book) 0
      [event Action.A Side.B 100 10 1 0;
       event Action.A Side.B 100 5 2 0;
       event Action.M Side.B 100 10 1 F_TOB;
       event Action.T Side.N 100 1 0 0;
       event Action.M Side.B 100 4 1 0]
  = [Some (PriceLevel.mk 100 10 1);
     Some (PriceLevel.mk 100 15 2);
     Some (PriceLevel.mk 100 5 1);
     Some (PriceLevel.mk 100 5 1);
     Some (PriceLevel.mk 100 9 2)]
  ∧ ∃ b3, apply_all empty_book 0
            [event Action.A Side.B 100 10 1 0;
             event Action.A Side.B 101 5 9 F_TOB;
             event Action.M Side.B 100 10 1 F_TOB] = Some b3
      ∧ orders_ b3 !! 1 = Some (0%nat, event Action.M Side.B 100 10 1 F_TOB)
      ∧ bids_ b3 !! 100 = None
      ∧ offers_ b3 !! 100 = None.
Proof. split; [reflexivity|]. eexists. by repeat split. Qed.

(** ** C7: the rows of a snapshot *)

Section rows.
Implicit Types (b : OrderBook) (sc : scope) (l : gmap Z (list ptr))
  (vec : list ptr) (its : list (Z * list ptr)).

Lemma levels_perm l : levels l ≡ₚ map_to_list l.
Proof. apply merge_sort_Permutation. Qed.

Lemma levels_lookup l pr vec : (pr, vec) ∈ levels l ↔ l !! pr = Some vec.
Proof. by rewrite levels_perm, elem_of_map_to_list. Qed.

Lemma strict_of_NoDup its :
  StronglySorted key_le its → NoDup its.*1 → StronglySorted key_lt its.
Proof.
  induction its as [|x its IH]; [constructor|].
  rewrite StronglySorted_cons, fmap_cons, NoDup_cons. intros [Hx Hs] [Hnin Hnd].
  apply StronglySorted_cons. split; [|by apply IH].
  rewrite Forall_forall in Hx |- *. intros y Hy.
  specialize (Hx y Hy). unfold key_le in Hx. unfold key_lt.
  assert (x.1 ≠ y.1); [|lia].
  intros Heq. apply Hnin. rewrite Heq. by apply list_elem_of_fmap_2.
Qed.

(** [begin()] to [end()]: the levels of the ladder by ascending price. *)
Lemma levels_ascending l : StronglySorted key_lt (levels l).
Proof.
  apply strict_of_NoDup.
  - apply StronglySorted_merge_sort; apply _.
  - rewrite levels_perm. apply NoDup_fst_map_to_list.
Qed.

(** [rbegin()] to [rend()]: by descending price. *)
Lemma levels_descending l : StronglySorted (flip key_lt) (reverse (levels l)).
Proof.
  apply Sorted_StronglySorted.
  { intros x y z. unfold flip, key_lt. lia. }
  apply Sorted_reverse, StronglySorted_Sorted, levels_ascending.
Qed.

Lemma aggregate_total sc b vec sz ct :
  Forall (λ p, is_Some (deref sc b p)) vec → is_Some (aggregate sc b vec sz ct).
Proof.
  intros H. revert sz ct. induction H as [|p vec [o Ho] _ IH]; intros sz ct; [done|].
  simpl. rewrite Ho. destruct (tob (MboMessage.flags o)); apply IH.
Qed.

Lemma level_row_row_of sc b it row : level_row sc b it = Some row ↔ row_of sc b it row.
Proof.
  unfold level_row, row_of. destruct (aggregate sc b it.2 0 0) as [[sz ct]|].
  - split; [intros [= <-]; eauto | intros (? & ? & [= <- <-] & ->); done].
  - split; [done | intros (? & ? & ? & _); done].
Qed.

(** One side of the snapshot has defined behaviour when the pointers of
    the ladder can be read. *)
Lemma fill_defined sc b l rev depth :
  (∀ pr vec p, l !! pr = Some vec → p ∈ vec → is_Some (deref sc b p)) →
  is_Some (fill sc b l rev depth).
Proof.
  intros Hlive. unfold fill.
  set (its := take depth (if rev then reverse (levels l) else levels l)).
  assert (is_Some (mapM (level_row sc b) its)) as [rows Hrows]; [|by rewrite Hrows].
  apply mapM_is_Some, Forall_forall. intros [pr vec] Hit. simpl.
  assert ((pr, vec) ∈ levels l) as Hin.
  { apply elem_of_take in Hit as (i & Hit & _).
    apply list_elem_of_lookup_2 in Hit.
    clear -Hit. destruct rev; [|done]. by apply elem_of_reverse. }
  apply levels_lookup in Hin.
  destruct (aggregate_total sc b vec 0 0) as [[sz ct] Hagg].
  { apply Forall_forall. intros p Hp. by eapply Hlive. }
  unfold level_row. simpl. by rewrite Hagg.
Qed.

(** What one side of the snapshot returns: the rows of the first [depth]
    levels in the order of the iteration, then padding up to [depth] rows. *)
Lemma fill_rows sc b l rev depth out :
  fill sc b l rev depth = Some out →
  ∃ rows,
    out = rows ++ replicate (depth - length rows) padding
    ∧ Forall2 (row_of sc b)
        (take depth (if rev then reverse (levels l) else levels l)) rows
    ∧ length out = depth.
Proof.
  unfold fill.
  set (its := take depth (if rev then reverse (levels l) else levels l)).
  destruct (mapM (level_row sc b) its) as [rows|] eqn:Hrows; [|done].
  intros [= <-]. exists rows.
  pose proof (length_mapM _ _ _ Hrows) as Hlen.
  split; [by rewrite Hlen|]. split.
  - apply mapM_Some_1 in Hrows.
    eapply Forall2_impl; [done|]. intros it row. apply level_row_row_of.
  - rewrite length_app, length_replicate, <-Hlen. unfold its.
    rewrite length_take. lia.
Qed.
End rows.

(** In a consistent book every pointer of a ladder can be read, whatever
    the scope. *)
Lemma book_inv_live (sc : scope) (b : OrderBook) : book_inv b → ptrs_live sc b.
Proof.
  intros [_ Hreg] bid pr vec p Hvec Hp.
  destruct (Hreg bid pr p) as (k & g & msg & -> & Hk).
  { by rewrite (refs_lookup _ _ _ _ Hvec). }
  simpl. rewrite Hk. rewrite decide_True by done. by eexists.
Qed.

(** C7.  [snapshot] is a function of the book that returns rows only, so it
    changes nothing.  For every book and every depth: the call has defined
    behaviour when the pointers of the ladders can be read, and whenever it
    has, it returns the bid rows followed by the ask rows, [depth] rows each:
    the rows of the first [depth] bid levels by descending price, then
    padding, and the rows of the first [depth] ask levels by ascending price,
    then padding; a row carries the price of its level, and a padding row is
    ([PRICE_UNDEF], 0, 0). *)
Theorem snapshot_rows (sc : scope) (b : OrderBook) (depth : nat) :
  (ptrs_live sc b → is_Some (snapshot sc b depth))
  ∧ ∀ out, snapshot sc b depth = Some out → snapshot_shape sc b depth out.
Proof.
  split.
  - intros Hlive. unfold snapshot.
    destruct (fill_defined sc b (bids_ b) true depth) as [bs Hbs].
    { intros pr vec p. apply (Hlive true). }
    destruct (fill_defined sc b (offers_ b) false depth) as [os Hos].
    { intros pr vec p. apply (Hlive false). }
    by rewrite Hbs, Hos.
  - intros out. unfold snapshot.
    destruct (fill sc b (bids_ b) true depth) as [bs'|] eqn:Hbs; [|done].
    destruct (fill sc b (offers_ b) false depth) as [os'|] eqn:Hos; [|done].
    intros [= <-].
    destruct (fill_rows _ _ _ _ _ _ Hbs) as (bs & -> & Hb2 & Hb3).
    destruct (fill_rows _ _ _ _ _ _ Hos) as (os & -> & Ho2 & Ho3).
    exists bs, os. split; [done|]. split; [done|]. split; [done|].
    split; [done|]. split; [done|].
    split; [apply levels_descending|]. split; [apply levels_ascending|].
    split; [intros pr vec; apply levels_lookup|].
    split; [intros pr vec; apply levels_lookup|]. done.
Qed.

Lemma snapshot_rows_witness :
  is_Some (snapshot (in_iteration 0 (event Action.A Side.B 100 10 1 0))
             (add empty_book 0 (event Action.A Side.B 100 10 1 0)) 2)
  ∧ snapshot_shape (in_iteration 0 (event Action.A Side.B 100 10 1 0))
      (add empty_book 0 (event Action.A Side.B 100 10 1 0)) 2
      [PriceLevel.mk 100 10 1; padding; padding; padding].
Proof.
  destruct (snapshot_rows (in_iteration 0 (event Action.A Side.B 100 10 1 0))
              (add empty_book 0 (event Action.A Side.B 100 10 1 0)) 2)
    as [Hdef Hshape].
  split.
  - apply Hdef, book_inv_live, regular_reachable_inv.
    apply (rr_step empty_book 0 (event Action.A Side.B 100 10 1 0));
      [apply rr_empty | reflexivity | reflexivity].
  - apply Hshape. reflexivity.
Defined.

(** ** The worked example of the specification *)

(** Reset, Add(id 1, bid, 100.5, size 10), Add(id 2, bid, 100.5, size 5),
    Cancel(id 1, 3 units), Cancel(id 1, 7 units): the best bid row written
    after each line. *)
Lemma worked_example :
  (λ o, o ≫= head) <$>
    main (Some empty_book) 0
      [event Action.R Side.N PRICE_UNDEF 0 0 0;
       event Action.A Side.B 100500000000 10 1 0;
       event Action.A Side.B 100500000000 5 2 0;
       event Action.C Side.B PRICE_UNDEF 3 1 0;
       event Action.C Side.B PRICE_UNDEF 7 1 0]
  = [Some padding;
     Some (PriceLevel.mk 100500000000 10 1);
     Some (PriceLevel.mk 100500000000 15 2);
     Some (PriceLevel.mk 100500000000 12 2);
     Some (PriceLevel.mk 100500000000 5 1)].
Proof. reflexivity. Qed.

(** ** C8: prices through [parse] and [main] *)

Lemma six_digits_length n : String.length (six_digits n) = 6%nat.
Proof. reflexivity. Qed.

Lemma to_string_not_empty x : to_string x ≠ EmptyString.
Proof.
  unfold to_string.
  destruct x.1, (NilZero.string_of_uint (N.to_uint (Z.to_N (micros x.2 / 10 ^ 6))));
    discriminate.
Qed.

(** Every price but the sentinel is written as a sign, an integer part, a
    point and exactly six digits, never as the empty field. *)
Lemma price_field_six_digits (p : Z) :
  p ≠ PRICE_UNDEF →
  price_field p ≠ EmptyString
  ∧ ∃ int : string,
      price_field p =
        ((if (p <? 0)%Z then "-" else "") ++ int ++ "."
         ++ six_digits (micros (price_double p).2 mod 10 ^ 6))%string
      ∧ String.length (six_digits (micros (price_double p).2 mod 10 ^ 6)) = 6%nat.
Proof.
  intros Hp. unfold price_field. rewrite (proj2 (Z.eqb_neq _ _) Hp).
  split; [apply to_string_not_empty|]. eexists. split; [reflexivity|].
  apply six_digits_length.
Qed.

(** *** Rounding to the nearest integer *)

Lemma div_nearest_even_near a b :
  0 ≤ a → 0 < b →
  Z.abs (2 * Float.div_nearest_even a b * b - 2 * a) ≤ b.
Proof.
  intros Ha Hb. unfold Float.div_nearest_even.
  pose proof (Z.div_mod a b ltac:(lia)) as Hdm.
  pose proof (Z.mod_pos_bound a b Hb) as Hr.
  destruct (Z.ltb_spec (2 * (a mod b)) b); [nia|].
  destruct (Z.ltb_spec b (2 * (a mod b))); [nia|].
  destruct (Z.even (a / b)); nia.
Qed.

Lemma div_nearest_even_eq a b k :
  0 < b → (2 * k - 1) * b < 2 * a → 2 * a < (2 * k + 1) * b →
  Float.div_nearest_even a b = k.
Proof.
  intros Hb Hlo Hhi. unfold Float.div_nearest_even.
  pose proof (Z.div_mod a b ltac:(lia)) as Hdm.
  pose proof (Z.mod_pos_bound a b Hb) as Hr.
  destruct (Z.ltb_spec (2 * (a mod b)) b); [nia|].
  destruct (Z.ltb_spec b (2 * (a mod b))); [nia|].
  destruct (Z.even (a / b)); nia.
Qed.

(** *** The error of one rounding *)

(** One more in the exponent halves the scaled fraction. *)
Lemma scale2_succ a b e a0 b0 a1 b1 :
  0 < b →
  Float.scale2 a b e = (a0, b0) → Float.scale2 a b (e + 1) = (a1, b1) →
  0 < b0 ∧ 0 < b1 ∧ a0 * b1 = 2 * a1 * b0.
Proof.
  intros Hb. unfold Float.scale2.
  destruct (Z.leb_spec 0 e) as [He|He], (Z.leb_spec 0 (e + 1)) as [He1|He1];
    intros [= <- <-] [= <- <-]; try lia.
  - rewrite Z.pow_add_r by lia. pose proof (Z.pow_pos_nonneg 2 e). nia.
  - assert (e = -1) as -> by lia. simpl. lia.
  - replace (- e) with (- (e + 1) + 1) by lia.
    rewrite Z.pow_add_r by lia. pose proof (Z.pow_pos_nonneg 2 (- (e + 1))). nia.
Qed.

(** At the first exponent tried, the scaled fraction is at least
    [2 ^ (p - 1)]. *)
Lemma scale2_first a b p a0 b0 :
  0 < a → 0 < b → 1 ≤ p →
  Float.scale2 a b (Z.log2 a - Z.log2 b - p) = (a0, b0) →
  0 < b0 ∧ 2 ^ (p - 1) * b0 ≤ a0.
Proof.
  intros Ha Hb Hp. unfold Float.scale2.
  destruct (Z.log2_spec a Ha) as [Hla1 Hla2].
  destruct (Z.log2_spec b Hb) as [Hlb1 Hlb2].
  pose proof (Z.log2_nonneg a). pose proof (Z.log2_nonneg b).
  set (la := Z.log2 a) in *. set (lb := Z.log2 b) in *.
  destruct (Z.leb_spec 0 (la - lb - p)) as [He|He]; intros [= <- <-].
  - pose proof (Z.pow_pos_nonneg 2 (la - lb - p)).
    split; [nia|].
    assert (2 ^ la = 2 ^ (p - 1) * 2 ^ (Z.succ lb) * 2 ^ (la - lb - p)) as Hpow.
    { rewrite <-!Z.pow_add_r by lia. f_equal. lia. }
    pose proof (Z.pow_pos_nonneg 2 (p - 1)).
    nia.
  - split; [lia|].
    assert (2 ^ la * 2 ^ (- (la - lb - p)) = 2 ^ (p - 1) * 2 ^ (Z.succ lb)) as Hpow.
    { rewrite <-!Z.pow_add_r by lia. f_equal. lia. }
    pose proof (Z.pow_pos_nonneg 2 (p - 1)).
    pose proof (Z.pow_pos_nonneg 2 (- (la - lb - p))).
    nia.
Qed.

(** The rounding error, in integers: with [A / B] the rounded value,
    [|A / B - a / b| * 2 ^ p ≤ a / b]. *)
Lemma round_error p a b A B :
  0 < a → 0 < b → 1 ≤ p →
  Float.frac (Float.round p a b) = (A, B) →
  0 < B ∧ Z.abs (A * b - a * B) * 2 ^ p ≤ a * B.
Proof.
  intros Ha Hb Hp. unfold Float.round.
  rewrite (proj2 (Z.eqb_neq a 0)) by lia.
  set (e0 := Z.log2 a - Z.log2 b - p).
  destruct (Float.scale2 a b e0) as [a0 b0] eqn:H0.
  destruct (scale2_first a b p a0 b0 Ha Hb Hp H0) as [Hb0 Hr0].
  assert (2 ^ p = 2 * 2 ^ (p - 1)) as Hpp.
  { replace p with (1 + (p - 1)) at 1 by lia. by rewrite Z.pow_add_r by lia. }
  pose proof (Z.pow_pos_nonneg 2 (p - 1)) as Hpos.
  assert (∃ e a1 b1, (if a0 <? b0 * 2 ^ p then e0 else e0 + 1) = e
            ∧ Float.scale2 a b e = (a1, b1) ∧ 0 < b1 ∧ 2 ^ (p - 1) * b1 ≤ a1)
    as (e & a1 & b1 & -> & H1 & Hb1 & Hr1).
  { destruct (Z.ltb_spec a0 (b0 * 2 ^ p)) as [Hlt|Hge].
    - by exists e0, a0, b0.
    - destruct (Float.scale2 a b (e0 + 1)) as [a1 b1] eqn:H1.
      destruct (scale2_succ a b e0 a0 b0 a1 b1 Hb H0 H1) as (_ & Hb1 & Heq).
      exists (e0 + 1), a1, b1. repeat split; try done. nia. }
  rewrite H1.
  assert (0 ≤ a1) as Ha1 by nia.
  pose proof (div_nearest_even_near a1 b1 Ha1 Hb1) as Hm.
  set (m := Float.div_nearest_even a1 b1) in *.
  unfold Float.frac. unfold Float.scale2 in H1.
  destruct (Z.leb_spec 0 e) as [He|He]; injection H1 as <- <-; intros [= <- <-].
  - split; [lia|]. pose proof (Z.pow_pos_nonneg 2 e). nia.
  - pose proof (Z.pow_pos_nonneg 2 (- e)). split; [lia|]. nia.
Qed.

(** The same over the reals, for a mantissa of 53 bits or more: the
    rounded value lies within [2 ^ -53] of [a / b], relatively. *)
Lemma round_error_R p a b A B :
  0 < a → 0 < b → 53 ≤ p →
  Float.frac (Float.round p a b) = (A, B) →
  0 < B ∧ 0 < A
  ∧ (IZR a / IZR b * (1 - / IZR (2 ^ 53)) <= IZR A / IZR B)%R
  ∧ (IZR A / IZR B <= IZR a / IZR b * (1 + / IZR (2 ^ 53)))%R.
Proof.
  intros Ha Hb Hp Hfr.
  destruct (round_error p a b A B Ha Hb ltac:(lia) Hfr) as [HB Herr].
  assert (2 ^ 53 ≤ 2 ^ p) as Hpow by (apply Z.pow_le_mono_r; lia).
  assert ((A * b - a * B) * 2 ^ 53 ≤ a * B ∧ (a * B - A * b) * 2 ^ 53 ≤ a * B)
    as [H1 H2] by nia.
  assert (0 < A) as HA by nia.
  split; [done|]. split; [done|].
  apply IZR_le in H1, H2. apply IZR_lt in Ha, Hb, HB, HA.
  rewrite !mult_IZR, !minus_IZR, !mult_IZR in H1, H2.
  change (2 ^ 53) with 9007199254740992 in *.
  set (ra := IZR a) in *. set (rb := IZR b) in *.
  set (rA := IZR A) in *. set (rB := IZR B) in *.
  assert (ra = ra / rb * rb)%R as Eq by (field; lra).
  assert (rA = rA / rB * rB)%R as Ev by (field; lra).
  set (q := (ra / rb)%R) in *. set (v := (rA / rB)%R) in *.
  rewrite Eq, Ev in H1, H2.
  assert (0 < rB * rb)%R as Hpos by (apply Rmult_lt_0_compat; lra).
  split; nra.
Qed.

(** *** Decoding and encoding a price of millionths *)

(** From a bound on the real quotient back to the integers. *)
Lemma quotient_bounds A B lo hi :
  0 < B → (IZR lo < IZR A / IZR B)%R → (IZR A / IZR B < IZR hi)%R →
  lo * B < A ∧ A < hi * B.
Proof.
  intros HB Hlo Hhi. apply IZR_lt in HB as HB'.
  assert (IZR A = IZR A / IZR B * IZR B)%R as Ev by (field; lra).
  set (v := (IZR A / IZR B)%R) in *.
  split; apply lt_IZR; rewrite mult_IZR, Ev; nra.
Qed.

(** Decoding [k] millionths: two roundings, of the text and of the product
    with [PRICE_SCALE], then the truncation; the result is [1000 * k] or one
    below. *)
Lemma decode_near prec n bd k :
  53 ≤ prec → 0 < n → 0 < bd → n * 10 ^ 6 = k * bd → 1000 * k < 2 ^ 51 →
  let t := Float.trunc (Float.mul prec (Float.round prec n bd) PRICE_SCALE) in
  1000 * k - 1 ≤ t ≤ 1000 * k.
Proof.
  intros Hp Hn Hbd Hk Hmax. unfold Float.mul, Float.trunc, PRICE_SCALE.
  destruct (Float.frac (Float.round prec n bd)) as [Av Bv] eqn:Hv.
  destruct (round_error_R prec n bd Av Bv Hn Hbd Hp Hv) as (HBv & HAv & Hv1 & Hv2).
  destruct (Float.frac (Float.round prec (Av * 10 ^ 9) Bv)) as [Aw Bw] eqn:Hw.
  destruct (round_error_R prec (Av * 10 ^ 9) Bv Aw Bw ltac:(lia) HBv Hp Hw)
    as (HBw & HAw & Hw1 & Hw2).
  assert (0 < k) as Hk0 by nia.
  assert (IZR n / IZR bd = IZR (1000 * k) / 1000000000)%R as Hq.
  { apply IZR_lt in Hbd as Hbd'. rewrite mult_IZR.
    apply (f_equal IZR) in Hk. rewrite !mult_IZR in Hk.
    change (IZR (10 ^ 6)) with 1000000%R in Hk. field_simplify; [|lra].
    replace (IZR n) with (IZR k * IZR bd / 1000000)%R by lra. field. lra. }
  rewrite Hq in Hv1, Hv2.
  assert (IZR (Av * 10 ^ 9) / IZR Bv = 1000000000 * (IZR Av / IZR Bv))%R as Hc.
  { rewrite mult_IZR. change (IZR (10 ^ 9)) with 1000000000%R.
    apply IZR_lt in HBv. field. lra. }
  rewrite Hc in Hw1, Hw2.
  change (2 ^ 53) with 9007199254740992 in *.
  change (2 ^ 51) with 2251799813685248 in Hmax.
  apply IZR_lt in Hmax as Hmax'. apply IZR_lt in Hk0 as Hk0'.
  rewrite mult_IZR in *.
  destruct (quotient_bounds Aw Bw (1000 * k - 1) (1000 * k + 1) HBw) as [Hlo Hhi].
  - rewrite minus_IZR, mult_IZR. set (v := (IZR Av / IZR Bv)%R) in *.
    set (w := (IZR Aw / IZR Bw)%R) in *. lra.
  - rewrite plus_IZR, mult_IZR. set (v := (IZR Av / IZR Bv)%R) in *.
    set (w := (IZR Aw / IZR Bw)%R) in *. lra.
  - split.
    + apply Z.div_le_lower_bound; lia.
    + assert (Aw / Bw < 1000 * k + 1); [|lia].
      apply Z.div_lt_upper_bound; lia.
Qed.

(** Encoding a price that is [1000 * k] or one below: two roundings, of the
    conversion to [double] and of the quotient by [PRICE_SCALE], then the
    rounding to millionths, which gives [k] back. *)
Lemma micros_near t k :
  0 < t → 1000 * k - 1 ≤ t ≤ 1000 * k → 1000 * k < 2 ^ 51 →
  micros (Float.div 53 (Float.round 53 t 1) PRICE_SCALE) = k.
Proof.
  intros Ht Htk Hmax. unfold micros, Float.div, PRICE_SCALE.
  destruct (Float.frac (Float.round 53 t 1)) as [Ay By] eqn:Hy.
  destruct (round_error_R 53 t 1 Ay By Ht ltac:(lia) ltac:(lia) Hy)
    as (HBy & HAy & Hy1 & Hy2).
  destruct (Float.frac (Float.round 53 Ay (By * 10 ^ 9))) as [Ax Bx] eqn:Hx.
  destruct (round_error_R 53 Ay (By * 10 ^ 9) Ax Bx HAy ltac:(lia) ltac:(lia) Hx)
    as (HBx & HAx & Hx1 & Hx2).
  assert (IZR Ay / IZR (By * 10 ^ 9) = IZR Ay / IZR By / 1000000000)%R as Hc.
  { rewrite mult_IZR. change (IZR (10 ^ 9)) with 1000000000%R.
    apply IZR_lt in HBy. field. lra. }
  rewrite Hc in Hx1, Hx2. rewrite Rdiv_1_r in Hy1, Hy2.
  change (2 ^ 53) with 9007199254740992 in *.
  change (2 ^ 51) with 2251799813685248 in Hmax.
  apply IZR_lt in Hmax as Hmax'. destruct Htk as [Ht1 Ht2].
  apply IZR_le in Ht1, Ht2. apply IZR_lt in Ht as Ht'.
  rewrite minus_IZR in Ht1. rewrite mult_IZR in *.
  destruct (quotient_bounds ((2 * 10 ^ 6) * Ax) Bx (2 * k - 1) (2 * k + 1) HBx)
    as [Hlo Hhi].
  - rewrite minus_IZR, !mult_IZR. change (IZR (10 ^ 6)) with 1000000%R.
    set (y := (IZR Ay / IZR By)%R) in *.
    replace (2 * 1000000 * IZR Ax / IZR Bx)%R
      with (2000000 * (IZR Ax / IZR Bx))%R by (apply IZR_lt in HBx; field; lra).
    set (x := (IZR Ax / IZR Bx)%R) in *. lra.
  - rewrite plus_IZR, !mult_IZR. change (IZR (10 ^ 6)) with 1000000%R.
    set (y := (IZR Ay / IZR By)%R) in *.
    replace (2 * 1000000 * IZR Ax / IZR Bx)%R
      with (2000000 * (IZR Ax / IZR Bx))%R by (apply IZR_lt in HBx; field; lra).
    set (x := (IZR Ax / IZR Bx)%R) in *. lra.
  - apply div_nearest_even_eq; [done|lia|lia].
Qed.

(** *** The decimal reader *)

Lemma digit_of_range c v : digit_of c = Some v → 0 ≤ v ≤ 9.
Proof.
  unfold digit_of. destruct (_ && _) eqn:H; [|done].
  apply andb_true_iff in H as [H1 H2]. apply Z.leb_le in H1, H2.
  intros [= <-]. lia.
Qed.

Lemma read_fraction_nonneg s acc d0 n d :
  0 ≤ acc → 0 ≤ d0 → read_fraction s acc d0 = Some (n, d) → 0 ≤ n ∧ 0 ≤ d.
Proof.
  revert acc d0. induction s as [|c s IH]; intros acc d0 Hacc Hd; simpl.
  - intros [= <- <-]. done.
  - destruct (digit_of c) as [v|] eqn:Hc; [|done].
    apply digit_of_range in Hc. apply IH; lia.
Qed.

Lemma read_number_nonneg s acc seen n d :
  0 ≤ acc → read_number s acc seen = Some (n, d) → 0 ≤ n ∧ 0 ≤ d.
Proof.
  revert acc seen. induction s as [|c s IH]; intros acc seen Hacc; simpl.
  - destruct seen; [|done]. intros [= <- <-]. lia.
  - destruct (Ascii.eqb c ".").
    + destruct (read_fraction s acc 0) as [[n' d']|] eqn:Hf; [|done].
      destruct (seen || (0 <? d')); [|done]. intros [= <- <-].
      by apply (read_fraction_nonneg s acc 0).
    + destruct (digit_of c) as [v|] eqn:Hc; [|done].
      apply digit_of_range in Hc. apply IH. lia.
Qed.

Lemma read_decimal_nonneg s neg n d :
  read_decimal s = Some (neg, (n, d)) → s ≠ EmptyString ∧ 0 ≤ n ∧ 0 ≤ d.
Proof.
  unfold read_decimal. destruct s as [|c s]; [done|]. intros H. split; [done|].
  repeat case_match; simplify_eq;
    match goal with
    | H : read_number ?s0 0 false = Some _ |- _ =>
        by apply (read_number_nonneg s0 0 false)
    end.
Qed.

(** *** The round trip *)

(** C8, as amended.  The empty price field decodes to [PRICE_UNDEF] and
    [PRICE_UNDEF] is written as the empty field; every other price is
    written with a point and exactly six digits after it, never as the empty
    field.  A price field that is a
    plain decimal text of [k] millionths ([n / 10 ^ d = k / 10 ^ 6]), below
    [2 ^ 51] units of the 1e-9 scale, decodes to a price that is not the
    sentinel, at most one unit below the exact [1000 * k], and that price is
    written as the original one: the sign, the integer part of
    [k / 10 ^ 6], a point and the six digits of [k mod 10 ^ 6].  This holds
    for every width of [long double] from 53 bits on. *)
Theorem price_round_trip (prec : Z) (field : string) (neg : bool) (n d k : Z) :
  53 ≤ prec →
  read_decimal field = Some (neg, (n, d)) →
  n * 10 ^ 6 = k * 10 ^ d →
  1000 * k < 2 ^ 51 →
  parse_price prec EmptyString = Some PRICE_UNDEF
  ∧ price_field PRICE_UNDEF = EmptyString
  ∧ (∀ q, q ≠ PRICE_UNDEF →
       price_field q ≠ EmptyString
       ∧ ∃ int : string,
           price_field q =
             ((if (q <? 0)%Z then "-" else "") ++ int ++ "."
              ++ six_digits (micros (price_double q).2 mod 10 ^ 6))%string
           ∧ String.length (six_digits (micros (price_double q).2 mod 10 ^ 6))
             = 6%nat)
  ∧ ∃ p, parse_price prec field = Some p
      ∧ p ≠ PRICE_UNDEF
      ∧ 1000 * k - 1 ≤ Z.abs p ≤ 1000 * k
      ∧ price_field p =
          ((if (neg && (0 <? n)%Z)%bool then "-" else "")
           ++ NilZero.string_of_uint (N.to_uint (Z.to_N (k / 10 ^ 6)))
           ++ "." ++ six_digits (k mod 10 ^ 6))%string.
Proof.
  intros Hp Hread Hk Hmax. split; [done|]. split; [done|].
  split; [apply price_field_six_digits|].
  destruct (read_decimal_nonneg _ _ _ _ Hread) as (Hne & Hn & Hd).
  pose proof (Z.pow_pos_nonneg 10 d ltac:(lia) Hd) as Hbd.
  unfold parse_price. destruct field as [|c s]; [done|]. rewrite Hread.
  destruct (decide (n = 0)) as [->|Hn0].
  - assert (k = 0) as -> by nia.
    exists 0. split; [by destruct neg|]. split; [done|]. split; [done|].
    by rewrite andb_false_r.
  - assert (0 < n) as Hn' by lia.
    pose proof (decode_near prec n (10 ^ d) k Hp Hn' Hbd Hk Hmax) as Ht.
    simpl in Ht.
    set (t := Float.trunc (Float.mul prec (Float.round prec n (10 ^ d)) PRICE_SCALE))
      in *.
    assert (0 < k) as Hk0 by nia.
    assert ((t <? 2 ^ 63 + (if neg then 1 else 0)) = true) as ->
      by (apply Z.ltb_lt; destruct neg; lia).
    exists (if neg then - t else t).
    assert (Z.abs (if neg then - t else t) = t) as Habs by (destruct neg; lia).
    split; [done|]. split; [unfold PRICE_UNDEF; destruct neg; lia|].
    split; [lia|].
    unfold price_field, price_double, to_string. cbn [fst snd].
    rewrite (proj2 (Z.eqb_neq _ PRICE_UNDEF)) by (unfold PRICE_UNDEF; destruct neg; lia).
    rewrite Habs, (micros_near t k) by (done || lia).
    rewrite (proj2 (Z.ltb_lt 0 n)) by done. rewrite andb_true_r.
    destruct neg.
    + by rewrite (proj2 (Z.ltb_lt (- t) 0)) by lia.
    + by rewrite (proj2 (Z.ltb_ge t 0)) by lia.
Qed.

Lemma price_round_trip_witness :
  ∃ p, parse_price 64 "100.500000000" = Some p
    ∧ p ≠ PRICE_UNDEF
    ∧ 100500000000 - 1 ≤ Z.abs p ≤ 100500000000
    ∧ price_field p = "100.500000"%string.
Proof.
  destruct (price_round_trip 64 "100.500000000" false 100500000000 9 100500000)
    as (_ & _ & _ & p & Hp & Hne & Habs & Hout);
    [lia | reflexivity | reflexivity | reflexivity |].
  exists p. split; [done|]. split; [done|]. split; [exact Habs|]. exact Hout.
Defined.

(** C8, as stated, fails.  The price 0.000000001 is one unit of the 1e-9
    scale; it decodes to 1 where [long double] has 64 or 53 bits of mantissa
    and to 0 where it has 113, and either is written as 0.000000, which
    decodes to 0: the six digits of [std::to_string] cannot carry it.  So it
    is with 5.510000001. *)
Lemma price_1e9_not_reproduced :
  read_decimal "0.000000001" = Some (false, (1, 9))
  ∧ parse_price 64 "0.000000001" = Some 1
  ∧ parse_price 53 "0.000000001" = Some 1
  ∧ parse_price 113 "0.000000001" = Some 0
  ∧ price_field 1 = "0.000000"%string
  ∧ price_field 0 = "0.000000"%string
  ∧ read_decimal "0.000000" = Some (false, (0, 6))
  ∧ parse_price 64 "5.510000001" = Some 5510000001
  ∧ price_field 5510000001 = "5.510000"%string.
Proof. by vm_compute. Qed.

(** The bound "at most one unit below" is met: with 64 bits of mantissa the
    text 0.13 decodes to 129999999, and that price is written 0.130000. *)
Lemma parse_price_one_below :
  parse_price 64 "0.13" = Some 129999999
  ∧ price_field 129999999 = "0.130000"%string.
Proof. by vm_compute. Qed.

(** * Further properties of the matching engine *)

(** ** Clear *)

Lemma levels_empty : levels (∅ : gmap Z (list ptr)) = [].
Proof. unfold levels. by rewrite map_to_list_empty. Qed.

Lemma fill_empty sc b rev depth :
  fill sc b ∅ rev depth = Some (replicate depth padding).
Proof.
  unfold fill. rewrite levels_empty.
  replace (if rev then reverse [] else []) with (@nil (Z * list ptr))
    by by destruct rev.
  rewrite take_nil. simpl. by rewrite Nat.sub_0_r.
Qed.

(** X1.  A Clear event ([Action.R]) met in any state, also one whose ladders
    hold pointers that can no longer be read, empties the registry and both
    ladders; the book is consistent again and the snapshot of any depth, in
    any scope, is defined and holds padding rows only. *)
Theorem clear_snapshot (b : OrderBook) (e : nat) (m : MboMessage.t) (sc : scope)
    (depth : nat) :
  MboMessage.action m = Action.R →
  ∃ b', apply b e m = Some b'
    ∧ orders_ b' = ∅ ∧ bids_ b' = ∅ ∧ offers_ b' = ∅
    ∧ consistent b'
    ∧ snapshot sc b' depth = Some (replicate (2 * depth) padding).
Proof.
  intros Hact. exists (clear b). unfold apply. rewrite Hact.
  do 4 (split; [done|]). split.
  - apply book_inv_consistent, book_inv_clear.
  - unfold snapshot. simpl. rewrite !fill_empty, <-replicate_add.
    do 2 f_equal. lia.
Qed.

Lemma clear_snapshot_witness :
  ∃ b', apply (add empty_book 0 (event Action.A Side.B 100 10 1 0)) 1
          (event Action.R Side.N PRICE_UNDEF 0 0 0) = Some b'
    ∧ orders_ b' = ∅ ∧ bids_ b' = ∅ ∧ offers_ b' = ∅
    ∧ consistent b'
    ∧ snapshot (in_iteration 1 (event Action.R Side.N PRICE_UNDEF 0 0 0)) b' 10
      = Some (replicate 20 padding).
Proof. apply (clear_snapshot _ 1 (event Action.R Side.N PRICE_UNDEF 0 0 0)). reflexivity. Defined.

(** ** Invariants of every reachable state *)

Lemma no_empty_level_insert b bid l pr0 (vec0 : list ptr) :
  (∀ pr vec, l !! pr = Some vec → vec ≠ []) → vec0 ≠ [] →
  (∀ pr vec, lvl b (negb bid) !! pr = Some vec → vec ≠ []) →
  no_empty_level (set_lvl b bid (<[pr0 := vec0]> l)).
Proof.
  intros Hl Hv Hoth bid' pr vec. rewrite lvl_set_lvl. case_decide as Hd.
  - intros [[_ <-]|[_ Hx]]%lookup_insert_Some; [done|by eapply Hl].
  - destruct bid', bid; try done; by apply Hoth.
Qed.

Lemma no_empty_level_add b e m : no_empty_level b → no_empty_level (add b e m).
Proof.
  intros Hb. unfold add. destruct (tob _).
  - intros bid pr vec. rewrite lvl_set_lvl. case_decide as Hd; [|by apply Hb].
    by intros [_ <-]%lookup_singleton_Some.
  - destruct (orders_ b !! MboMessage.order_id m) as [[g msg]|].
    + apply no_empty_level_insert;
        [by apply Hb|by destruct (_ !!! _)|by apply Hb].
    + apply no_empty_level_insert; rewrite ?lvl_mkBook;
        [by apply Hb|by destruct (_ !!! _)|].
      intros pr vec. by apply Hb.
Qed.

Lemma no_empty_level_step b e m b' :
  no_empty_level b → apply b e m = Some b' → no_empty_level b'.
Proof.
  intros Hb Happ. unfold apply in Happ.
  destruct (MboMessage.action m); try (injection Happ as <-; done).
  - injection Happ as <-. by apply no_empty_level_add.
  - injection Happ as <-. unfold modify.
    destruct (orders_ b !! MboMessage.order_id m) as [[g msg]|];
      [|by apply no_empty_level_add].
    destruct (negb _).
    + apply no_empty_level_insert;
        [|by destruct (_ !!! _)
         |intros pr vec; rewrite lvl_set_orders; by apply Hb].
      intros pr vec. destruct (remove_ptr _ _) eqn:E.
      * intros [_ Hx]%lookup_delete_Some. by eapply Hb.
      * intros [[_ <-]|[_ Hx]]%lookup_insert_Some; [done|by eapply Hb].
    + destruct (_ <? _).
      * apply no_empty_level_insert;
          [by apply Hb|by destruct (remove_ptr _ _)
          |intros pr vec; rewrite lvl_set_orders; by apply Hb].
      * intros bid pr vec. rewrite lvl_set_orders. by apply Hb.
  - unfold cancel in Happ.
    destruct (orders_ b !! MboMessage.order_id m) as [[g msg]|];
      [|by injection Happ as <-].
    destruct (_ =? 0).
    + destruct (remove_ptr _ _) eqn:E; [done|]. injection Happ as <-.
      apply no_empty_level_insert;
        [by apply Hb|done|intros pr vec; rewrite lvl_set_orders; by apply Hb].
    + injection Happ as <-.
      apply no_empty_level_insert;
        [by apply Hb|by destruct (remove_ptr _ _)
        |intros pr vec; rewrite lvl_set_orders; by apply Hb].
  - injection Happ as <-. intros bid pr vec. destruct bid; simpl;
      by rewrite lookup_empty.
Qed.

(** X2.  In every state reached from the empty book, through whatever events
    have a defined next state, no ladder holds a level without references:
    [add] and [modify] push a reference on the level they create, [modify]
    erases the level it empties, and the branch of [cancel] that stores an
    emptied level is the one that goes on to read the erased order. *)
Theorem reachable_no_empty_level b : reachable b → no_empty_level b.
Proof.
  induction 1 as [|b e m b' _ IH Happ].
  - intros bid pr vec. destruct bid; simpl; by rewrite lookup_empty.
  - by eapply no_empty_level_step.
Qed.

Lemma reachable_no_empty_level_witness :
  no_empty_level (add empty_book 0 (event Action.A Side.B 101 5 2 F_TOB)).
Proof.
  apply reachable_no_empty_level.
  apply (reach_step empty_book 0 (event Action.A Side.B 101 5 2 F_TOB));
    [apply reach_empty | reflexivity].
Defined.

Lemma keyed_by_id_step b e m b' :
  keyed_by_id b → apply b e m = Some b' → keyed_by_id b'.
Proof.
  intros Hb Happ. unfold apply in Happ.
  assert (Hadd : keyed_by_id (add b e m)).
  { unfold add. destruct (tob _);
      [intros k g' msg'; rewrite orders_set_lvl; apply Hb|].
    destruct (orders_ b !! MboMessage.order_id m) as [[g msg]|] eqn:Hk.
    - intros k g' msg'. rewrite orders_set_lvl. apply Hb.
    - intros k g' msg'. rewrite orders_set_lvl. simpl.
      intros [[<- [= <- <-]]|[_ Hx]]%lookup_insert_Some; [done|by eapply Hb]. }
  destruct (MboMessage.action m); try (injection Happ as <-; done).
  - injection Happ as <-. unfold modify.
    destruct (orders_ b !! MboMessage.order_id m) as [[g msg]|] eqn:Hk; [|done].
    assert (Hb1 : keyed_by_id (set_orders b (<[MboMessage.order_id m := (g, m)]> (orders_ b)))).
    { intros k g' msg'. rewrite orders_set_orders.
      intros [[<- [= <- <-]]|[_ Hx]]%lookup_insert_Some; [done|by eapply Hb]. }
    destruct (negb _); [|destruct (_ <? _)]; try done;
      intros k g' msg'; rewrite orders_set_lvl; apply Hb1.
  - unfold cancel in Happ.
    destruct (orders_ b !! MboMessage.order_id m) as [[g msg]|] eqn:Hk;
      [|by injection Happ as <-].
    destruct (_ =? 0).
    + destruct (remove_ptr _ _) eqn:E; [done|]. injection Happ as <-.
      intros k g' msg'. rewrite orders_set_lvl, orders_set_orders.
      intros [_ Hx]%lookup_delete_Some. by eapply Hb.
    + injection Happ as <-.
      intros k g' msg'. rewrite orders_set_lvl, orders_set_orders.
      intros [[<- [= <- <-]]|[_ Hx]]%lookup_insert_Some; [|by eapply Hb].
      simpl. by eapply Hb.
Qed.

(** X3.  In every state reached from the empty book each node of the
    registry is stored under the order id it carries, whatever events were
    applied: [add] registers the event under its own id, [modify] overwrites
    the node found under the id of the event, and [cancel] changes the size
    only. *)
Theorem reachable_keyed_by_id b : reachable b → keyed_by_id b.
Proof.
  induction 1 as [|b e m b' _ IH Happ].
  - intros k g msg Hk. simpl in Hk. by rewrite lookup_empty in Hk.
  - by eapply keyed_by_id_step.
Qed.

Lemma reachable_keyed_by_id_witness :
  keyed_by_id (modify (add empty_book 0 (event Action.A Side.B 100 10 1 0)) 1
                 (event Action.M Side.A 101 5 1 0)).
Proof.
  apply reachable_keyed_by_id.
  apply (reach_step (add empty_book 0 (event Action.A Side.B 100 10 1 0)) 1
           (event Action.M Side.A 101 5 1 0)); [|reflexivity].
  apply (reach_step empty_book 0 (event Action.A Side.B 100 10 1 0));
    [apply reach_empty | reflexivity].
Defined.

(** ** The aggregates of a level *)

Lemma aggregate_acc sc b vec sz ct :
  aggregate sc b vec (sz mod 2 ^ 32) (ct mod 2 ^ 32) =
    (λ t : Z * Z, ((sz + t.1) mod 2 ^ 32, (ct + t.2) mod 2 ^ 32))
      <$> totals sc b vec.
Proof.
  revert sz ct. induction vec as [|p vec IH]; intros sz ct; simpl.
  - by rewrite !Z.add_0_r.
  - destruct (deref sc b p) as [o|]; [|done]. unfold contribution.
    destruct (tob (MboMessage.flags o)); simpl.
    + rewrite IH. by destruct (totals sc b vec) as [[s c]|].
    + rewrite !Zplus_mod_idemp_l, IH.
      destruct (totals sc b vec) as [[s c]|]; [|done]. simpl.
      by rewrite !Z.add_assoc.
Qed.

Lemma aggregate_wrap sc b vec : aggregate sc b vec 0 0 = wrap32 <$> totals sc b vec.
Proof.
  change (aggregate sc b vec 0 0)
    with (aggregate sc b vec (0 mod 2 ^ 32) (0 mod 2 ^ 32)).
  rewrite aggregate_acc. by destruct (totals sc b vec) as [[s c]|].
Qed.

Lemma level_row_totals sc b pr vec row :
  level_row sc b (pr, vec) = Some row ↔
  ∃ s c, totals sc b vec = Some (s, c)
         ∧ row = PriceLevel.mk pr (s mod 2 ^ 32) (c mod 2 ^ 32).
Proof.
  unfold level_row. simpl. rewrite aggregate_wrap.
  destruct (totals sc b vec) as [[s c]|]; simpl.
  - split; [intros [= <-]; by exists s, c|].
    by intros (s' & c' & [= <- <-] & ->).
  - split; [done|]. by intros (s' & c' & ? & _).
Qed.

Lemma totals_mapM sc b vec :
  totals sc b vec =
    (λ msgs, (sum_sizes (unflagged msgs), Z.of_nat (length (unflagged msgs))))
      <$> mapM (deref sc b) vec.
Proof.
  induction vec as [|p vec IH]; [done|]. simpl. rewrite IH.
  destruct (deref sc b p) as [o|]; [|done]. simpl.
  destruct (mapM (deref sc b) vec) as [msgs|]; [|done]. simpl.
  unfold unflagged, contribution. rewrite filter_cons.
  destruct (tob (MboMessage.flags o)) eqn:Ht.
  - rewrite decide_False by done. done.
  - rewrite decide_True by done. simpl. f_equal. f_equal. lia.
Qed.

(** X4.  The row of a level: when every reference of the level can be read,
    the size is the sum of the sizes of the referenced orders that do not
    carry the top-of-book flag and the count is their number, both reduced
    modulo [2 ^ 32] as [uint32_t] arithmetic does; a reference is counted as
    often as it occurs; the row is not defined when a reference cannot be
    read. *)
Theorem level_row_sums (sc : scope) (b : OrderBook) (pr : Z) (vec : list ptr) :
  level_row sc b (pr, vec) =
    (λ msgs, PriceLevel.mk pr
               (sum_sizes (unflagged msgs) mod 2 ^ 32)
               (Z.of_nat (length (unflagged msgs)) mod 2 ^ 32))
      <$> mapM (deref sc b) vec.
Proof.
  unfold level_row. simpl. rewrite aggregate_wrap, totals_mapM.
  by destruct (mapM (deref sc b) vec).
Qed.

Lemma totals_ext sc sc' b b' vec :
  (∀ p, p ∈ vec → deref sc' b' p = deref sc b p) →
  totals sc' b' vec = totals sc b vec.
Proof.
  induction vec as [|p vec IH]; intros Hd; [done|]. simpl.
  rewrite Hd by apply list_elem_of_here.
  rewrite IH; [done|]. intros q Hq. apply Hd. by apply list_elem_of_further.
Qed.

Lemma totals_perm sc b vec vec' :
  vec ≡ₚ vec' → totals sc b vec = totals sc b vec'.
Proof.
  induction 1 as [|p v v' _ IH|p q v|v1 v2 v3 _ IH1 _ IH2]; simpl.
  - done.
  - by rewrite IH.
  - destruct (deref sc b p) as [o1|], (deref sc b q) as [o2|],
      (totals sc b v) as [[s c]|]; try done.
    f_equal. f_equal; lia.
  - congruence.
Qed.

Lemma totals_app sc b v1 v2 :
  totals sc b (v1 ++ v2) =
    match totals sc b v1, totals sc b v2 with
    | Some (s1, c1), Some (s2, c2) => Some (s1 + s2, c1 + c2)
    | _, _ => None
    end.
Proof.
  induction v1 as [|p v1 IH]; simpl.
  - by destruct (totals sc b v2) as [[s c]|].
  - rewrite IH. destruct (deref sc b p) as [o|]; [|done].
    destruct (totals sc b v1) as [[s1 c1]|]; [|done].
    destruct (totals sc b v2) as [[s2 c2]|]; [|done].
    f_equal. f_equal; lia.
Qed.

Lemma totals_defined sc b vec t :
  totals sc b vec = Some t → ∀ p, p ∈ vec → is_Some (deref sc b p).
Proof.
  revert t. induction vec as [|q vec IH]; intros t Ht p Hp.
  - by apply elem_of_nil in Hp.
  - simpl in Ht. destruct (deref sc b q) as [o|] eqn:Hq; [|done].
    destruct (totals sc b vec) as [[s c]|] eqn:Hv; [|done].
    apply elem_of_cons in Hp as [->|Hp]; [by rewrite Hq|by eapply IH].
Qed.

Lemma level_row_ext sc sc' b b' pr vec vec' :
  totals sc' b' vec' = totals sc b vec →
  level_row sc' b' (pr, vec') = level_row sc b (pr, vec).
Proof. intros Ht. unfold level_row. simpl. by rewrite !aggregate_wrap, Ht. Qed.

Lemma contribution_plain o :
  tob (MboMessage.flags o) = false → contribution o = (MboMessage.size o, 1).
Proof. intros Ht. unfold contribution. by rewrite Ht. Qed.

Lemma remove_ptr_absent p vec : p ∉ vec → remove_ptr p vec = vec.
Proof.
  intros Hp. induction vec as [|q vec IH]; [done|].
  unfold remove_ptr in *. rewrite filter_cons.
  apply not_elem_of_cons in Hp as [Hne Hp]. rewrite decide_True by done.
  by rewrite IH.
Qed.

Lemma remove_ptr_notin p vec : p ∉ remove_ptr p vec.
Proof. unfold remove_ptr. by intros [Hne _]%list_elem_of_filter. Qed.

Lemma remove_ptr_perm p vec :
  occ p vec = 1%nat → vec ≡ₚ p :: remove_ptr p vec.
Proof.
  induction vec as [|q vec IH]; intros Hocc; [done|].
  change (q :: vec) with ([q] ++ vec) in Hocc.
  rewrite occ_app, occ_singleton in Hocc.
  unfold remove_ptr in *. rewrite filter_cons.
  destruct (decide (q = p)) as [->|Hne].
  - rewrite decide_False by (by intros ?).
    assert (p ∉ vec) as Hp by (apply occ_zero; lia).
    apply remove_ptr_absent in Hp. unfold remove_ptr in Hp. by rewrite Hp.
  - rewrite decide_True by done. rewrite IH at 1 by lia. apply perm_swap.
Qed.

Lemma push_perm (p : ptr) vec : occ p vec = 1%nat → remove_ptr p vec ++ [p] ≡ₚ vec.
Proof.
  intros Hocc. rewrite <-Permutation_cons_append.
  symmetry. by apply remove_ptr_perm.
Qed.

Lemma remove_ptr_split (p : ptr) vec :
  occ p vec = 1%nat →
  ∃ l1 l2, vec = l1 ++ p :: l2 ∧ remove_ptr p vec = l1 ++ l2.
Proof.
  intros Hocc. assert (p ∈ vec) as Hin by (apply occ_pos; lia).
  apply list_elem_of_split in Hin as (l1 & l2 & ->). exists l1, l2.
  split; [done|].
  change (p :: l2) with ([p] ++ l2) in Hocc.
  rewrite !occ_app, occ_singleton, decide_True in Hocc by done.
  assert (p ∉ l1) as H1 by (apply occ_zero; lia).
  assert (p ∉ l2) as H2 by (apply occ_zero; lia).
  unfold remove_ptr. rewrite filter_app, filter_cons.
  rewrite decide_False by (by intros ?).
  apply remove_ptr_absent in H1, H2. unfold remove_ptr in H1, H2.
  by rewrite H1, H2.
Qed.

Lemma deref_insert_self sc b b' id g msg' :
  orders_ b' = <[id := (g, msg')]> (orders_ b) →
  deref sc b' (NodePtr id g) = Some msg'.
Proof. intros Ho. simpl. by rewrite Ho, lookup_insert_eq, decide_True. Qed.

Lemma deref_insert_other sc b b' id g msg msg' q :
  orders_ b !! id = Some (g, msg) →
  orders_ b' = <[id := (g, msg')]> (orders_ b) →
  q ≠ NodePtr id g → deref sc b' q = deref sc b q.
Proof.
  intros Hk Ho Hq. destruct q as [k g1|e1]; [|done]. simpl. rewrite Ho.
  destruct (decide (k = id)) as [->|Hne].
  - rewrite lookup_insert_eq, Hk. by rewrite !decide_False by congruence.
  - by rewrite lookup_insert_ne.
Qed.

Lemma deref_delete_other sc b b' id g msg q :
  orders_ b !! id = Some (g, msg) →
  orders_ b' = delete id (orders_ b) →
  q ≠ NodePtr id g → deref sc b' q = deref sc b q.
Proof.
  intros Hk Ho Hq. destruct q as [k g1|e1]; [|done]. simpl. rewrite Ho.
  destruct (decide (k = id)) as [->|Hne].
  - rewrite lookup_delete_eq, Hk. by rewrite decide_False by congruence.
  - by rewrite lookup_delete_ne.
Qed.

Lemma deref_insert_fresh sc b b' id x q :
  orders_ b !! id = None →
  orders_ b' = <[id := x]> (orders_ b) →
  is_Some (deref sc b q) → deref sc b' q = deref sc b q.
Proof.
  intros Hk Ho Hq. destruct q as [k g1|e1]; [|done]. simpl in *. rewrite Ho.
  destruct (decide (k = id)) as [->|Hne].
  - rewrite Hk in Hq. by destruct Hq.
  - by rewrite lookup_insert_ne.
Qed.

(** The totals of a level after the stored order of one of its references
    is replaced. *)
Lemma totals_replace sc b b' id g msg msg' vec s c :
  orders_ b !! id = Some (g, msg) →
  orders_ b' = <[id := (g, msg')]> (orders_ b) →
  totals sc b vec = Some (s, c) →
  totals sc b' vec =
    Some (s + Z.of_nat (occ (NodePtr id g) vec)
                * ((contribution msg').1 - (contribution msg).1),
          c + Z.of_nat (occ (NodePtr id g) vec)
                * ((contribution msg').2 - (contribution msg).2)).
Proof.
  intros Hk Ho. revert s c. induction vec as [|q vec IH]; intros s c Ht.
  - simpl in Ht. by injection Ht as <- <-.
  - simpl in Ht. destruct (deref sc b q) as [o|] eqn:Hq; [|done].
    destruct (totals sc b vec) as [[s1 c1]|] eqn:Hv; [|done].
    injection Ht as <- <-. simpl. rewrite (IH s1 c1 eq_refl).
    change (q :: vec) with ([q] ++ vec). rewrite occ_app, occ_singleton.
    destruct (decide (q = NodePtr id g)) as [->|Hne].
    + rewrite (deref_insert_self sc b b' id g msg' Ho).
      simpl in Hq. rewrite Hk, decide_True in Hq by done.
      injection Hq as <-. f_equal. f_equal; lia.
    + rewrite (deref_insert_other sc b b' id g msg msg' q Hk Ho Hne), Hq.
      f_equal. f_equal; lia.
Qed.

(** The totals of a level after its only reference to an order is removed. *)
Lemma totals_remove sc b p o vec s c :
  occ p vec = 1%nat → deref sc b p = Some o →
  totals sc b vec = Some (s, c) →
  totals sc b (remove_ptr p vec) =
    Some (s - (contribution o).1, c - (contribution o).2).
Proof.
  intros Hocc Hp Ht.
  rewrite (totals_perm sc b _ _ (remove_ptr_perm p vec Hocc)) in Ht.
  simpl in Ht. rewrite Hp in Ht.
  destruct (totals sc b (remove_ptr p vec)) as [[s1 c1]|]; [|done].
  injection Ht as <- <-. f_equal. f_equal; lia.
Qed.

(** ** How the events change the rows *)

Lemma two_bids_inv : book_inv two_bids.
Proof.
  apply regular_reachable_inv.
  apply (rr_step (add empty_book 0 (event Action.A Side.B 100 10 1 0)) 1
           (event Action.A Side.B 100 5 2 0)); [|reflexivity|reflexivity].
  apply (rr_step empty_book 0 (event Action.A Side.B 100 10 1 0));
    [apply rr_empty | reflexivity | reflexivity].
Qed.

(** X5.  An Add without the top-of-book flag whose id is new raises the size
    of the row of the level at its price by the size of the event and the
    count by one, modulo [2 ^ 32], and leaves the row of every other level of
    both ladders as it was. *)
Theorem add_accumulates (b : OrderBook) (e : nat) (m : MboMessage.t)
    (sc : scope) (row : PriceLevel.t) :
  tob (MboMessage.flags m) = false →
  orders_ b !! MboMessage.order_id m = None →
  let bid := is_bid (MboMessage.side m) in
  let pr := MboMessage.price m in
  let b' := add b e m in
  level_row sc b (pr, refs b bid pr) = Some row →
  level_row sc b' (pr, refs b' bid pr) =
    Some (PriceLevel.mk pr
            ((PriceLevel.size row + MboMessage.size m) mod 2 ^ 32)
            ((PriceLevel.count row + 1) mod 2 ^ 32))
  ∧ ∀ bid' pr' row', bid' ≠ bid ∨ pr' ≠ pr →
      level_row sc b (pr', refs b bid' pr') = Some row' →
      level_row sc b' (pr', refs b' bid' pr') = Some row'.
Proof.
  intros Htob Hnone bid pr b' Hrow.
  assert (Ho : orders_ b' =
    <[MboMessage.order_id m := (allocs b, m)]> (orders_ b)).
  { unfold b', add. rewrite Htob, Hnone. by rewrite orders_set_lvl. }
  assert (Hrefs : ∀ bid' pr', refs b' bid' pr' =
    if decide (bid' = bid ∧ pr' = pr)
    then refs b bid pr ++ [NodePtr (MboMessage.order_id m) (allocs b)]
    else refs b bid' pr').
  { intros bid' pr'. unfold b', add. rewrite Htob, Hnone.
    rewrite refs_set_lvl, lvl_mkBook. fold bid pr. unfold refs.
    destruct (decide (bid' = bid)) as [->|Hb].
    - destruct (decide (pr' = pr)) as [->|Hp].
      + by rewrite lookup_total_insert_eq, decide_True.
      + rewrite lookup_total_insert_ne by done.
        rewrite decide_False; [done|]. by intros [_ ?].
    - rewrite decide_False; [|by intros [? _]].
      by destruct bid', bid. }
  assert (Hsame : ∀ vec t, totals sc b vec = Some t → totals sc b' vec = Some t).
  { intros vec t Ht. rewrite <-Ht. apply totals_ext. intros q Hq.
    eapply deref_insert_fresh; [done..|]. by eapply totals_defined. }
  split.
  - apply level_row_totals in Hrow as (s & c & Ht & ->).
    apply level_row_totals. rewrite Hrefs, decide_True by done.
    exists (s + MboMessage.size m), (c + 1). split.
    + rewrite totals_app, (Hsame _ _ Ht). cbn [totals].
      rewrite (deref_insert_self sc b b' _ _ _ Ho).
      unfold contribution. rewrite Htob. simpl. by rewrite !Z.add_0_r.
    + simpl. by rewrite !Zplus_mod_idemp_l.
  - intros bid' pr' row' Hne Hrow'.
    apply level_row_totals in Hrow' as (s & c & Ht & ->).
    apply level_row_totals. exists s, c. split; [|done].
    rewrite Hrefs, decide_False by (intros [-> ->]; by destruct Hne).
    by apply Hsame.
Qed.

Lemma add_accumulates_witness :
  level_row (λ _, None)
    (add (add empty_book 0 (event Action.A Side.B 100 (2 ^ 32 - 4) 1 0)) 1
       (event Action.A Side.B 100 10 2 0))
    (100, refs (add (add empty_book 0 (event Action.A Side.B 100 (2 ^ 32 - 4) 1 0)) 1
                  (event Action.A Side.B 100 10 2 0)) true 100)
  = Some (PriceLevel.mk 100 6 2).
Proof.
  destruct (add_accumulates
              (add empty_book 0 (event Action.A Side.B 100 (2 ^ 32 - 4) 1 0)) 1
              (event Action.A Side.B 100 10 2 0) (λ _, None)
              (PriceLevel.mk 100 (2 ^ 32 - 4) 1)) as [Hrow _];
    [reflexivity | reflexivity | reflexivity | exact Hrow].
Defined.

(** X6.  In a consistent book, a Cancel of a registered order that does not
    carry the flag, naming the ladder of the stored side and staying within
    defined behaviour, lowers the size of the row of the order's level by
    [min (requested, remaining)]; the count stays when the order is left with
    some size and drops by one when the order is erased; the rows of all
    other levels stay as they were. *)
Theorem cancel_reduces_row (b : OrderBook) (m : MboMessage.t) (sc : scope)
    (g : nat) (msg : MboMessage.t) (row : PriceLevel.t) :
  book_inv b →
  orders_ b !! MboMessage.order_id m = Some (g, msg) →
  is_bid (MboMessage.side m) = is_bid (MboMessage.side msg) →
  cancel_defined b m = true →
  tob (MboMessage.flags msg) = false →
  let bid := is_bid (MboMessage.side msg) in
  let pr := MboMessage.price msg in
  level_row sc b (pr, refs b bid pr) = Some row →
  ∃ b', cancel b m = Some b'
    ∧ level_row sc b' (pr, refs b' bid pr) =
        Some (PriceLevel.mk pr
                ((PriceLevel.size row
                  - Z.min (MboMessage.size m) (MboMessage.size msg)) mod 2 ^ 32)
                (if reduced msg m =? 0
                 then (PriceLevel.count row - 1) mod 2 ^ 32
                 else PriceLevel.count row))
    ∧ ∀ bid' pr', bid' ≠ bid ∨ pr' ≠ pr →
        level_row sc b' (pr', refs b' bid' pr') =
        level_row sc b (pr', refs b bid' pr').
Proof.
  intros Hinv Hk Hside Hdef Htob bid pr Hrow.
  set (id := MboMessage.order_id m) in *.
  set (p := NodePtr id g).
  pose proof (λ bid' pr', inv_occ b Hinv id g msg bid' pr' Hk) as Hocc.
  fold bid pr p in Hocc.
  assert (Hp : deref sc b p = Some msg).
  { simpl. by rewrite Hk, decide_True. }
  assert (Hone : occ p (refs b bid pr) = 1%nat).
  { by rewrite Hocc, decide_True. }
  apply level_row_totals in Hrow as (s & c & Ht & ->). simpl.
  unfold cancel_defined in Hdef. unfold cancel. fold id in Hdef |- *.
  rewrite Hk in Hdef |- *. rewrite Hside in Hdef |- *. fold bid pr p in Hdef |- *.
  change (lvl b bid !!! pr) with (refs b bid pr) in Hdef |- *.
  unfold reduced in *.
  destruct (Z.ltb_spec (MboMessage.size m) (MboMessage.size msg)) as [Hlt|Hge].
  - (* some size is left *)
    rewrite (proj2 (Z.eqb_neq _ 0)) by lia. eexists. split; [done|].
    set (msg' := MboMessage.set_size msg _).
    set (b' := set_lvl _ _ _).
    assert (Ho : orders_ b' = <[id := (g, msg')]> (orders_ b)).
    { unfold b'. by rewrite orders_set_lvl, orders_set_orders. }
    assert (Hrefs : ∀ bid' pr', refs b' bid' pr' =
      if decide (bid' = bid ∧ pr' = pr)
      then remove_ptr p (refs b bid pr) ++ [p] else refs b bid' pr').
    { intros bid' pr'. unfold b'. rewrite refs_set_lvl, refs_set_orders.
      unfold refs. destruct (decide (bid' = bid)) as [->|Hb].
      - destruct (decide (pr' = pr)) as [->|Hpr].
        + by rewrite lookup_total_insert_eq, decide_True.
        + rewrite lookup_total_insert_ne by done.
          rewrite decide_False; [done|]. by intros [_ ?].
      - rewrite decide_False; [done|]. by intros [? _]. }
    split.
    + apply level_row_totals. rewrite Hrefs, decide_True by done.
      rewrite (totals_perm sc b' _ _ (push_perm p _ Hone)).
      rewrite (totals_replace sc b b' id g msg msg' _ s c Hk Ho Ht).
      fold p. rewrite Hone.
      assert (Hc' : contribution msg' = (MboMessage.size msg - MboMessage.size m, 1)).
      { unfold contribution, msg'. destruct msg. simpl in *. by rewrite Htob. }
      rewrite Hc', (contribution_plain msg Htob). simpl.
      eexists _, _. split; [done|]. f_equal.
      * rewrite Zminus_mod_idemp_l. f_equal. lia.
      * f_equal. lia.
    + intros bid' pr' Hne. rewrite Hrefs.
      rewrite decide_False by (intros [-> ->]; by destruct Hne).
      apply level_row_ext, totals_ext. intros q Hq.
      apply (deref_insert_other sc b b' id g msg msg' q Hk Ho).
      intros ->. apply occ_pos in Hq. fold p in Hq. rewrite Hocc in Hq.
      rewrite decide_False in Hq; [done|]. intros [-> ->]. by destruct Hne.
  - (* nothing is left: the order is erased *)
    simpl in Hdef. rewrite Z.eqb_refl.
    destruct (remove_ptr p (refs b bid pr)) as [|q0 vec'] eqn:Hrem; [done|].
    eexists. split; [done|]. rewrite <-Hrem. clear Hdef.
    set (b' := set_lvl _ _ _).
    assert (Ho : orders_ b' = delete id (orders_ b)).
    { unfold b'. by rewrite orders_set_lvl, orders_set_orders. }
    assert (Hrefs : ∀ bid' pr', refs b' bid' pr' =
      if decide (bid' = bid ∧ pr' = pr)
      then remove_ptr p (refs b bid pr) else refs b bid' pr').
    { intros bid' pr'. unfold b'. rewrite refs_set_lvl, refs_set_orders.
      unfold refs. destruct (decide (bid' = bid)) as [->|Hb].
      - destruct (decide (pr' = pr)) as [->|Hpr].
        + by rewrite lookup_total_insert_eq, decide_True.
        + rewrite lookup_total_insert_ne by done.
          rewrite decide_False; [done|]. by intros [_ ?].
      - rewrite decide_False; [done|]. by intros [? _]. }
    split.
    + apply level_row_totals. rewrite Hrefs, decide_True by done.
      rewrite (totals_ext sc sc b b').
      2:{ intros q Hq. apply (deref_delete_other sc b b' id g msg q Hk Ho).
          intros ->. by apply remove_ptr_notin in Hq. }
      rewrite (totals_remove sc b p msg _ s c Hone Hp Ht).
      rewrite (contribution_plain msg Htob). simpl.
      eexists _, _. split; [done|]. f_equal.
      * rewrite Zminus_mod_idemp_l. f_equal. lia.
      * by rewrite Zminus_mod_idemp_l.
    + intros bid' pr' Hne. rewrite Hrefs.
      rewrite decide_False by (intros [-> ->]; by destruct Hne).
      apply level_row_ext, totals_ext. intros q Hq.
      apply (deref_delete_other sc b b' id g msg q Hk Ho).
      intros ->. apply occ_pos in Hq. fold p in Hq. rewrite Hocc in Hq.
      rewrite decide_False in Hq; [done|]. intros [-> ->]. by destruct Hne.
Qed.

Lemma cancel_reduces_row_witness :
  ∃ b', cancel two_bids (event Action.C Side.B PRICE_UNDEF 3 1 0) = Some b'
    ∧ level_row (λ _, None) b' (100, refs b' true 100)
      = Some (PriceLevel.mk 100 12 2).
Proof.
  destruct (cancel_reduces_row two_bids (event Action.C Side.B PRICE_UNDEF 3 1 0)
              (λ _, None) 0%nat (event Action.A Side.B 100 10 1 0)
              (PriceLevel.mk 100 15 2))
    as (b' & Hc & Hrow & _);
    [apply two_bids_inv | reflexivity | reflexivity | reflexivity
    | reflexivity | reflexivity |].
  exists b'. split; [exact Hc | exact Hrow].
Defined.

(** X7.  In a consistent book, a Modify of a registered order that keeps the
    price replaces the order's size in the row of its level: the size of the
    row changes by the difference of the new and the stored size, the count
    stays, and the rows of all other levels stay as they were (neither the
    stored order nor the event carrying the flag). *)
Theorem modify_same_price_row (b : OrderBook) (e : nat) (m : MboMessage.t)
    (sc : scope) (g : nat) (msg : MboMessage.t) (row : PriceLevel.t) :
  book_inv b →
  orders_ b !! MboMessage.order_id m = Some (g, msg) →
  MboMessage.price msg = MboMessage.price m →
  tob (MboMessage.flags msg) = false →
  tob (MboMessage.flags m) = false →
  let bid := is_bid (MboMessage.side msg) in
  let pr := MboMessage.price msg in
  let b' := modify b e m in
  level_row sc b (pr, refs b bid pr) = Some row →
  level_row sc b' (pr, refs b' bid pr) =
    Some (PriceLevel.mk pr
            ((PriceLevel.size row - MboMessage.size msg + MboMessage.size m)
               mod 2 ^ 32)
            (PriceLevel.count row))
  ∧ ∀ bid' pr', bid' ≠ bid ∨ pr' ≠ pr →
      level_row sc b' (pr', refs b' bid' pr') =
      level_row sc b (pr', refs b bid' pr').
Proof.
  intros Hinv Hk Hpr Htob Htob' bid pr b' Hrow.
  set (id := MboMessage.order_id m) in *.
  set (p := NodePtr id g).
  pose proof (λ bid' pr', inv_occ b Hinv id g msg bid' pr' Hk) as Hocc.
  fold bid pr p in Hocc.
  assert (Hone : occ p (refs b bid pr) = 1%nat).
  { by rewrite Hocc, decide_True. }
  assert (Ho : orders_ b' = <[id := (g, m)]> (orders_ b)).
  { unfold b', modify. fold id. rewrite Hk.
    rewrite (proj2 (Z.eqb_eq _ _) Hpr). simpl.
    destruct (_ <? _); by rewrite ?orders_set_lvl, orders_set_orders. }
  assert (Hrefs : ∀ bid' pr',
    if decide (bid' = bid ∧ pr' = pr)
    then refs b' bid' pr' ≡ₚ refs b bid pr
    else refs b' bid' pr' = refs b bid' pr').
  { intros bid' pr'. unfold b', modify. fold id. rewrite Hk.
    rewrite (proj2 (Z.eqb_eq _ _) Hpr). simpl. fold bid pr p.
    destruct (_ <? _).
    - rewrite refs_set_lvl, refs_set_orders. unfold refs.
      destruct (decide (bid' = bid)) as [->|Hb].
      + destruct (decide (pr' = pr)) as [->|Hp].
        * rewrite lookup_total_insert_eq, decide_True by done.
          by apply push_perm.
        * rewrite lookup_total_insert_ne by done.
          rewrite decide_False; [done|]. by intros [_ ?].
      + rewrite decide_False; [done|]. by intros [? _].
    - rewrite refs_set_orders. by case_decide as Hd; [destruct Hd as [-> ->]|]. }
  split.
  - apply level_row_totals in Hrow as (s & c & Ht & ->). simpl.
    apply level_row_totals.
    pose proof (Hrefs bid pr) as Hperm. rewrite decide_True in Hperm by done.
    rewrite (totals_perm sc b' _ _ Hperm).
    rewrite (totals_replace sc b b' id g msg m _ s c Hk Ho Ht).
    fold p. rewrite Hone, !contribution_plain by done. simpl.
    eexists _, _. split; [done|]. f_equal.
    + rewrite <-Zplus_mod_idemp_l, Zminus_mod_idemp_l, Zplus_mod_idemp_l.
      f_equal. lia.
    + f_equal. lia.
  - intros bid' pr' Hne. pose proof (Hrefs bid' pr') as Heq.
    rewrite decide_False in Heq by (intros [-> ->]; by destruct Hne).
    rewrite Heq. apply level_row_ext, totals_ext. intros q Hq.
    apply (deref_insert_other sc b b' id g msg m q Hk Ho).
    intros ->. apply occ_pos in Hq. fold p in Hq. rewrite Hocc in Hq.
    rewrite decide_False in Hq; [done|]. intros [-> ->]. by destruct Hne.
Qed.

Lemma modify_same_price_row_witness :
  level_row (λ _, None)
    (modify two_bids 2 (event Action.M Side.B 100 25 1 0))
    (100, refs (modify two_bids 2 (event Action.M Side.B 100 25 1 0)) true 100)
  = Some (PriceLevel.mk 100 30 2).
Proof.
  destruct (modify_same_price_row two_bids 2 (event Action.M Side.B 100 25 1 0)
              (λ _, None) 0%nat (event Action.A Side.B 100 10 1 0)
              (PriceLevel.mk 100 15 2)) as [Hrow _];
    [apply two_bids_inv | reflexivity | reflexivity | reflexivity
    | reflexivity | reflexivity | exact Hrow].
Defined.

(** X8.  Time priority under a Modify that keeps the price, in a consistent
    book: the registry node of the order now stores the event; when the size
    grows the order's reference is moved behind all others of its level, which
    keep their relative order; when the size does not grow no ladder
    changes, so the order keeps its place. *)
Theorem modify_priority (b : OrderBook) (e : nat) (m : MboMessage.t)
    (g : nat) (msg : MboMessage.t) :
  book_inv b →
  orders_ b !! MboMessage.order_id m = Some (g, msg) →
  MboMessage.price msg = MboMessage.price m →
  let bid := is_bid (MboMessage.side msg) in
  let pr := MboMessage.price msg in
  let p := NodePtr (MboMessage.order_id m) g in
  let b' := modify b e m in
  orders_ b' !! MboMessage.order_id m = Some (g, m)
  ∧ (MboMessage.size msg < MboMessage.size m →
       ∃ l1 l2, refs b bid pr = l1 ++ p :: l2
                ∧ refs b' bid pr = l1 ++ l2 ++ [p])
  ∧ (MboMessage.size m ≤ MboMessage.size msg →
       bids_ b' = bids_ b ∧ offers_ b' = offers_ b).
Proof.
  intros Hinv Hk Hpr bid pr p b'.
  pose proof (inv_occ b Hinv _ g msg bid pr Hk) as Hone.
  rewrite decide_True in Hone by done. fold p in Hone.
  unfold b', modify. rewrite Hk, (proj2 (Z.eqb_eq _ _) Hpr). simpl.
  fold bid pr p. split; [|split].
  - destruct (_ <? _);
      rewrite ?orders_set_lvl, orders_set_orders; by rewrite lookup_insert_eq.
  - intros Hlt. rewrite (proj2 (Z.ltb_lt _ _) Hlt).
    destruct (remove_ptr_split p _ Hone) as (l1 & l2 & Hv & Hr).
    exists l1, l2. split; [done|].
    rewrite refs_set_lvl, decide_True by done.
    rewrite lookup_total_insert_eq. change (lvl b bid !!! pr) with (refs b bid pr).
    by rewrite Hr, <-app_assoc.
  - intros Hge. rewrite (proj2 (Z.ltb_ge _ _) Hge). by destruct b.
Qed.

Lemma modify_priority_witness :
  refs (modify two_bids 2 (event Action.M Side.B 100 25 1 0)) true 100
  = [NodePtr 2 1; NodePtr 1 0].
Proof.
  destruct (modify_priority two_bids 2 (event Action.M Side.B 100 25 1 0)
              0%nat (event Action.A Side.B 100 10 1 0))
    as (_ & Hup & _); [apply two_bids_inv | reflexivity | reflexivity |].
  destruct Hup as (l1 & l2 & Hb & Hb'); [reflexivity|].
  destruct l1 as [|q l1]; [|by destruct l1; inversion Hb].
  injection Hb as <-. exact Hb'.
Defined.

(** X9.  In a consistent book, a Modify of a registered order to another
    price moves the order between the two levels of the ladder of its stored
    side: the row of the old level loses the stored size and one order, the
    row of the new level gains the size of the event and one order, the
    reference is the last of the new level, the old level is erased from the
    ladder exactly when the order was its only reference, and the rows of all
    other levels stay as they were. *)
Theorem modify_moves_order (b : OrderBook) (e : nat) (m : MboMessage.t)
    (sc : scope) (g : nat) (msg : MboMessage.t) (row0 row1 : PriceLevel.t) :
  book_inv b →
  orders_ b !! MboMessage.order_id m = Some (g, msg) →
  MboMessage.price msg ≠ MboMessage.price m →
  tob (MboMessage.flags msg) = false →
  tob (MboMessage.flags m) = false →
  let bid := is_bid (MboMessage.side msg) in
  let pr0 := MboMessage.price msg in
  let pr1 := MboMessage.price m in
  let p := NodePtr (MboMessage.order_id m) g in
  let b' := modify b e m in
  level_row sc b (pr0, refs b bid pr0) = Some row0 →
  level_row sc b (pr1, refs b bid pr1) = Some row1 →
  level_row sc b' (pr0, refs b' bid pr0) =
    Some (PriceLevel.mk pr0
            ((PriceLevel.size row0 - MboMessage.size msg) mod 2 ^ 32)
            ((PriceLevel.count row0 - 1) mod 2 ^ 32))
  ∧ level_row sc b' (pr1, refs b' bid pr1) =
      Some (PriceLevel.mk pr1
              ((PriceLevel.size row1 + MboMessage.size m) mod 2 ^ 32)
              ((PriceLevel.count row1 + 1) mod 2 ^ 32))
  ∧ refs b' bid pr1 = refs b bid pr1 ++ [p]
  ∧ (lvl b' bid !! pr0 = None ↔ refs b bid pr0 = [p])
  ∧ ∀ bid' pr', bid' ≠ bid ∨ (pr' ≠ pr0 ∧ pr' ≠ pr1) →
      level_row sc b' (pr', refs b' bid' pr') =
      level_row sc b (pr', refs b bid' pr').
Proof.
  intros Hinv Hk Hpr Htob Htob' bid pr0 pr1 p b' Hrow0 Hrow1.
  set (id := MboMessage.order_id m) in *.
  pose proof (λ bid' pr', inv_occ b Hinv id g msg bid' pr' Hk) as Hocc.
  fold bid pr0 p in Hocc.
  assert (Hone : occ p (refs b bid pr0) = 1%nat).
  { by rewrite Hocc, decide_True. }
  assert (Hnot : ∀ bid' pr', ¬ (bid' = bid ∧ pr' = pr0) → p ∉ refs b bid' pr').
  { intros bid' pr' Hne. apply occ_zero. by rewrite Hocc, decide_False. }
  assert (Hp : deref sc b p = Some msg).
  { simpl. by rewrite Hk, decide_True. }
  set (vec := remove_ptr p (refs b bid pr0)).
  set (l1 := match vec with
             | [] => delete pr0 (lvl b bid)
             | _ :: _ => <[pr0 := vec]> (lvl b bid)
             end).
  assert (Hb' : b' = set_lvl (set_orders b (<[id := (g, m)]> (orders_ b))) bid
                       (<[pr1 := (l1 !!! pr1) ++ [p]]> l1)).
  { unfold b', modify. fold id. rewrite Hk.
    by rewrite (proj2 (Z.eqb_neq _ _) Hpr). }
  assert (Ho : orders_ b' = <[id := (g, m)]> (orders_ b)).
  { rewrite Hb'. by rewrite orders_set_lvl, orders_set_orders. }
  assert (Hl1 : ∀ pr', l1 !!! pr' = if decide (pr' = pr0) then vec
                                     else refs b bid pr').
  { intros pr'. unfold l1, refs. destruct vec eqn:Hv.
    - case_decide as Hd; [subst; by rewrite lookup_total_delete_eq|].
      by rewrite lookup_total_delete_ne.
    - case_decide as Hd; [subst; by rewrite lookup_total_insert_eq|].
      by rewrite lookup_total_insert_ne. }
  assert (Hrefs : ∀ bid' pr', refs b' bid' pr' =
    if decide (bid' = bid ∧ pr' = pr1) then refs b bid pr1 ++ [p]
    else if decide (bid' = bid ∧ pr' = pr0) then vec
    else refs b bid' pr').
  { intros bid' pr'. rewrite Hb', refs_set_lvl, refs_set_orders.
    destruct (decide (bid' = bid)) as [->|Hb].
    - destruct (decide (pr' = pr1)) as [->|Hp1].
      + rewrite lookup_total_insert_eq, decide_True by done.
        by rewrite Hl1, decide_False by done.
      + rewrite lookup_total_insert_ne, Hl1 by done.
        rewrite (decide_False (P := _ ∧ pr' = pr1)) by (by intros [_ ?]).
        by repeat case_decide; intuition.
    - rewrite !decide_False; [done|by intros [? _]..]. }
  assert (Hoth : ∀ v, p ∉ v → totals sc b' v = totals sc b v).
  { intros v Hv. apply totals_ext. intros q Hq.
    apply (deref_insert_other sc b b' id g msg m q Hk Ho). by intros ->. }
  apply level_row_totals in Hrow0 as (s0 & c0 & Ht0 & ->).
  apply level_row_totals in Hrow1 as (s1 & c1 & Ht1 & ->). simpl.
  split; [|split; [|split; [|split]]].
  - apply level_row_totals.
    rewrite Hrefs, decide_False, decide_True by (try done; by intros [_ ?]).
    rewrite Hoth by apply remove_ptr_notin.
    unfold vec. rewrite (totals_remove sc b p msg _ s0 c0 Hone Hp Ht0).
    rewrite contribution_plain by done. simpl.
    eexists _, _. split; [done|]. by rewrite !Zminus_mod_idemp_l.
  - apply level_row_totals. rewrite Hrefs, decide_True by done.
    rewrite totals_app, Hoth, Ht1 by (apply Hnot; by intros [_ ?]).
    cbn [totals].
    rewrite (deref_insert_self sc b b' id g m Ho : deref sc b' p = _).
    rewrite contribution_plain by done. simpl.
    eexists _, _. split; [done|]. rewrite !Zplus_mod_idemp_l.
    f_equal; f_equal; lia.
  - by rewrite Hrefs, decide_True.
  - rewrite Hb', lvl_set_lvl_eq, lookup_insert_ne by done.
    unfold l1. destruct vec as [|q0 v0] eqn:Hv.
    + rewrite lookup_delete_eq. split; [intros _|done].
      pose proof (remove_ptr_perm p _ Hone) as Hperm. fold vec in Hperm.
      rewrite Hv in Hperm. by apply Permutation_singleton_r in Hperm.
    + rewrite lookup_insert_eq. split; [done|]. intros Heq.
      unfold vec in Hv. rewrite Heq in Hv. unfold remove_ptr in Hv.
      rewrite filter_cons, decide_False in Hv by (by intros ?). done.
  - intros bid' pr' Hne. rewrite Hrefs.
    rewrite !decide_False by (intros [-> ->]; destruct Hne as [?|[? ?]]; done).
    apply level_row_ext, Hoth, Hnot.
    intros [-> ->]; destruct Hne as [?|[? ?]]; done.
Qed.

Lemma modify_moves_order_witness :
  level_row (λ _, None)
    (modify two_bids 2 (event Action.M Side.B 101 25 1 0))
    (100, refs (modify two_bids 2 (event Action.M Side.B 101 25 1 0)) true 100)
  = Some (PriceLevel.mk 100 5 1)
  ∧ level_row (λ _, None)
      (modify two_bids 2 (event Action.M Side.B 101 25 1 0))
      (101, refs (modify two_bids 2 (event Action.M Side.B 101 25 1 0)) true 101)
    = Some (PriceLevel.mk 101 25 1).
Proof.
  destruct (modify_moves_order two_bids 2 (event Action.M Side.B 101 25 1 0)
              (λ _, None) 0%nat (event Action.A Side.B 100 10 1 0)
              (PriceLevel.mk 100 15 2) (PriceLevel.mk 101 0 0))
    as (H0 & H1 & _);
    [apply two_bids_inv | reflexivity | discriminate | reflexivity
    | reflexivity | reflexivity | reflexivity |].
  split; [exact H0 | exact H1].
Defined.

(** ** Events that do not touch the book, and whole runs *)

Lemma fill_ext sc sc' b l rev depth :
  (∀ pr vec p, l !! pr = Some vec → p ∈ vec → deref sc' b p = deref sc b p) →
  fill sc' b l rev depth = fill sc b l rev depth.
Proof.
  intros Hd. unfold fill.
  set (its := take depth (if rev then reverse (levels l) else levels l)).
  assert (mapM (level_row sc' b) its = mapM (level_row sc b) its) as ->; [|done].
  apply Forall_mapM_ext, Forall_forall. intros [pr vec] Hit.
  assert ((pr, vec) ∈ levels l) as Hin.
  { apply elem_of_take in Hit as (i & Hit & _).
    apply list_elem_of_lookup_2 in Hit.
    clear -Hit. destruct rev; [|done]. by apply elem_of_reverse. }
  apply levels_lookup in Hin.
  apply level_row_ext, totals_ext. intros p Hp. by eapply Hd.
Qed.

Lemma book_inv_deref sc sc' b bid pr vec p :
  book_inv b → lvl b bid !! pr = Some vec → p ∈ vec →
  deref sc' b p = deref sc b p.
Proof.
  intros [_ Hreg] Hvec Hp.
  destruct (Hreg bid pr p) as (k & g & msg & -> & Hk); [|done].
  by rewrite (refs_lookup _ _ _ _ Hvec).
Qed.

Lemma book_inv_snapshot sc sc' b depth :
  book_inv b → snapshot sc' b depth = snapshot sc b depth.
Proof.
  intros Hinv. unfold snapshot.
  rewrite (fill_ext sc sc' b (bids_ b)), (fill_ext sc sc' b (offers_ b)); [done|..].
  - intros pr vec p Hvec Hp. by apply (book_inv_deref sc sc' b false pr vec).
  - intros pr vec p Hvec Hp. by apply (book_inv_deref sc sc' b true pr vec).
Qed.

(** X10.  A Trade, Fill or None event leaves the book as it is, and in a
    consistent book the snapshot does not depend on which event of the caller
    is alive: the rows written for such an event are those of the snapshot
    before it. *)
Theorem passive_event_repeats_snapshot (b : OrderBook) (e : nat)
    (m : MboMessage.t) (sc : scope) (depth : nat) :
  book_inv b →
  MboMessage.action m = Action.T ∨ MboMessage.action m = Action.F
    ∨ MboMessage.action m = Action.N →
  apply b e m = Some b
  ∧ snapshot (in_iteration e m) b depth = snapshot sc b depth.
Proof.
  intros Hinv Hact. split.
  - unfold apply. by destruct Hact as [->|[->| ->]].
  - by apply book_inv_snapshot.
Qed.

Lemma passive_event_repeats_snapshot_witness :
  apply two_bids 2 (event Action.T Side.N 100 1 0 0) = Some two_bids
  ∧ snapshot (in_iteration 2 (event Action.T Side.N 100 1 0 0)) two_bids 10
    = snapshot (in_iteration 1 (event Action.A Side.B 100 5 2 0)) two_bids 10.
Proof.
  apply passive_event_repeats_snapshot; [apply two_bids_inv | by left].
Defined.

Lemma snapshot_defined sc b depth :
  book_inv b → ∃ rows, snapshot sc b depth = Some rows
                       ∧ length rows = (2 * depth)%nat.
Proof.
  intros Hinv. pose proof (book_inv_live sc b Hinv) as Hlive.
  unfold snapshot.
  destruct (fill_defined sc b (bids_ b) true depth) as [bs Hbs].
  { intros pr vec p. apply (Hlive true). }
  destruct (fill_defined sc b (offers_ b) false depth) as [os Hos].
  { intros pr vec p. apply (Hlive false). }
  rewrite Hbs, Hos. eexists. split; [done|].
  apply fill_rows in Hbs as (_ & _ & _ & Hb).
  apply fill_rows in Hos as (_ & _ & _ & Ho).
  rewrite length_app. lia.
Qed.

(** X11.  A run of the loop of [main] over events that stay regular, from a
    consistent book: every event has a defined next state and a defined
    snapshot, so one record is written per event and each carries 20 rows, 10
    per side. *)
Theorem regular_run_prints (b : OrderBook) (e : nat) (events : list MboMessage.t) :
  book_inv b → regular_run b e events = true →
  length (main (Some b) e events) = length events
  ∧ Forall (λ out, ∃ rows, out = Some rows ∧ length rows = 20%nat)
      (main (Some b) e events).
Proof.
  revert b e. induction events as [|m rest IH]; intros b e Hinv Hrun.
  - by split.
  - simpl in Hrun. apply andb_true_iff in Hrun as [Hreg Hrun].
    destruct (regular_step b e m Hinv Hreg) as (b' & Happ & Hinv').
    rewrite Happ in Hrun. simpl. rewrite Happ.
    destruct (snapshot_defined (in_iteration e m) b' 10 Hinv')
      as (rows & Hsnap & Hlen).
    rewrite Hsnap. destruct (IH b' (S e) Hinv' Hrun) as [IHl IHf].
    split; [simpl; by rewrite IHl|].
    apply Forall_cons. split; [by exists rows|done].
Qed.

Lemma regular_run_prints_witness :
  length (main (Some empty_book) 0
            [event Action.A Side.B 100 10 1 0; event Action.T Side.N 100 1 0 0;
             event Action.C Side.B PRICE_UNDEF 3 1 0]) = 3%nat
  ∧ Forall (λ out, ∃ rows, out = Some rows ∧ length rows = 20%nat)
      (main (Some empty_book) 0
         [event Action.A Side.B 100 10 1 0; event Action.T Side.N 100 1 0 0;
          event Action.C Side.B PRICE_UNDEF 3 1 0]).
Proof.
  apply regular_run_prints; [apply book_inv_empty | reflexivity].
Defined.

(** ** Round trips, composition, and a Modify that names the other side *)

Lemma remove_ptr_app (p : ptr) vec1 vec2 :
  remove_ptr p (vec1 ++ vec2) = remove_ptr p vec1 ++ remove_ptr p vec2.
Proof. unfold remove_ptr. apply filter_app. Qed.

Lemma remove_ptr_self (p : ptr) : remove_ptr p [p] = [].
Proof.
  unfold remove_ptr. rewrite filter_cons, decide_False by (by intros ?). done.
Qed.

Lemma remove_ptr_push (p : ptr) vec :
  remove_ptr p (remove_ptr p vec ++ [p]) = remove_ptr p vec.
Proof.
  rewrite remove_ptr_app, remove_ptr_self, app_nil_r.
  apply remove_ptr_absent, remove_ptr_notin.
Qed.

(** X17.  Round trip of an order: in a consistent book, an Add of a new order
    without the top-of-book flag at a price where other orders rest, followed
    by a Cancel of that order for its whole size (or more) on the same side,
    brings the registry and both ladders back to what they were. *)
Theorem add_cancel_round_trip (b : OrderBook) (e : nat) (m mc : MboMessage.t) :
  book_inv b →
  tob (MboMessage.flags m) = false →
  orders_ b !! MboMessage.order_id m = None →
  refs b (is_bid (MboMessage.side m)) (MboMessage.price m) ≠ [] →
  MboMessage.order_id mc = MboMessage.order_id m →
  is_bid (MboMessage.side mc) = is_bid (MboMessage.side m) →
  MboMessage.size m ≤ MboMessage.size mc →
  ∃ b', cancel (add b e m) mc = Some b'
    ∧ orders_ b' = orders_ b ∧ bids_ b' = bids_ b ∧ offers_ b' = offers_ b.
Proof.
  intros Hinv Htob Hnone Hne Hid Hside Hsz.
  set (id := MboMessage.order_id m) in *.
  set (bid := is_bid (MboMessage.side m)) in *.
  set (pr := MboMessage.price m) in *.
  set (p := NodePtr id (allocs b)).
  assert (Hp : p ∉ refs b bid pr).
  { apply occ_zero. by apply unregistered_occ. }
  unfold add. fold id bid pr. rewrite Htob, Hnone. fold p.
  unfold cancel. rewrite Hid, orders_set_lvl. simpl orders_.
  rewrite lookup_insert_eq, Hside. fold bid pr p.
  rewrite lvl_set_lvl_eq, lvl_mkBook, lookup_total_insert_eq.
  change (lvl b bid !!! pr) with (refs b bid pr).
  rewrite remove_ptr_app, remove_ptr_self, app_nil_r, remove_ptr_absent by done.
  unfold reduced. rewrite (proj2 (Z.ltb_ge _ _)) by done. simpl.
  destruct (refs b bid pr) as [|q vec] eqn:Hvec; [done|].
  eexists. split; [done|].
  rewrite orders_set_lvl, orders_set_orders.
  split; [by apply delete_insert_id|].
  assert (Hl : lvl b bid !! pr = Some (q :: vec)).
  { unfold refs in Hvec. rewrite lookup_total_alt in Hvec.
    destruct (lvl b bid !! pr) as [v|]; [by simpl in Hvec; subst|done]. }
  rewrite insert_insert_eq, (insert_id (lvl b bid) pr (q :: vec)) by done.
  clearbody bid. by destruct bid.
Qed.

Lemma set_twice b o1 o2 bid (l1 l2 : gmap Z (list ptr)) :
  set_lvl (set_orders (set_lvl (set_orders b o1) bid l1) o2) bid l2
  = set_lvl (set_orders b o2) bid l2.
Proof. by destruct b, bid. Qed.

(** X18.  Cancels add up: for every book, two Cancels of one order id on
    one side, applied one after the other, give the state - or the undefined
    behaviour - that the single Cancel of the sum of their sizes gives. *)
Theorem cancel_additive (b : OrderBook) (m1 m2 m12 : MboMessage.t) :
  MboMessage.order_id m1 = MboMessage.order_id m12 →
  MboMessage.order_id m2 = MboMessage.order_id m12 →
  is_bid (MboMessage.side m1) = is_bid (MboMessage.side m12) →
  is_bid (MboMessage.side m2) = is_bid (MboMessage.side m12) →
  0 ≤ MboMessage.size m1 → 0 ≤ MboMessage.size m2 →
  MboMessage.size m12 = MboMessage.size m1 + MboMessage.size m2 →
  cancel b m1 ≫= (λ b1, cancel b1 m2) = cancel b m12.
Proof.
  intros Hid1 Hid2 Hs1 Hs2 Ha Hc Hsum.
  unfold cancel at 2 3. rewrite Hid1, Hs1.
  set (id := MboMessage.order_id m12) in *.
  set (bid := is_bid (MboMessage.side m12)) in *.
  destruct (orders_ b !! id) as [[g msg]|] eqn:Hk.
  2:{ simpl. unfold cancel. by rewrite Hid2, Hk. }
  set (p := NodePtr id g). set (pr := MboMessage.price msg).
  set (v0 := remove_ptr p (lvl b bid !!! pr)).
  unfold reduced. rewrite Hsum.
  destruct (Z.ltb_spec (MboMessage.size m1) (MboMessage.size msg)) as [Hlt|Hge].
  - (* the first Cancel leaves some size *)
    rewrite (proj2 (Z.eqb_neq _ 0)) by lia. simpl.
    unfold cancel. rewrite Hid2, Hs2. fold id bid.
    rewrite orders_set_lvl, orders_set_orders, lookup_insert_eq.
    rewrite lvl_set_lvl_eq. unfold reduced.
    replace (MboMessage.price (MboMessage.set_size msg _)) with pr by done.
    replace (MboMessage.size (MboMessage.set_size msg _))
      with (MboMessage.size msg - MboMessage.size m1) by done.
    rewrite lookup_total_insert_eq. fold p. unfold v0 at 1 3.
    rewrite !remove_ptr_push. fold v0.
    destruct (Z.ltb_spec (MboMessage.size m2)
                (MboMessage.size msg - MboMessage.size m1)) as [Hlt2|Hge2].
    + rewrite (proj2 (Z.ltb_lt (MboMessage.size m1 + MboMessage.size m2) _))
        by lia.
      rewrite !(proj2 (Z.eqb_neq _ 0)) by lia.
      rewrite set_twice, !insert_insert_eq. do 4 f_equal. f_equal.
      * unfold MboMessage.set_size. simpl. f_equal. lia.
      * unfold v0. apply remove_ptr_push.
    + rewrite (proj2 (Z.ltb_ge (MboMessage.size m1 + MboMessage.size m2) _))
        by lia.
      rewrite Z.eqb_refl. destruct v0 as [|q v]; [done|].
      by rewrite set_twice, insert_insert_eq, delete_insert_eq.
  - (* the first Cancel erases the order *)
    rewrite (proj2 (Z.ltb_ge (MboMessage.size m1 + MboMessage.size m2) _))
      by lia.
    rewrite Z.eqb_refl. fold p pr v0. destruct v0 as [|q v]; [done|]. simpl.
    unfold cancel. rewrite Hid2. fold id.
    by rewrite orders_set_lvl, orders_set_orders, lookup_delete_eq.
Qed.

(** X19.  The ladder of a Modify is the one of the stored side, read before
    the event is stored: in a consistent book, a Modify of a registered order
    that names the other side stores the event, with its side, and leaves or
    puts the order's reference in the ladder of the old side; no level of the
    ladder of the new side references the order, and the book is no longer
    consistent. *)
Theorem modify_keeps_old_ladder (b : OrderBook) (e : nat) (m : MboMessage.t)
    (g : nat) (msg : MboMessage.t) :
  book_inv b →
  orders_ b !! MboMessage.order_id m = Some (g, msg) →
  is_bid (MboMessage.side m) ≠ is_bid (MboMessage.side msg) →
  let p := NodePtr (MboMessage.order_id m) g in
  let b' := modify b e m in
  orders_ b' !! MboMessage.order_id m = Some (g, m)
  ∧ p ∈ refs b' (is_bid (MboMessage.side msg)) (MboMessage.price m)
  ∧ (∀ pr, p ∉ refs b' (is_bid (MboMessage.side m)) pr)
  ∧ ¬ consistent b'.
Proof.
  intros Hinv Hk Hside p b'.
  set (id := MboMessage.order_id m) in *.
  set (bid := is_bid (MboMessage.side msg)) in *.
  pose proof (λ bid' pr', inv_occ b Hinv id g msg bid' pr' Hk) as Hocc.
  fold bid p in Hocc.
  assert (Ho : orders_ b' !! id = Some (g, m)).
  { unfold b', modify. fold id. rewrite Hk.
    destruct (negb _); [|destruct (_ <? _)];
      rewrite ?orders_set_lvl, orders_set_orders; by rewrite lookup_insert_eq. }
  assert (Hoth : ∀ pr, refs b' (negb bid) pr = refs b (negb bid) pr).
  { intros pr. unfold b', modify. fold id. rewrite Hk. fold bid.
    destruct (negb (_ =? _)); [|destruct (_ <? _)];
      rewrite ?refs_set_lvl, refs_set_orders; try done;
      by rewrite decide_False by (by destruct bid). }
  assert (Hin : p ∈ refs b' bid (MboMessage.price m)).
  { unfold b', modify. fold id. rewrite Hk. fold bid p.
    destruct (Z.eqb_spec (MboMessage.price msg) (MboMessage.price m)) as [Hpr|Hpr];
      simpl.
    - destruct (_ <? _).
      + rewrite refs_set_lvl, decide_True, Hpr, lookup_total_insert_eq by done.
        apply elem_of_app. right. by apply list_elem_of_singleton.
      + rewrite refs_set_orders, <-Hpr. apply occ_pos.
        by rewrite Hocc, decide_True.
    - rewrite refs_set_lvl, decide_True, lookup_total_insert_eq by done.
      apply elem_of_app. right. by apply list_elem_of_singleton. }
  assert (Hnot : ∀ pr, p ∉ refs b' (is_bid (MboMessage.side m)) pr).
  { intros pr. replace (is_bid (MboMessage.side m)) with (negb bid)
      by (by destruct bid, (is_bid (MboMessage.side m))).
    rewrite Hoth. apply occ_zero. rewrite Hocc, decide_False; [done|].
    intros [? _]. by destruct bid. }
  do 3 (split; [done|]). intros Hcons.
  destruct (cons_level b' Hcons id g m Ho) as (vec & Hvec & Hone).
  apply refs_lookup in Hvec. apply (Hnot (MboMessage.price m)).
  rewrite Hvec. apply occ_pos. fold p in Hone. lia.
Qed.

Lemma add_cancel_round_trip_witness :
  ∃ b', cancel two_bids (event Action.C Side.B PRICE_UNDEF 5 2 0) = Some b'
    ∧ orders_ b' = orders_ (add empty_book 0 (event Action.A Side.B 100 10 1 0))
    ∧ bids_ b' = bids_ (add empty_book 0 (event Action.A Side.B 100 10 1 0))
    ∧ offers_ b' = offers_ (add empty_book 0 (event Action.A Side.B 100 10 1 0)).
Proof.
  apply (add_cancel_round_trip
           (add empty_book 0 (event Action.A Side.B 100 10 1 0)) 1
           (event Action.A Side.B 100 5 2 0)
           (event Action.C Side.B PRICE_UNDEF 5 2 0));
    try reflexivity; try discriminate.
  apply regular_reachable_inv.
  apply (rr_step empty_book 0 (event Action.A Side.B 100 10 1 0));
    [apply rr_empty | reflexivity | reflexivity].
Defined.

Lemma cancel_additive_witness :
  cancel two_bids (event Action.C Side.B PRICE_UNDEF 3 1 0)
    ≫= (λ b1, cancel b1 (event Action.C Side.B PRICE_UNDEF 4 1 0))
  = cancel two_bids (event Action.C Side.B PRICE_UNDEF 7 1 0).
Proof.
  apply cancel_additive; try reflexivity; discriminate.
Defined.

Lemma modify_keeps_old_ladder_witness :
  orders_ (modify two_bids 2 (event Action.M Side.A 100 10 1 0)) !! 1
  = Some (0%nat, event Action.M Side.A 100 10 1 0)
  ∧ NodePtr 1 0 ∈ refs (modify two_bids 2 (event Action.M Side.A 100 10 1 0)) true 100
  ∧ (∀ pr, NodePtr 1 0
           ∉ refs (modify two_bids 2 (event Action.M Side.A 100 10 1 0)) false pr)
  ∧ ¬ consistent (modify two_bids 2 (event Action.M Side.A 100 10 1 0)).
Proof.
  apply (modify_keeps_old_ladder two_bids 2 (event Action.M Side.A 100 10 1 0)
           0%nat (event Action.A Side.B 100 10 1 0));
    [apply two_bids_inv | reflexivity | discriminate].
Defined.

(** * The line decoder and the record writer *)

Section streams.
Implicit Types (s f r : string) (ss : istream.t) (c : ascii).

Lemma commas_app s1 s2 : commas (s1 ++ s2) = (commas s1 + commas s2)%nat.
Proof. induction s1 as [|c s1 IH]; simpl; [done|]. rewrite IH. lia. Qed.

Lemma until_comma_app f r :
  commas f = 0%nat → until_comma (f ++ String "," r) = (f, Some r).
Proof.
  induction f as [|c f IH]; simpl; [done|].
  destruct (Ascii.eqb c ",") eqn:E; [done|]. intros Hf.
  by rewrite IH.
Qed.

Lemma until_comma_free s f o : until_comma s = (f, o) → commas f = 0%nat.
Proof.
  revert f o. induction s as [|c s IH]; intros f o; simpl.
  - by intros [= <- <-].
  - destruct (Ascii.eqb c ",") eqn:E; [by intros [= <- <-]|].
    destruct (until_comma s) as [f' r']. intros [= <- <-]. simpl.
    rewrite E. by eapply IH.
Qed.

Lemma getline_field f r :
  commas f = 0%nat →
  getline (istream.mk (f ++ String "," r) false) = Ok (f, istream.mk r false).
Proof.
  intros Hf. pose proof (until_comma_app f r Hf) as Hu.
  unfold getline. cbn [istream.eofbit istream.rest].
  destruct (f ++ String "," r)%string as [|a s0]; [by simpl in Hu|].
  by rewrite Hu.
Qed.

Lemma getline_free ss f ss' : getline ss = Ok (f, ss') → commas f = 0%nat.
Proof.
  unfold getline. destruct (istream.eofbit ss); [done|].
  destruct (istream.rest ss) as [|c s]; [done|].
  destruct (until_comma (String c s)) as [f' [r|]] eqn:E;
    intros [= <- <-]; by eapply until_comma_free.
Qed.

Lemma get_char_field c r :
  isspace c = false →
  get_char (istream.mk (String c r) false) = Ok (code c, istream.mk r false).
Proof. intros Hc. unfold get_char. simpl. by rewrite Hc. Qed.

Lemma digit_not_space c v : digit_of c = Some v → isspace c = false.
Proof.
  unfold digit_of, isspace. set (n := Z.of_N (N_of_ascii c)).
  destruct (48 <=? n) eqn:E1; [|done]. destruct (n <=? 57) eqn:E2; [|done].
  intros _. apply Z.leb_le in E1, E2.
  rewrite (proj2 (Z.eqb_neq n 32)) by lia.
  rewrite (proj2 (Z.leb_gt n 13)) by lia. by rewrite andb_false_r.
Qed.

Lemma digit_not_char c v (k : ascii) :
  digit_of k = None → digit_of c = Some v → Ascii.eqb c k = false.
Proof.
  intros Hk Hc. destruct (Ascii.eqb_spec c k) as [->|]; [congruence|done].
Qed.

Lemma get_digits_app ds c r acc :
  all_digits ds = true → digit_of c = None →
  get_digits (ds ++ String c r) acc = ((get_digits ds acc).1, String c r).
Proof.
  revert acc. induction ds as [|d ds IH]; intros acc Hds Hc; simpl.
  - by rewrite Hc.
  - simpl in Hds. destruct (digit_of d) as [v|]; [|done]. by apply IH.
Qed.

Lemma get_digits_end ds acc :
  all_digits ds = true → get_digits ds acc = ((get_digits ds acc).1, EmptyString).
Proof.
  revert acc. induction ds as [|d ds IH]; intros acc Hds; simpl; [done|].
  simpl in Hds. destruct (digit_of d) as [v|]; [|done]. by apply IH.
Qed.

Lemma get_digits_nonneg s acc : 0 ≤ acc → 0 ≤ (get_digits s acc).1.
Proof.
  revert acc. induction s as [|c s IH]; intros acc Hacc; simpl; [done|].
  destruct (digit_of c) as [v|] eqn:E; [|done].
  apply IH. apply digit_of_range in E. lia.
Qed.

Lemma value_nonneg s : 0 ≤ value s.
Proof. by apply get_digits_nonneg. Qed.

(** [operator>>] on a stream that starts with a digit, or with a minus
    sign and a digit *)
Lemma get_number_digit sg lo hi d v s :
  digit_of d = Some v →
  get_number sg lo hi (istream.mk (String d s) false) =
    let '(x, r') := get_digits (String d s) 0 in
    if (lo <=? x) && (x <=? hi)
    then Ok (x, istream.mk r' (match r' with EmptyString => true | _ => false end))
    else Failed.
Proof.
  intros Hd. unfold get_number. cbn [istream.eofbit istream.rest skipws].
  rewrite (digit_not_space d v Hd).
  rewrite (digit_not_char d v "-" eq_refl Hd), (digit_not_char d v "+" eq_refl Hd).
  by rewrite Hd.
Qed.

Lemma get_number_minus lo hi d v s :
  digit_of d = Some v →
  get_number true lo hi (istream.mk (String "-" (String d s)) false) =
    let '(x, r') := get_digits (String d s) 0 in
    if (lo <=? - x) && (- x <=? hi)
    then Ok (- x, istream.mk r' (match r' with EmptyString => true | _ => false end))
    else Failed.
Proof.
  intros Hd. unfold get_number. cbn [istream.eofbit istream.rest skipws].
  change (isspace "-") with false. cbv iota.
  change (Ascii.eqb "-" "-") with true. cbv iota. by rewrite Hd.
Qed.

(** An unsigned field followed by a comma *)
Lemma get_number_field hi ds r :
  numeral ds = true → value ds ≤ hi →
  get_number false 0 hi (istream.mk (ds ++ String "," r) false)
  = Ok (value ds, istream.mk (String "," r) false).
Proof.
  intros Hnum Hhi. destruct ds as [|d ds]; [done|].
  pose proof Hnum as Hall. simpl in Hnum.
  destruct (digit_of d) as [v|] eqn:Hd; [|done].
  change (String d ds ++ String "," r)%string
    with (String d (ds ++ String "," r))%string.
  rewrite (get_number_digit _ _ _ d v _ Hd).
  change (String d (ds ++ String "," r))%string
    with (String d ds ++ String "," r)%string.
  rewrite get_digits_app by done. fold (value (String d ds)).
  pose proof (value_nonneg (String d ds)).
  by rewrite (proj2 (Z.leb_le 0 _)), (proj2 (Z.leb_le _ hi)) by done.
Qed.

(** An unsigned field that ends the line *)
Lemma get_number_last hi ds :
  numeral ds = true → value ds ≤ hi →
  get_number false 0 hi (istream.mk ds false)
  = Ok (value ds, istream.mk EmptyString true).
Proof.
  intros Hnum Hhi. destruct ds as [|d ds]; [done|].
  pose proof Hnum as Hall. simpl in Hnum.
  destruct (digit_of d) as [v|] eqn:Hd; [|done].
  rewrite (get_number_digit _ _ _ d v _ Hd).
  rewrite get_digits_end by done. fold (value (String d ds)).
  pose proof (value_nonneg (String d ds)).
  by rewrite (proj2 (Z.leb_le 0 _)), (proj2 (Z.leb_le _ hi)) by done.
Qed.

(** A signed field followed by a comma *)
Lemma get_number_signed neg ds r :
  numeral ds = true →
  - 2 ^ 31 ≤ signed neg (value ds) ≤ 2 ^ 31 - 1 →
  get_number true (- 2 ^ 31) (2 ^ 31 - 1)
    (istream.mk (sign neg ++ ds ++ String "," r) false)
  = Ok (signed neg (value ds), istream.mk (String "," r) false).
Proof.
  intros Hnum Hrange. destruct ds as [|d ds]; [done|].
  pose proof Hnum as Hall. simpl in Hnum.
  destruct (digit_of d) as [v|] eqn:Hd; [|done].
  unfold signed in *. destruct neg.
  - change (sign true ++ String d ds ++ String "," r)%string
      with (String "-" (String d (ds ++ String "," r)))%string.
    rewrite (get_number_minus _ _ d v _ Hd).
    change (String d (ds ++ String "," r))%string
      with (String d ds ++ String "," r)%string.
    rewrite get_digits_app by done. fold (value (String d ds)).
    by rewrite (proj2 (Z.leb_le _ _) (proj1 Hrange)),
      (proj2 (Z.leb_le _ _) (proj2 Hrange)).
  - change (sign false ++ String d ds ++ String "," r)%string
      with (String d (ds ++ String "," r))%string.
    rewrite (get_number_digit _ _ _ d v _ Hd).
    change (String d (ds ++ String "," r))%string
      with (String d ds ++ String "," r)%string.
    rewrite get_digits_app by done. fold (value (String d ds)).
    by rewrite (proj2 (Z.leb_le _ _) (proj1 Hrange)),
      (proj2 (Z.leb_le _ _) (proj2 Hrange)).
Qed.

Lemma action_of_char a : action_of (char_of_action a) = Some a.
Proof. by destruct a. Qed.

Lemma side_of_char (sd : Side.t) : side_of (char_of_side sd) = Some sd.
Proof. by destruct sd. Qed.
End streams.

Lemma comma_app (x : string) : ("," ++ x)%string = String "," x.
Proof. done. Qed.

Lemma char_comma_app (c : ascii) (x : string) :
  (String c "," ++ x)%string = (String c EmptyString ++ String "," x)%string.
Proof. done. Qed.

(** X12.  The lines [parse] accepts in the layout it reads: sixteen fields
    separated by commas - time stamps, record type, publisher, instrument,
    action, side, depth, price, size, order id, flags, time delta, sequence,
    symbol, order id - where the record type and the flags are one character
    each that is not white space, the action and the side one letter of their
    enumerations, the numeric fields decimal numerals within the range of
    their types (depth and time delta with an optional minus sign), and the
    price a text that the price decoding accepts.  The message returned
    carries the texts and the numbers as written, with three exceptions: the
    record type and the flags are the codes of their characters, and the
    order id is that of the last field, the one after the size being read
    and overwritten. *)
Theorem parse_accepts (prec : Z) (ts_recv ts_event : string) (rt : ascii)
    (pub inst : string) (a : Action.t) (sd : Side.t) (dneg : bool)
    (dep pf sz oid1 : string) (fl : ascii) (tneg : bool)
    (delta sq sym oid2 : string) (p : Z) :
  commas ts_recv = 0%nat → commas ts_event = 0%nat →
  commas pf = 0%nat → commas sym = 0%nat →
  isspace rt = false → isspace fl = false →
  numeral pub = true → value pub ≤ 2 ^ 16 - 1 →
  numeral inst = true → value inst ≤ 2 ^ 32 - 1 →
  numeral dep = true → - 2 ^ 31 ≤ signed dneg (value dep) ≤ 2 ^ 31 - 1 →
  price_of prec pf = Ok p →
  numeral sz = true → value sz ≤ 2 ^ 32 - 1 →
  numeral oid1 = true → value oid1 ≤ 2 ^ 64 - 1 →
  numeral delta = true → - 2 ^ 31 ≤ signed tneg (value delta) ≤ 2 ^ 31 - 1 →
  numeral sq = true → value sq ≤ 2 ^ 32 - 1 →
  numeral oid2 = true → value oid2 ≤ 2 ^ 64 - 1 →
  parse prec
    (ts_recv ++ "," ++ ts_event ++ "," ++ String rt ","
     ++ pub ++ "," ++ inst ++ ","
     ++ String (char_of_action a) "," ++ String (char_of_side sd) ","
     ++ sign dneg ++ dep ++ "," ++ pf ++ "," ++ sz ++ "," ++ oid1 ++ ","
     ++ String fl "," ++ sign tneg ++ delta ++ "," ++ sq ++ ","
     ++ sym ++ "," ++ oid2)%string
  = Ok (MboMessage.mk ts_recv ts_event (code rt) (value pub) (value inst) a sd
          (signed dneg (value dep)) p (value sz) (code fl)
          (signed tneg (value delta)) (value sq) sym (value oid2)).
Proof.
  intros Hts1 Hts2 Hpf Hsym Hrt Hfl Hpub1 Hpub2 Hinst1 Hinst2 Hdep1 Hdep2 Hp
    Hsz1 Hsz2 Ho1 Ho1' Hd1 Hd2 Hsq1 Hsq2 Ho2 Ho2'.
  unfold parse. rewrite !comma_app, !char_comma_app.
  rewrite getline_field by done. cbn [mbind outcome_bind].
  rewrite getline_field by done. cbn [mbind outcome_bind].
  change (String rt "" ++ ?x)%string with (String rt x).
  rewrite get_char_field by done.
  cbn [mbind outcome_bind ignore istream.eofbit istream.rest].
  rewrite get_number_field by done.
  cbn [mbind outcome_bind ignore istream.eofbit istream.rest].
  rewrite get_number_field by done.
  cbn [mbind outcome_bind ignore istream.eofbit istream.rest].
  rewrite getline_field by (by destruct a). cbn [mbind outcome_bind one_char].
  rewrite getline_field by (by destruct sd). cbn [mbind outcome_bind one_char].
  rewrite get_number_signed by done.
  cbn [mbind outcome_bind ignore istream.eofbit istream.rest].
  rewrite getline_field by done. cbn [mbind outcome_bind].
  rewrite Hp. cbn [mbind outcome_bind].
  rewrite get_number_field by done.
  cbn [mbind outcome_bind ignore istream.eofbit istream.rest].
  rewrite get_number_field by done.
  cbn [mbind outcome_bind ignore istream.eofbit istream.rest].
  change (String fl "" ++ ?x)%string with (String fl x).
  rewrite get_char_field by done.
  cbn [mbind outcome_bind ignore istream.eofbit istream.rest].
  rewrite get_number_signed by done.
  cbn [mbind outcome_bind ignore istream.eofbit istream.rest].
  rewrite get_number_field by done.
  cbn [mbind outcome_bind ignore istream.eofbit istream.rest].
  rewrite getline_field by done. cbn [mbind outcome_bind].
  rewrite get_number_last by done. cbn [mbind outcome_bind].
  by rewrite action_of_char, side_of_char.
Qed.

Lemma parse_accepts_witness :
  parse 64 "t1,t2,x,2,1108,A,B,0,5.51,100,817593,@,-165200,851012,ARL,817594"
  = Ok (MboMessage.mk "t1" "t2" 120 2 1108 Action.A Side.B 0 5510000000 100 64
          (-165200) 851012 "ARL" 817594).
Proof.
  apply (parse_accepts 64 "t1" "t2" "x" "2" "1108" Action.A Side.B false "0"
           "5.51" "100" "817593" "@" true "165200" "851012" "ARL" "817594"
           5510000000);
    try reflexivity; vm_compute; try split; discriminate.
Defined.

(** X13.  The record type is extracted as one character: of a record type
    of three characters, the first and third of them digits (160, say), the
    first is the record type, the second is dropped by [ignore], the third is
    read as the publisher; so the instrument is read from the publisher
    field and the action from the instrument field.  Such a line is
    rejected whenever its instrument field is not one character long (and
    also when its publisher field is empty or too large for [uint32_t]). *)
Theorem parse_rejects_three_digit_rtype (prec : Z) (ts_recv ts_event : string)
    (c1 c2 c3 : ascii) (v1 v3 : Z) (pub inst tail : string) :
  commas ts_recv = 0%nat → commas ts_event = 0%nat →
  digit_of c1 = Some v1 → digit_of c3 = Some v3 →
  all_digits pub = true →
  commas inst = 0%nat → String.length inst ≠ 1%nat →
  parse prec
    (ts_recv ++ "," ++ ts_event ++ ","
     ++ String c1 (String c2 (String c3 ",")) ++ pub ++ "," ++ inst ++ "," ++ tail)
  = Failed.
Proof.
  intros Hts1 Hts2 Hc1 Hc3 Hpub Hinst Hlen.
  unfold parse. rewrite !comma_app.
  rewrite getline_field by done. cbn [mbind outcome_bind].
  rewrite getline_field by done. cbn [mbind outcome_bind].
  change (String c1 (String c2 (String c3 ",")) ++ ?x)%string
    with (String c1 (String c2 (String c3 EmptyString ++ String "," x)))%string.
  rewrite get_char_field by (by eapply digit_not_space).
  cbn [mbind outcome_bind ignore istream.eofbit istream.rest].
  assert (Hv3 : value (String c3 EmptyString) = v3).
  { unfold value. simpl. rewrite Hc3. simpl. lia. }
  pose proof (digit_of_range c3 v3 Hc3) as Hr3.
  rewrite get_number_field;
    [|by simpl; rewrite Hc3|rewrite Hv3; lia].
  cbn [mbind outcome_bind ignore istream.eofbit istream.rest].
  destruct pub as [|d pub].
  - (* no publisher digits: the extraction meets the comma *)
    reflexivity.
  - destruct (Z_le_gt_dec (value (String d pub)) (2 ^ 32 - 1)) as [Hle|Hgt].
    + rewrite get_number_field by done.
      cbn [mbind outcome_bind ignore istream.eofbit istream.rest].
      rewrite getline_field by done. cbn [mbind outcome_bind].
      destruct inst as [|i1 [|i2 inst]]; done.
    + pose proof Hpub as Hall. simpl in Hpub.
      destruct (digit_of d) as [v|] eqn:Hd; [|done].
      change (String d pub ++ ?x)%string with (String d (pub ++ x))%string.
      rewrite (get_number_digit _ _ _ d v _ Hd).
      change (String d (pub ++ ?x))%string with (String d pub ++ x)%string.
      rewrite get_digits_app by done. fold (value (String d pub)).
      rewrite (proj2 (Z.leb_gt (value (String d pub)) _)) by lia.
      by rewrite andb_false_r.
Qed.

Lemma parse_rejects_three_digit_rtype_witness :
  parse 64 "t1,t2,160,2,1108,A,B,0,5.51,100,817593,128,165200,851012,ARL,817593"
  = Failed.
Proof.
  apply (parse_rejects_three_digit_rtype 64 "t1" "t2" "1" "6" "0" 1 0 "2" "1108"
           "A,B,0,5.51,100,817593,128,165200,851012,ARL,817593");
    try reflexivity. discriminate.
Defined.

Lemma get_char_code ss v ss' :
  get_char ss = Ok (v, ss') → ∃ c, v = code c ∧ isspace c = false.
Proof.
  unfold get_char. destruct (istream.eofbit ss); [done|].
  induction (istream.rest ss) as [|c s IH]; simpl; [done|].
  destruct (isspace c) eqn:Hc; [done|]. intros [= <- <-]. by exists c.
Qed.

Lemma get_number_range sg lo hi ss v ss' :
  get_number sg lo hi ss = Ok (v, ss') → lo ≤ v ≤ hi.
Proof.
  unfold get_number. destruct (istream.eofbit ss); [done|].
  destruct (skipws (istream.rest ss)) as [|c r]; [done|].
  destruct (if Ascii.eqb c "-" then _ else _) as [neg [|d body]]; [done|].
  destruct (digit_of d); [|done]. destruct (neg && negb sg); [done|].
  destruct (get_digits _ 0) as [x r'].
  destruct (lo <=? _) eqn:E1; [|done]. destruct (_ <=? hi) eqn:E2; [|done].
  intros [= <- <-]. apply Z.leb_le in E1, E2. done.
Qed.

(** What the tests of [parse] establish of a message it returns *)
Lemma parse_ok prec line m :
  parse prec line = Ok m →
  commas (MboMessage.ts_recv m) = 0%nat
  ∧ commas (MboMessage.ts_event m) = 0%nat
  ∧ commas (MboMessage.symbol m) = 0%nat
  ∧ (∃ c, MboMessage.rtype m = code c ∧ isspace c = false)
  ∧ (∃ c, MboMessage.flags m = code c ∧ isspace c = false)
  ∧ 0 ≤ MboMessage.publisher_id m ≤ 2 ^ 16 - 1
  ∧ 0 ≤ MboMessage.instrument_id m ≤ 2 ^ 32 - 1
  ∧ - 2 ^ 31 ≤ MboMessage.depth m ≤ 2 ^ 31 - 1
  ∧ 0 ≤ MboMessage.size m ≤ 2 ^ 32 - 1
  ∧ - 2 ^ 31 ≤ MboMessage.ts_in_delta m ≤ 2 ^ 31 - 1
  ∧ 0 ≤ MboMessage.sequence m ≤ 2 ^ 32 - 1
  ∧ 0 ≤ MboMessage.order_id m ≤ 2 ^ 64 - 1.
Proof.
  unfold parse. intros H.
  destruct (getline _) as [[ts1 ss1]| |] eqn:E1; try done.
  cbn [mbind outcome_bind] in H.
  destruct (getline ss1) as [[ts2 ss2]| |] eqn:E2; try done.
  cbn [mbind outcome_bind] in H.
  destruct (get_char ss2) as [[rt ss3]| |] eqn:Ert; try done.
  cbn [mbind outcome_bind] in H.
  destruct (get_number _ _ _ (ignore ss3)) as [[pub ss4]| |] eqn:Epub; try done.
  cbn [mbind outcome_bind] in H.
  destruct (get_number _ _ _ (ignore ss4)) as [[inst ss5]| |] eqn:Einst; try done.
  cbn [mbind outcome_bind] in H.
  destruct (getline (ignore ss5)) as [[fa ss6]| |]; try done.
  cbn [mbind outcome_bind] in H.
  destruct (one_char fa) as [a| |]; try done.
  cbn [mbind outcome_bind] in H.
  destruct (getline ss6) as [[fs ss7]| |]; try done.
  cbn [mbind outcome_bind] in H.
  destruct (one_char fs) as [s| |]; try done.
  cbn [mbind outcome_bind] in H.
  destruct (get_number _ _ _ ss7) as [[dep ss8]| |] eqn:Edep; try done.
  cbn [mbind outcome_bind] in H.
  destruct (getline (ignore ss8)) as [[pf ss9]| |]; try done.
  cbn [mbind outcome_bind] in H.
  destruct (price_of prec pf) as [p| |]; try done.
  cbn [mbind outcome_bind] in H.
  destruct (get_number _ _ _ ss9) as [[sz ss10]| |] eqn:Esz; try done.
  cbn [mbind outcome_bind] in H.
  destruct (get_number _ _ _ (ignore ss10)) as [[o1 ss11]| |]; try done.
  cbn [mbind outcome_bind] in H.
  destruct (get_char (ignore ss11)) as [[fl ss12]| |] eqn:Efl; try done.
  cbn [mbind outcome_bind] in H.
  destruct (get_number _ _ _ (ignore ss12)) as [[dl ss13]| |] eqn:Edl; try done.
  cbn [mbind outcome_bind] in H.
  destruct (get_number _ _ _ (ignore ss13)) as [[sq ss14]| |] eqn:Esq; try done.
  cbn [mbind outcome_bind] in H.
  destruct (getline (ignore ss14)) as [[sym ss15]| |] eqn:E3; try done.
  cbn [mbind outcome_bind] in H.
  destruct (get_number _ _ _ ss15) as [[o2 ss16]| |] eqn:Eo2; try done.
  cbn [mbind outcome_bind] in H.
  destruct (action_of a), (side_of s); try done.
  injection H as <-. simpl.
  apply getline_free in E1, E2, E3.
  apply get_char_code in Ert, Efl.
  apply get_number_range in Epub, Einst, Edep, Esz, Edl, Esq, Eo2.
  repeat (split; [assumption|]). assumption.
Qed.

Section texts.
Implicit Types (s : string) (n : Z).

Lemma digit_not_comma v : 0 ≤ v ≤ 9 → Ascii.eqb (digit v) "," = false.
Proof.
  intros Hv.
  assert (v = 0 ∨ v = 1 ∨ v = 2 ∨ v = 3 ∨ v = 4 ∨ v = 5 ∨ v = 6 ∨ v = 7
          ∨ v = 8 ∨ v = 9) as Hc by lia.
  by repeat destruct Hc as [->|Hc]; [..|subst].
Qed.

Lemma commas_six_digits n : commas (six_digits n) = 0%nat.
Proof.
  unfold six_digits. cbn [commas].
  assert (∀ x, 0 ≤ x mod 10 ≤ 9) as Hm
    by (intros x; pose proof (Z.mod_pos_bound x 10); lia).
  by rewrite !digit_not_comma by apply Hm.
Qed.

Lemma commas_uint d : commas (NilEmpty.string_of_uint d) = 0%nat.
Proof. induction d; simpl; done. Qed.

Lemma commas_dec n : commas (dec n) = 0%nat.
Proof.
  unfold dec, NilZero.string_of_uint.
  destruct (N.to_uint (Z.to_N n)); try done; apply commas_uint.
Qed.

Lemma commas_sdec n : commas (sdec n) = 0%nat.
Proof.
  unfold sdec. rewrite commas_app, commas_dec. by destruct (n <? 0).
Qed.

Lemma commas_price_field n : commas (price_field n) = 0%nat.
Proof.
  unfold price_field. destruct (n =? PRICE_UNDEF); [done|].
  unfold to_string. rewrite !commas_app, commas_six_digits.
  fold (dec (micros (price_double n).2 / 10 ^ 6)). rewrite commas_dec.
  by destruct (price_double n).1.
Qed.

Lemma commas_rows_text snap : commas (rows_text snap) = (3 * length snap)%nat.
Proof.
  induction snap as [|p snap IH]; [done|]. cbn [rows_text foldr length].
  fold (rows_text snap). rewrite commas_app, IH. unfold row_text.
  rewrite !commas_app, commas_price_field, !commas_dec. simpl. lia.
Qed.

Lemma commas_record m snap :
  commas (record m snap) =
    (14 + commas (MboMessage.ts_recv m) + commas (MboMessage.ts_event m)
     + commas (MboMessage.symbol m) + 3 * length snap)%nat.
Proof.
  unfold record.
  rewrite !commas_app, commas_rows_text, !commas_dec, !commas_sdec,
    commas_price_field.
  assert (∀ c, commas (String (char_of_action c) ",") = 1%nat) as Ha
    by (by intros []).
  assert (∀ c, commas (String (char_of_side c) ",") = 1%nat) as Hs
    by (by intros []).
  rewrite Ha, Hs. simpl. lia.
Qed.
End texts.

Lemma record_commas prec line m sc b snap :
  parse prec line = Ok m → snapshot sc b 10 = Some snap →
  commas (record m snap) = 74%nat.
Proof.
  intros Hparse Hsnap.
  destruct (parse_ok prec line m Hparse) as (H1 & H2 & H3 & _).
  assert (length snap = 20%nat) as Hlen.
  { unfold snapshot in Hsnap.
    destruct (fill sc b (bids_ b) true 10) as [bs|] eqn:Hb; [|done].
    destruct (fill sc b (offers_ b) false 10) as [os|] eqn:Ho; [|done].
    injection Hsnap as <-.
    apply fill_rows in Hb as (_ & _ & _ & Hb).
    apply fill_rows in Ho as (_ & _ & _ & Ho).
    rewrite length_app. lia. }
  rewrite commas_record, H1, H2, H3, Hlen. done.
Qed.

(** X15.  Every record that the loop of [main] writes has 75 fields, that
    is 74 commas: the 13 fields of the event, 3 for each of the 20 rows of the
    snapshot, the symbol and the order id; the texts copied from the line
    hold no comma because [getline] has split the line at commas, and the
    numbers and prices are written without one. *)
Theorem run_records_have_75_fields (prec : Z) (ob : option OrderBook) (e : nat)
    (lines : list string) (text : string) :
  Some text ∈ run prec ob e lines → commas text = 74%nat.
Proof.
  revert ob e. induction lines as [|line rest IH]; intros ob e Hin; simpl in Hin.
  - by apply elem_of_nil in Hin.
  - destruct (parse prec line) as [m| |] eqn:Hparse.
    + destruct (ob ≫= λ b, apply b e m) as [b'|].
      * destruct (snapshot (in_iteration e m) b' 10) as [snap|] eqn:Hsnap.
        -- apply elem_of_cons in Hin as [[= ->]|Hin]; [|by eapply IH].
           by eapply record_commas.
        -- apply elem_of_cons in Hin as [[=]|Hin]. by eapply IH.
      * apply elem_of_cons in Hin as [[=]|Hin]. by eapply IH.
    + by eapply IH.
    + apply elem_of_cons in Hin as [[=]|Hin]. by eapply IH.
Qed.

(** X16.  A line that [parse] rejects leaves no trace: the records written
    for a file are those written for the file without that line, so the
    line changes neither the book nor any later record. *)
Theorem run_skips_rejected (prec : Z) (ob : option OrderBook) (e : nat)
    (before after : list string) (line : string) :
  parse prec line = Failed →
  run prec ob e (before ++ line :: after) = run prec ob e (before ++ after).
Proof.
  intros Hfail. revert ob e.
  induction before as [|l before IH]; intros ob e; simpl.
  - by rewrite Hfail.
  - destruct (parse prec l) as [m| |]; [|done|by rewrite IH].
    destruct (ob ≫= λ b, apply b e m) as [b'|]; [|by rewrite IH].
    destruct (snapshot (in_iteration e m) b' 10); by rewrite IH.
Qed.

Lemma tob_digit c v : digit_of c = Some v → code c = 48 + v ∧ tob (code c) = false.
Proof.
  intros Hc. pose proof (digit_of_range c v Hc) as Hv.
  unfold digit_of in Hc. fold (code c) in Hc.
  destruct ((48 <=? code c) && (code c <=? 57)); [|done].
  injection Hc as Hc. assert (code c = 48 + v) as -> by lia. split; [done|].
  assert (v = 0 ∨ v = 1 ∨ v = 2 ∨ v = 3 ∨ v = 4 ∨ v = 5 ∨ v = 6 ∨ v = 7
          ∨ v = 8 ∨ v = 9) as Hcases by lia.
  clear Hc Hv. by repeat destruct Hcases as [->|Hcases]; [..|subst].
Qed.

Lemma run_records_have_75_fields_witness :
  commas
    (record
       (MboMessage.mk "t1" "t2" 120 2 1108 Action.A Side.B 0 5510000000 100 48
          (-165200) 851012 "ARL" 817594)
       (PriceLevel.mk 5510000000 100 1 :: replicate 19 padding))
  = 74%nat.
Proof.
  apply (run_records_have_75_fields 64 (Some empty_book) 0
           ["ts_recv,ts_event,rtype"%string;
            "t1,t2,x,2,1108,A,B,0,5.51,100,817593,0,-165200,851012,ARL,817594"%string]).
  vm_compute. apply list_elem_of_here.
Defined.

Lemma run_skips_rejected_witness :
  run 64 (Some empty_book) 0
    ["t1,t2,x,2,1108,A,B,0,5.51,100,817593,0,-165200,851012,ARL,817594"%string;
     "t1,t2,160,2,1108,A,B,0,5.51,100,817593,128,165200,851012,ARL,817593"%string;
     "t3,t4,x,2,1108,C,B,0,,40,817594,0,165200,851013,ARL,817594"%string]
  = run 64 (Some empty_book) 0
      ["t1,t2,x,2,1108,A,B,0,5.51,100,817593,0,-165200,851012,ARL,817594"%string;
       "t3,t4,x,2,1108,C,B,0,,40,817594,0,165200,851013,ARL,817594"%string].
Proof.
  apply (run_skips_rejected 64 (Some empty_book) 0
           ["t1,t2,x,2,1108,A,B,0,5.51,100,817593,0,-165200,851012,ARL,817594"%string]
           ["t3,t4,x,2,1108,C,B,0,,40,817594,0,165200,851013,ARL,817594"%string]).
  vm_compute. reflexivity.
Defined.

(** An unsigned field followed by text that does not go on with a digit *)
Lemma get_number_tail hi ds tail :
  numeral ds = true → value ds ≤ hi → ends_number tail = true →
  ∃ ss', get_number false 0 hi (istream.mk (ds ++ tail) false)
         = Ok (value ds, ss').
Proof.
  intros Hnum Hhi Htail. destruct ds as [|d ds]; [done|].
  pose proof Hnum as Hall. simpl in Hnum.
  destruct (digit_of d) as [v|] eqn:Hd; [|done].
  change (String d ds ++ tail)%string with (String d (ds ++ tail))%string.
  rewrite (get_number_digit _ _ _ d v _ Hd).
  change (String d (ds ++ tail))%string with (String d ds ++ tail)%string.
  pose proof (value_nonneg (String d ds)) as Hpos.
  destruct tail as [|c r].
  - assert (String d ds ++ "" = String d ds)%string as ->.
    { generalize (String d ds). intros s.
      induction s as [|c s IH]; [done|].
      change (String c (s ++ "") = String c s)%string. by rewrite IH. }
    rewrite get_digits_end by done. fold (value (String d ds)).
    rewrite (proj2 (Z.leb_le 0 _)), (proj2 (Z.leb_le _ hi)) by done.
    by eexists.
  - simpl in Htail. destruct (digit_of c) eqn:Hc; [done|].
    rewrite get_digits_app by done. fold (value (String d ds)).
    rewrite (proj2 (Z.leb_le 0 _)), (proj2 (Z.leb_le _ hi)) by done.
    by eexists.
Qed.

(** The layout [parse] reads, followed by any text that does not go on with
    a digit. *)
Lemma parse_layout (prec : Z) (ts_recv ts_event : string) (rt : ascii)
    (pub inst : string) (a : Action.t) (sd : Side.t) (dneg : bool)
    (dep pf sz oid1 : string) (fl : ascii) (tneg : bool)
    (delta sq sym oid2 tail : string) (p : Z) :
  commas ts_recv = 0%nat → commas ts_event = 0%nat →
  commas pf = 0%nat → commas sym = 0%nat →
  isspace rt = false → isspace fl = false →
  numeral pub = true → value pub ≤ 2 ^ 16 - 1 →
  numeral inst = true → value inst ≤ 2 ^ 32 - 1 →
  numeral dep = true → - 2 ^ 31 ≤ signed dneg (value dep) ≤ 2 ^ 31 - 1 →
  price_of prec pf = Ok p →
  numeral sz = true → value sz ≤ 2 ^ 32 - 1 →
  numeral oid1 = true → value oid1 ≤ 2 ^ 64 - 1 →
  numeral delta = true → - 2 ^ 31 ≤ signed tneg (value delta) ≤ 2 ^ 31 - 1 →
  numeral sq = true → value sq ≤ 2 ^ 32 - 1 →
  numeral oid2 = true → value oid2 ≤ 2 ^ 64 - 1 →
  ends_number tail = true →
  parse prec
    (ts_recv ++ "," ++ ts_event ++ "," ++ String rt ","
     ++ pub ++ "," ++ inst ++ ","
     ++ String (char_of_action a) "," ++ String (char_of_side sd) ","
     ++ sign dneg ++ dep ++ "," ++ pf ++ "," ++ sz ++ "," ++ oid1 ++ ","
     ++ String fl "," ++ sign tneg ++ delta ++ "," ++ sq ++ ","
     ++ sym ++ "," ++ oid2 ++ tail)%string
  = Ok (MboMessage.mk ts_recv ts_event (code rt) (value pub) (value inst) a sd
          (signed dneg (value dep)) p (value sz) (code fl)
          (signed tneg (value delta)) (value sq) sym (value oid2)).
Proof.
  intros Hts1 Hts2 Hpf Hsym Hrt Hfl Hpub1 Hpub2 Hinst1 Hinst2 Hdep1 Hdep2 Hp
    Hsz1 Hsz2 Ho1 Ho1' Hd1 Hd2 Hsq1 Hsq2 Ho2 Ho2' Htail.
  destruct (get_number_tail (2 ^ 64 - 1) oid2 tail Ho2 Ho2' Htail) as [ss' Hlast].
  unfold parse. rewrite !comma_app, !char_comma_app.
  rewrite getline_field by done. cbn [mbind outcome_bind].
  rewrite getline_field by done. cbn [mbind outcome_bind].
  change (String rt "" ++ ?x)%string with (String rt x).
  rewrite get_char_field by done.
  cbn [mbind outcome_bind ignore istream.eofbit istream.rest].
  rewrite get_number_field by done.
  cbn [mbind outcome_bind ignore istream.eofbit istream.rest].
  rewrite get_number_field by done.
  cbn [mbind outcome_bind ignore istream.eofbit istream.rest].
  rewrite getline_field by (by destruct a). cbn [mbind outcome_bind one_char].
  rewrite getline_field by (by destruct sd). cbn [mbind outcome_bind one_char].
  rewrite get_number_signed by done.
  cbn [mbind outcome_bind ignore istream.eofbit istream.rest].
  rewrite getline_field by done. cbn [mbind outcome_bind].
  rewrite Hp. cbn [mbind outcome_bind].
  rewrite get_number_field by done.
  cbn [mbind outcome_bind ignore istream.eofbit istream.rest].
  rewrite get_number_field by done.
  cbn [mbind outcome_bind ignore istream.eofbit istream.rest].
  change (String fl "" ++ ?x)%string with (String fl x).
  rewrite get_char_field by done.
  cbn [mbind outcome_bind ignore istream.eofbit istream.rest].
  rewrite get_number_signed by done.
  cbn [mbind outcome_bind ignore istream.eofbit istream.rest].
  rewrite get_number_field by done.
  cbn [mbind outcome_bind ignore istream.eofbit istream.rest].
  rewrite getline_field by done. cbn [mbind outcome_bind].
  rewrite Hlast. cbn [mbind outcome_bind].
  by rewrite action_of_char, side_of_char.
Qed.

(** X14.  The record type and the flags are read as the code of the one
    character of their field, not as the number written there.  For a line
    in the layout [parse] reads - also when text that does not go on with a
    digit follows the last field, a carriage return or further columns -
    whose flags field is the decimal digit [v]: the line is accepted, the
    flags of the message are [48 + v], and they do not carry the
    top-of-book bit; the record type is the code of the character of its
    field, [48 + v1] when that is the digit [v1]. *)
Theorem parse_reads_one_character (prec : Z) (ts_recv ts_event : string)
    (rt : ascii) (pub inst : string) (a : Action.t) (sd : Side.t) (dneg : bool)
    (dep pf sz oid1 : string) (fl : ascii) (tneg : bool)
    (delta sq sym oid2 tail : string) (p v : Z) :
  commas ts_recv = 0%nat → commas ts_event = 0%nat →
  commas pf = 0%nat → commas sym = 0%nat →
  isspace rt = false → digit_of fl = Some v →
  numeral pub = true → value pub ≤ 2 ^ 16 - 1 →
  numeral inst = true → value inst ≤ 2 ^ 32 - 1 →
  numeral dep = true → - 2 ^ 31 ≤ signed dneg (value dep) ≤ 2 ^ 31 - 1 →
  price_of prec pf = Ok p →
  numeral sz = true → value sz ≤ 2 ^ 32 - 1 →
  numeral oid1 = true → value oid1 ≤ 2 ^ 64 - 1 →
  numeral delta = true → - 2 ^ 31 ≤ signed tneg (value delta) ≤ 2 ^ 31 - 1 →
  numeral sq = true → value sq ≤ 2 ^ 32 - 1 →
  numeral oid2 = true → value oid2 ≤ 2 ^ 64 - 1 →
  ends_number tail = true →
  ∃ m,
    parse prec
      (ts_recv ++ "," ++ ts_event ++ "," ++ String rt ","
       ++ pub ++ "," ++ inst ++ ","
       ++ String (char_of_action a) "," ++ String (char_of_side sd) ","
       ++ sign dneg ++ dep ++ "," ++ pf ++ "," ++ sz ++ "," ++ oid1 ++ ","
       ++ String fl "," ++ sign tneg ++ delta ++ "," ++ sq ++ ","
       ++ sym ++ "," ++ oid2 ++ tail)%string
    = Ok m
    ∧ MboMessage.flags m = 48 + v
    ∧ tob (MboMessage.flags m) = false
    ∧ MboMessage.rtype m = code rt
    ∧ (∀ v1, digit_of rt = Some v1 → MboMessage.rtype m = 48 + v1).
Proof.
  intros Hts1 Hts2 Hpf Hsym Hrt Hfl Hpub1 Hpub2 Hinst1 Hinst2 Hdep1 Hdep2 Hp
    Hsz1 Hsz2 Ho1 Ho1' Hd1 Hd2 Hsq1 Hsq2 Ho2 Ho2' Htail.
  eexists. split.
  - apply parse_layout; try done. by eapply digit_not_space.
  - destruct (tob_digit fl v Hfl) as [Hcode Htob]. simpl.
    split; [exact Hcode|]. split; [exact Htob|]. split; [done|].
    intros v1 Hv1. by apply tob_digit in Hv1 as [? _].
Qed.

Lemma parse_reads_one_character_witness :
  ∃ m,
    parse 64 "t1,t2,1,2,1108,A,B,0,5.51,100,817593,0,-165200,851012,ARL,817594,x"
    = Ok m
    ∧ MboMessage.flags m = 48 ∧ tob (MboMessage.flags m) = false
    ∧ MboMessage.rtype m = 49
    ∧ (∀ v1, digit_of "1" = Some v1 → MboMessage.rtype m = 48 + v1).
Proof.
  apply (parse_reads_one_character 64 "t1" "t2" "1" "2" "1108" Action.A Side.B
           false "0" "5.51" "100" "817593" "0" true "165200" "851012" "ARL"
           "817594" ",x" 5510000000 0);
    try reflexivity; vm_compute; try split; discriminate.
Defined.
